(** * The response resolver of the service virtualizer, and its controller

    A shallow embedding of [models/responseResolver] (the file that exports
    [create], returning [{ resolve, resolveProxy }]), of
    [controllers/imposterController], and of the properties stated about
    them.

    JavaScript values are a tree type with [undefined] and [null]; objects
    keep their keys in insertion order.  Code that can raise runs in an
    error monad, the resolver's closure state and the rule repository it
    is given are threaded through a state monad, and a promise is the
    settlement it reaches once the exchange has run to completion. *)

From Stdlib Require Import ZArith NArith List String Ascii Bool Lia.
From Stdlib Require Import DecimalString DecimalN.
From stdpp Require Import base option list gmap strings.
Import ListNotations.

Open Scope string_scope.
#[local] Set Warnings "-register-all".

(** ** JavaScript values *)

Inductive value : Type :=
| VUndefined
| VNull
| VBool (b : bool)
| VNum (n : Z)
| VStr (s : string)
| VArr (items : list value)
| VObj (fields : list (string * value))
| VFunction (label : string).

(** Numbers are the integers the resolver handles (counts, milliseconds,
    resolution keys); they are exact in JavaScript below 2^53.  A number
    with a fractional part, which a request body may carry, has no value
    here.  A function value is opaque: only its presence on an object
    matters here. *)

Definition emptyObject : value := VObj [].

(** [new Date() - undefined], which is [NaN].  The numbers here are
    integers; the one place that computes this value raises before the
    value is read, and it is written [undefined]. *)
Definition notANumber : value := VUndefined.

(** Modelled from the spec: [helpers.defined] (util/helpers is not among
    the sources); "absent/undefined" is the one value [undefined]. *)
Definition defined (v : value) : bool :=
  match v with VUndefined => false | _ => true end.

(** Modelled from the spec: [helpers.isObject] (util/helpers is not among
    the sources); "nested structures" are the values of type object, which
    in JavaScript includes arrays and excludes [null]. *)
Definition isObject (v : value) : bool :=
  match v with VArr _ | VObj _ => true | _ => false end.

Definition isArray (v : value) : bool :=
  match v with VArr _ => true | _ => false end.

(** Truthiness, as [if (v)], [a && b] and [a || b] test it. *)
Definition truthy (v : value) : bool :=
  match v with
  | VUndefined | VNull => false
  | VBool b => b
  | VNum n => negb (n =? 0)%Z
  | VStr s => negb (String.eqb s EmptyString)
  | VArr _ | VObj _ | VFunction _ => true
  end.

(** [a && b] and [a || b] return one of their operands. *)
Definition js_and (a b : value) : value := if truthy a then b else a.
Definition js_or (a b : value) : value := if truthy a then a else b.

Fixpoint field (k : string) (fs : list (string * value)) : value :=
  match fs with
  | [] => VUndefined
  | (k', v) :: rest => if String.eqb k k' then v else field k rest
  end.

(** [o[k] = v] on the fields of an object: an existing key keeps its
    place, a new key goes last. *)
Fixpoint setField (k : string) (v : value) (fs : list (string * value))
  : list (string * value) :=
  match fs with
  | [] => [(k, v)]
  | (k', v') :: rest =>
      if String.eqb k k' then (k, v) :: rest else (k', v') :: setField k v rest
  end.

Definition decimal (n : N) : string := NilEmpty.string_of_uint (N.to_uint n).

Definition indexKeys (len : nat) : list string :=
  map (fun i => decimal (N.of_nat i)) (seq 0 len).

Fixpoint indexed (k : string) (i : nat) (items : list value) : value :=
  match items with
  | [] => VUndefined
  | x :: rest =>
      if String.eqb k (decimal (N.of_nat i)) then x else indexed k (S i) rest
  end.

Definition chars (s : string) : list value :=
  map (fun c => VStr (String c EmptyString)) (list_ascii_of_string s).

(** ** Errors and completions *)

Variant ErrorKind : Type :=
| ValidationError
| InjectionError
| MissingResourceError
| TypeError.

(** Modelled from the spec: the error constructors of util/errors (not
    among the sources): a typed failure carrying a message, the offending
    [source] and, for injection failures, the underlying fault in [data]. *)
Record Error : Type := mkError {
  kind : ErrorKind;
  message : string;
  source : value;
  data : value
}.

Variant Completion (A : Type) : Type :=
| Return (a : A)
| Throw (e : Error).
Arguments Return {A} a.
Arguments Throw {A} e.

Definition typeError {A : Type} (what : string) : Completion A :=
  Throw (mkError TypeError what VUndefined VUndefined).

Definition cbind {A B : Type} (c : Completion A) (k : A -> Completion B)
  : Completion B :=
  match c with
  | Return a => k a
  | Throw e => Throw e
  end.

Declare Scope completion_scope.
Delimit Scope completion_scope with completion.
Notation "'let!' x ':=' c 'in' k" := (cbind c (fun x => k))
  (at level 10, x name, c at level 100, k at level 200) : completion_scope.
Open Scope completion_scope.

(** [v[k]]: reading a property of [undefined] or [null] raises; an object
    answers the properties it owns, arrays and strings their indices and
    [length].  What a value answers through its prototype is left out.
    The reads by the fixed names of the code are as in the code (no
    prototype has one of these names), and so is the read of a request
    by a name taken from a predicate generator, unless the name is one
    of a member of [Object.prototype].  The two plain objects that are
    looked up by a name from outside have [property] below. *)
Definition get (v : value) (k : string) : Completion value :=
  match v with
  | VUndefined | VNull => typeError "Cannot read properties of undefined or null"
  | VObj fs => Return (field k fs)
  | VArr items =>
      if String.eqb k "length" then Return (VNum (Z.of_nat (length items)))
      else Return (indexed k 0 items)
  | VStr s =>
      if String.eqb k "length" then Return (VNum (Z.of_nat (String.length s)))
      else Return (indexed k 0 (chars s))
  | VBool _ | VNum _ | VFunction _ => Return VUndefined
  end.

(** [v[k] = x] in strict mode: an object takes the property, a primitive
    raises.  A named property put on an array or a function is no part of
    the tree (serialization drops it), so these are left as they are. *)
Definition set (v : value) (k : string) (x : value) : Completion value :=
  match v with
  | VObj fs => Return (VObj (setField k x fs))
  | VArr _ | VFunction _ => Return v
  | VUndefined | VNull => typeError "Cannot set properties of undefined or null"
  | VBool _ | VNum _ | VStr _ => typeError "Cannot create property on a primitive"
  end.

(** [Object.keys(v)]. *)
Definition keys (v : value) : Completion (list string) :=
  match v with
  | VUndefined | VNull => typeError "Cannot convert undefined or null to object"
  | VObj fs => Return (map fst fs)
  | VArr items => Return (indexKeys (length items))
  | VStr s => Return (indexKeys (String.length s))
  | VBool _ | VNum _ | VFunction _ => Return []
  end.

(** ** Plain objects used as maps

    The resolver's [pendingProxyResolutions] and the controller's
    [imposters] are plain objects.  [o[name]] answers the entry stored
    under the name and, for a name without an entry, the member of
    [Object.prototype] of that name, if it has one. *)

Definition objectPrototype : list string :=
  ["constructor"; "__defineGetter__"; "__defineSetter__"; "hasOwnProperty";
   "__lookupGetter__"; "__lookupSetter__"; "isPrototypeOf";
   "propertyIsEnumerable"; "toString"; "valueOf"; "__proto__";
   "toLocaleString"].

Definition inherits (name : string) : bool :=
  existsb (String.eqb name) objectPrototype.

(** [Object.prototype[name]]: [__proto__] answers the prototype of the
    object, the other names a function. *)
Definition memberOf (name : string) : value :=
  if String.eqb name "__proto__" then emptyObject else VFunction name.

Variant Property (A : Type) : Type :=
| Own (entry : A)
| Inherited (member : value)
| Missing.
Arguments Own {A} entry.
Arguments Inherited {A} member.
Arguments Missing {A}.

Definition property {A : Type} (own : option A) (name : string) : Property A :=
  match own with
  | Some entry => Own entry
  | None => if inherits name then Inherited (memberOf name) else Missing
  end.

(** The number a property name is the numeral of: a number used as a
    property name stands for its numeral, and no other name reaches what
    was stored under the number. *)
Definition numbered (name : string) : option N :=
  match NilEmpty.uint_of_string name with
  | Some digits =>
      if String.eqb (decimal (N.of_uint digits)) name
      then Some (N.of_uint digits)
      else None
  | None => None
  end.

(** ** Selector value extraction *)

Definition selectionValue (nodes : value) : value :=
  if negb (defined nodes) then VStr EmptyString
  else if negb (isArray nodes) then nodes
  else match nodes with
       | VArr [node] => node
       | _ => nodes
       end.

(** ** Promises

    An exchange is modelled run to completion: a promise is the
    settlement it reaches and the timer delay (in milliseconds; 0 when no
    timer is involved) after which it does, or [Never] for a deferred
    that nobody resolves. *)

Variant Settlement : Type :=
| Fulfils (v : value)
| Rejects (e : Error).

Variant Promise : Type :=
| Settles (delay : N) (s : Settlement)
| Never.

(** [Q(v)] and [Q.reject(e)]. *)
Definition Q (v : value) : Promise := Settles 0 (Fulfils v).
Definition Q_reject (e : Error) : Promise := Settles 0 (Rejects e).

(** What evaluating the rule author's response logic comes to: it returns
    a defined value, or returns nothing and calls the completion callback,
    or raises, or does neither. *)
Variant Evaluation : Type :=
| Returned (response : value)
| CalledBack (response : value)
| Raised (fault : string)
| Silent.

(** ** The collaborators

    The modules the resolver [require]s and that are no part of it: the
    canonical serializer, the two selector engines, the behavior pipeline
    and the evaluation of injected source text.  They are parameters of the
    development. *)

Class Collaborators : Type := {
  (** [json-stable-stringify]: [None] stands for its [undefined] result. *)
  stringify : value -> option string;
  (** [xpath.select(selector, ns, possibleXML, logger)] *)
  xpath_select : value -> value -> value -> value;
  (** [jsonpath.select(selector, possibleJSON, logger)] *)
  jsonpath_select : value -> value -> value;
  (** [behaviors.execute(request, response, behaviors, logger)] *)
  behaviors_execute : value -> value -> value -> Promise;
  (** [eval] of a predicate generator's source on [{ request, logger }]:
      the fault it raises or the predicates it yields. *)
  evalPredicateGenerator : value -> value -> string + list value;
  (** [eval] of a response injection's source on the request and the
      imposter state. *)
  evalInjection : value -> value -> value -> Evaluation
}.

(** The in-process transport: [proxy.to(to, request, proxyConfig,
    requestDetails)], with the milliseconds the round trip took. *)
Definition Transport : Type := value -> value -> value -> value -> Z * Promise.

(** ** The rule repository and the resolver's state *)

(** A rule ("stub"), as [addNewStub] builds one and the scans read it. *)
Record Stub : Type := mkStub {
  predicates : value;
  responses : list value
}.

Record PendingProxy : Type := mkPending {
  responseConfig : value;
  request : value;
  startTime : Z;
  requestDetails : value
}.

(** One call of the logger's [error]. *)
Record LogLine : Type := mkLog { text : string; subject : value }.

Record World : Type := mkWorld {
  (** the array behind [stubs.stubs()] *)
  stubs : list Stub;
  pendingProxyResolutions : gmap N PendingProxy;
  nextProxyResolutionKey : N;
  (** [new Date()], in milliseconds *)
  clock : Z;
  (** what [logger.error] was called with *)
  errorLog : list LogLine;
  (** the source texts handed to [eval] *)
  evaluated : list string
}.

Definition initial (stubList : list Stub) (now : Z) : World :=
  mkWorld stubList ∅ 0 now [] [].

Definition withStubs (w : World) (l : list Stub) : World :=
  mkWorld l (pendingProxyResolutions w) (nextProxyResolutionKey w)
    (clock w) (errorLog w) (evaluated w).

Definition withPending (w : World) (m : gmap N PendingProxy) (next : N) : World :=
  mkWorld (stubs w) m next (clock w) (errorLog w) (evaluated w).

Definition withClock (w : World) (now : Z) : World :=
  mkWorld (stubs w) (pendingProxyResolutions w) (nextProxyResolutionKey w)
    now (errorLog w) (evaluated w).

Definition withErrorLog (w : World) (l : list LogLine) : World :=
  mkWorld (stubs w) (pendingProxyResolutions w) (nextProxyResolutionKey w)
    (clock w) l (evaluated w).

Definition withEvaluated (w : World) (l : list string) : World :=
  mkWorld (stubs w) (pendingProxyResolutions w) (nextProxyResolutionKey w)
    (clock w) (errorLog w) l.

(** [pendingProxyResolutions[name]] and [delete
    pendingProxyResolutions[name]].  The resolver stores under its counter
    only, so the own properties of the object are the numerals of the
    keys. *)
Definition pendingAt (pending : gmap N PendingProxy) (name : string)
  : Property PendingProxy :=
  property (match numbered name with
            | Some key => pending !! key
            | None => None
            end) name.

Definition deleteAt (name : string) (pending : gmap N PendingProxy)
  : gmap N PendingProxy :=
  match numbered name with
  | Some key => delete key pending
  | None => pending
  end.

(** ** The monad of the resolver's code *)

Definition M (A : Type) : Type := World -> Completion A * World.

Definition ret {A : Type} (a : A) : M A := fun w => (Return a, w).

Definition raise {A : Type} (e : Error) : M A := fun w => (Throw e, w).

Definition bind {A B : Type} (m : M A) (k : A -> M B) : M B :=
  fun w =>
    match m w with
    | (Return a, w') => k a w'
    | (Throw e, w') => (Throw e, w')
    end.

Definition lift {A : Type} (c : Completion A) : M A := fun w => (c, w).

Definition modify (f : World -> World) : M unit := fun w => (Return tt, f w).

Definition reads {A : Type} (f : World -> A) : M A := fun w => (Return (f w), w).

Declare Scope resolver_scope.
Delimit Scope resolver_scope with resolver.
Notation "'let*' x ':=' m 'in' k" := (bind m (fun x => k))
  (at level 10, x name, m at level 100, k at level 200) : resolver_scope.
Notation "'exec' m 'in' k" := (bind m (fun _ => k))
  (at level 10, m at level 100, k at level 200) : resolver_scope.
Open Scope resolver_scope.

(** [logger.error(...)] *)
Definition logError (line : string) (about : value) : M unit :=
  modify (fun w => withErrorLog w (errorLog w ++ [mkLog line about])).

(** [eval(source)] leaves its trace. *)
Definition evaluating (src : string) : M unit :=
  modify (fun w => withEvaluated w (evaluated w ++ [src])).

(** [promise.then(callback)]: the callback runs on the fulfilment value; a
    fault it raises rejects the promise it returns. *)
Definition andThen (p : Promise) (callback : value -> M Promise) : M Promise :=
  match p with
  | Settles d (Fulfils v) =>
      fun w =>
        match callback v w with
        | (Return (Settles d' s), w') => (Return (Settles (d + d') s), w')
        | (Return Never, w') => (Return Never, w')
        | (Throw e, w') => (Return (Settles d (Rejects e)), w')
        end
  | Settles d (Rejects e) => ret p
  | Never => ret Never
  end.

(** ** Helpers of the embedding *)

Fixpoint foldC {A B : Type} (f : A -> B -> Completion A) (l : list B) (a : A)
  : Completion A :=
  match l with
  | [] => Return a
  | b :: rest => let! a' := f a b in foldC f rest a'
  end.

Fixpoint mapC {A B : Type} (f : A -> Completion B) (l : list A)
  : Completion (list B) :=
  match l with
  | [] => Return []
  | a :: rest => let! b := f a in let! bs := mapC f rest in Return (b :: bs)
  end.

Fixpoint foldM {A B : Type} (f : A -> B -> M A) (l : list B) (a : A) : M A :=
  match l with
  | [] => ret a
  | b :: rest => let* a' := f a b in foldM f rest a'
  end.

(** [array.forEach]: only an array has it. *)
Definition elements (v : value) : Completion (list value) :=
  match v with
  | VArr items => Return items
  | VUndefined | VNull => typeError "Cannot read properties of undefined or null"
  | _ => typeError "forEach is not a function"
  end.

(** [v === true] *)
Definition isTrue (v : value) : bool :=
  match v with VBool true => true | _ => false end.

(** [v === 'text'] *)
Definition isString (s : string) (v : value) : bool :=
  match v with VStr s' => String.eqb s' s | _ => false end.

Fixpoint joinWith (sep : string) (parts : list string) : string :=
  match parts with
  | [] => EmptyString
  | [part] => part
  | part :: rest => part ++ sep ++ joinWith sep rest
  end.

(** A value inside a template literal. *)
Fixpoint toText (v : value) : string :=
  match v with
  | VUndefined => "undefined"
  | VNull => "null"
  | VBool true => "true"
  | VBool false => "false"
  | VNum n => NilZero.string_of_int (Z.to_int n)
  | VStr s => s
  | VArr items =>
      joinWith ","
        (map (fun x => match x with
                       | VUndefined | VNull => EmptyString
                       | _ => toText x
                       end) items)
  | VObj _ => "[object Object]"
  | VFunction label => label
  end.

(** The nesting depth of a value: how far [buildEquals] can descend. *)
Fixpoint depth (v : value) : nat :=
  match v with
  | VArr items => S (list_max (map depth items))
  | VObj fs => S (list_max (map (fun kv => depth (snd kv)) fs))
  | _ => 0
  end.

(** Modelled from the spec: [helpers.clone] (util/helpers is not among the
    sources), a "deep copy".  On tree values a deep copy is the tree
    itself; what the copy means for sharing is the subject of the module
    [Heap] below. *)
Definition clone (v : value) : value := v.

(** ** The resolver: [create (stubs, proxy, callbackURL)] *)

Section Resolver.

Context `{Collaborators}.

(** The protocol's in-process proxy implementation, when there is one,
    and the callback URL for out-of-process resolution. *)
Variable proxy : option Transport.
Variable callbackURL : string.

Definition inProcessProxy : bool :=
  match proxy with Some _ => true | None => false end.

(** *** Dynamic responses *)

Definition inject (request fn imposterState : value) : M Promise :=
  let config := clone request in
  let injected :=
    "(" ++ toText fn ++
    ")(config, injectState, logger, deferred.resolve, imposterState);" in
  let* isDryRun := lift (get request "isDryRun") in
  if isTrue isDryRun then
    (* Q.delay(1).then(() => { deferred.resolve({}); }) *)
    ret (Settles 1 (Fulfils emptyObject))
  else
    exec evaluating injected in
    match evalInjection fn config imposterState with
    | Returned response => ret (Q response)
    | CalledBack response => ret (Q response)
    | Silent => ret Never
    | Raised fault =>
        exec logError "injection X=> " (VStr fault) in
        exec logError "    full source: " (VStr injected) in
        exec logError "    config: " config in
        ret (Q_reject (mkError InjectionError "invalid response injection"
                         (VStr injected) (VStr fault)))
    end.

(** *** Predicate generation *)

Definition xpathValue (xpathConfig possibleXML : value) : Completion value :=
  let! selector := get xpathConfig "selector" in
  let! ns := get xpathConfig "ns" in
  Return (selectionValue (xpath_select selector ns possibleXML)).

Definition jsonpathValue (jsonpathConfig possibleJSON : value)
  : Completion value :=
  let! selector := get jsonpathConfig "selector" in
  Return (selectionValue (jsonpath_select selector possibleJSON)).

(** The three closures [valueOf] can be bound to. *)
Variant Extraction : Type := Plain | ByXPath | ByJSONPath.

Definition valueOf (how : Extraction) (matcher field : value)
  : Completion value :=
  match how with
  | Plain => Return field
  | ByXPath => let! cfg := get matcher "xpath" in xpathValue cfg field
  | ByJSONPath => let! cfg := get matcher "jsonpath" in jsonpathValue cfg field
  end.

Fixpoint buildEqualsWithin (fuel : nat) (valueOf : value -> Completion value)
  (request matchers : value) : Completion value :=
  let! ks := keys matchers in
  foldC (fun result key =>
           let! field := get request key in
           if isObject field then
             match fuel with
             | O => typeError "too much recursion"
             | S fuel' =>
                 let! sub := get matchers key in
                 let! equals := buildEqualsWithin fuel' valueOf field sub in
                 set result key equals
             end
           else
             let! v := valueOf field in
             set result key v)
        ks emptyObject.

(** The recursion descends into [request], one level per call. *)
Definition buildEquals (request matchers : value)
  (valueOf : value -> Completion value) : Completion value :=
  buildEqualsWithin (depth request) valueOf request matchers.

(** One turn of [Object.keys(matcher).forEach]: the parameters copied to
    the base predicate, and the extraction the last selector key chose. *)
Definition addParameter (matcher : value) (acc : value * Extraction)
  (key : string) : Completion (value * Extraction) :=
  let! basePredicate :=
    if negb (String.eqb key "matches")
    then let! v := get matcher key in set (fst acc) key v
    else Return (fst acc) in
  Return (basePredicate,
          if String.eqb key "xpath" then ByXPath
          else if String.eqb key "jsonpath" then ByJSONPath
          else snd acc).

(** One turn of [Object.keys(matcher.matches).forEach]. *)
Definition predicateFor (request matcher basePredicate : value)
  (how : Extraction) (fieldName : string) : Completion value :=
  let! matches := get matcher "matches" in
  let! matcherValue := get matches fieldName in
  let predicate := clone basePredicate in
  let! field := get request fieldName in
  if isTrue matcherValue then
    let! v := valueOf how matcher field in
    let! deepEquals := set emptyObject fieldName v in
    set predicate "deepEquals" deepEquals
  else
    let! e := buildEquals field matcherValue (valueOf how matcher) in
    let! equals := set emptyObject fieldName e in
    set predicate "equals" equals.

(** One turn of [matchers.forEach]: the predicates it pushes. *)
Definition generated (request matcher : value) : M (list value) :=
  let* injection := lift (get matcher "inject") in
  if truthy injection then
    let injected := "(" ++ toText injection ++ ")(config);" in
    exec evaluating injected in
    match evalPredicateGenerator injection request with
    | inr pushed => ret pushed
    | inl fault =>
        exec logError "injection X=> " (VStr fault) in
        exec logError "    source: " (VStr injected) in
        exec logError "    request: " request in
        raise (mkError InjectionError "invalid predicateGenerator injection"
                 (VStr injected) (VStr fault))
    end
  else
    lift (let! ks := keys matcher in
          let! parameters := foldC (addParameter matcher) ks (emptyObject, Plain) in
          let! matches := get matcher "matches" in
          let! fieldNames := keys matches in
          mapC (predicateFor request matcher (fst parameters) (snd parameters))
               fieldNames).

Definition predicatesFor (request matchers : value) : M (list value) :=
  let* ms := lift (elements matchers) in
  foldM (fun predicates matcher =>
           let* pushed := generated request matcher in
           ret (predicates ++ pushed)%list)
        ms [].

(** *** Deep equality and the scans of the repository *)

Definition deepEqual (obj1 obj2 : value) : bool :=
  match stringify obj1, stringify obj2 with
  | Some s1, Some s2 => String.eqb s1 s2
  | None, None => true
  | _, _ => false
  end.

(** The loop of [stubIndexFor] over a stub list: the index of the first
    stub holding a response deep-equal to the config, else the length. *)
Fixpoint firstHolding (responseConfig : value) (stubList : list Stub) : nat :=
  match stubList with
  | [] => 0
  | stub :: rest =>
      if existsb (fun response => deepEqual response responseConfig)
           (responses stub)
      then 0
      else S (firstHolding responseConfig rest)
  end.

Definition stubIndexFor (responseConfig : value) : M nat :=
  let* stubList := reads stubs in
  ret (firstHolding responseConfig stubList).

(** The loop of [indexOfStubToAddResponseTo], from [index] on. *)
Fixpoint firstWith (wanted : value) (index : nat) (candidates : list Stub)
  : Z :=
  match candidates with
  | [] => (-1)%Z
  | stub :: rest =>
      if deepEqual wanted (predicates stub)
      then Z.of_nat index
      else firstWith wanted (S index) rest
  end.

Definition indexOfStubToAddResponseTo (responseConfig request : value) : M Z :=
  let* proxyConfig := lift (get responseConfig "proxy") in
  let* generators := lift (get proxyConfig "predicateGenerators") in
  let* predicates := predicatesFor request (js_or generators (VArr [])) in
  let* stubList := reads stubs in
  let* origin := stubIndexFor responseConfig in
  ret (firstWith (VArr predicates) (origin + 1) (drop (origin + 1) stubList)).

Definition canAddResponseToExistingStub (responseConfig request : value)
  : M bool :=
  let* index := indexOfStubToAddResponseTo responseConfig request in
  ret (0 <=? index)%Z.

(** *** The rule repository's operations *)

(** Modelled from the spec: the repository's [addStub] (the repository is
    handed to [create] and is not among the sources).  With the
    originating config named, "insert a new rule immediately after" the
    rule that holds it; handed the rule alone, the repository has no rule
    to insert after and the new rule joins the ordered sequence at its
    end. *)
Definition addStub (stub : Stub) (beforeResponse : option value)
  (stubList : list Stub) : list Stub :=
  match beforeResponse with
  | Some responseConfig =>
      let index := firstHolding responseConfig stubList in
      take (S index) stubList ++ stub :: drop (S index) stubList
  | None => stubList ++ [stub]
  end.

(** Modelled from the spec: a stub's [addResponse] (not among the
    sources): "append a response to the response list of the rule at
    index i". *)
Definition addResponse (index : nat) (response : value)
  (stubList : list Stub) : list Stub :=
  alter (fun stub => mkStub (predicates stub) (responses stub ++ [response]))
        index stubList.

(** Each key of the metadata written into the config's section of the
    given type. *)
Definition withMetadata (responseConfig : value) (responseType : string)
  (metadata : value) : Completion value :=
  let! section := get responseConfig responseType in
  let! ks := keys metadata in
  let! section' :=
    foldC (fun acc key => let! v := get metadata key in set acc key v)
          ks section in
  set responseConfig responseType section'.

(** The first response deep-equal to the config gives way to the
    rewritten config. *)
Fixpoint rewriteFirst (responseConfig rewritten : value)
  (responseList : list value) : list value :=
  match responseList with
  | [] => []
  | response :: rest =>
      if deepEqual response responseConfig
      then rewritten :: rest
      else response :: rewriteFirst responseConfig rewritten rest
  end.

(** The repository after a config it holds was rewritten: the config is
    looked for the way [stubIndexFor] does. *)
Definition rewriteStored (responseConfig rewritten : value)
  (stubList : list Stub) : list Stub :=
  alter (fun stub =>
           mkStub (predicates stub)
                  (rewriteFirst responseConfig rewritten (responses stub)))
        (firstHolding responseConfig stubList) stubList.

(** Modelled from the spec: the [setMetadata] the repository attaches to
    the config it hands out (not among the sources).  The spec has the
    config "owned by the Rule it belongs to" and "mutated only through
    explicit mutation operations": each key of the metadata is written
    into the config's section of that type, and since the config is the
    rule's own, the rule that holds it holds the rewritten config
    afterwards. *)
Definition setMetadata (responseConfig : value) (responseType : string)
  (metadata : value) : M value :=
  let* rewritten :=
    lift (withMetadata responseConfig responseType metadata) in
  exec modify (fun w =>
         withStubs w (rewriteStored responseConfig rewritten (stubs w))) in
  ret rewritten.

(** *** Recording a proxied exchange *)

Definition newIsResponse (response proxyConfig : value) : Completion value :=
  let result := VObj [("is", response)] in
  let addBehaviors := emptyObject in
  let! addWaitBehavior := get proxyConfig "addWaitBehavior" in
  let! addBehaviors :=
    if truthy addWaitBehavior then
      let! proxyResponseTime := get response "_proxyResponseTime" in
      if truthy proxyResponseTime
      then set addBehaviors "wait" proxyResponseTime
      else Return addBehaviors
    else Return addBehaviors in
  let! addDecorateBehavior := get proxyConfig "addDecorateBehavior" in
  let! addBehaviors :=
    if truthy addDecorateBehavior
    then set addBehaviors "decorate" addDecorateBehavior
    else Return addBehaviors in
  let! ks := keys addBehaviors in
  if (0 <? length ks)%nat
  then set result "_behaviors" addBehaviors
  else Return result.

Definition addNewResponse (responseConfig request response : value) : M unit :=
  let* proxyConfig := lift (get responseConfig "proxy") in
  let* stubResponse := lift (newIsResponse response proxyConfig) in
  let* responseIndex := indexOfStubToAddResponseTo responseConfig request in
  let* stubList := reads stubs in
  if (0 <=? responseIndex)%Z && (Z.to_nat responseIndex <? length stubList)%nat
  then modify (fun w =>
         withStubs w (addResponse (Z.to_nat responseIndex) stubResponse (stubs w)))
  else raise (mkError TypeError "Cannot read properties of undefined"
                VUndefined VUndefined).

Definition addNewStub (responseConfig request response : value) : M unit :=
  let* proxyConfig := lift (get responseConfig "proxy") in
  let* generators := lift (get proxyConfig "predicateGenerators") in
  let* predicates := predicatesFor request (js_or generators (VArr [])) in
  let* stubResponse := lift (newIsResponse response proxyConfig) in
  let newStub := mkStub (VArr predicates) [stubResponse] in
  let* mode := lift (get proxyConfig "mode") in
  if isString "proxyAlways" mode
  then modify (fun w => withStubs w (addStub newStub None (stubs w)))
  else modify (fun w =>
         withStubs w (addStub newStub (Some responseConfig) (stubs w))).

Definition recordProxyResponse (responseConfig request response : value)
  : M unit :=
  let* proxyConfig := lift (get responseConfig "proxy") in
  let* mode := lift (get proxyConfig "mode") in
  if isString "proxyTransparent" mode then ret tt
  else
    let* extend :=
      if isString "proxyAlways" mode
      then canAddResponseToExistingStub responseConfig request
      else ret false in
    if extend
    then addNewResponse responseConfig request response
    else addNewStub responseConfig request response.

(** *** Proxying *)

(** [['proxyOnce', 'proxyAlways', 'proxyTransparent'].indexOf(mode) >= 0] *)
Definition knownMode (mode : value) : bool :=
  isString "proxyOnce" mode || isString "proxyAlways" mode
  || isString "proxyTransparent" mode.

(** What a call leaves behind for its caller: the config object, which
    the call may have written to, and the promise it returns. *)
Record Resolution : Type := mkResolution {
  configAfter : value;
  promise : Promise
}.

Definition proxyAndRecord (responseConfig request requestDetails : value)
  : M Resolution :=
  let* startTime := reads clock in
  let* proxyConfig := lift (get responseConfig "proxy") in
  let* mode := lift (get proxyConfig "mode") in
  let* responseConfig :=
    if negb (knownMode mode)
    then setMetadata responseConfig "proxy"
           (VObj [("mode", VStr "proxyOnce")])
    else ret responseConfig in
  let* proxyConfig := lift (get responseConfig "proxy") in
  match proxy with
  | Some transport =>
      let* to := lift (get proxyConfig "to") in
      let answer := transport to request proxyConfig requestDetails in
      exec modify (fun w => withClock w (clock w + fst answer)%Z) in
      let* decorated :=
        andThen (snd answer) (fun response =>
          let* now := reads clock in
          let* response :=
            lift (set response "_proxyResponseTime" (VNum (now - startTime))) in
          let* behaviors := lift (get responseConfig "_behaviors") in
          ret (behaviors_execute request response behaviors)) in
      let* recorded :=
        andThen decorated (fun response =>
          exec recordProxyResponse responseConfig request response in
          ret (Q response)) in
      ret (mkResolution responseConfig recorded)
  | None =>
      let* key := reads nextProxyResolutionKey in
      let* now := reads clock in
      exec modify (fun w =>
             withPending w
               (<[key := mkPending responseConfig request now requestDetails]>
                  (pendingProxyResolutions w))
               (key + 1)) in
      let* next := reads nextProxyResolutionKey in
      ret (mkResolution responseConfig
             (Q (VObj [("proxy", proxyConfig);
                       ("request", request);
                       ("callbackURL",
                        VStr (callbackURL ++ "/" ++ decimal (next - 1)))])))
  end.

(** *** Dispatch *)

Definition processResponse
  (responseConfig request imposterState requestDetails : value)
  : M Resolution :=
  let* payload := lift (get responseConfig "is") in
  if truthy payload then
    (* Clone to prevent accidental state changes downstream *)
    ret (mkResolution responseConfig (Q (clone payload)))
  else
    let* proxyConfig := lift (get responseConfig "proxy") in
    if truthy proxyConfig then
      proxyAndRecord responseConfig request requestDetails
    else
      let* fn := lift (get responseConfig "inject") in
      if truthy fn then
        let* injected := inject request fn imposterState in
        let* forwarded := andThen injected (fun response => ret (Q response)) in
        ret (mkResolution responseConfig forwarded)
      else
        ret (mkResolution responseConfig
               (Q_reject (mkError ValidationError "unrecognized response type"
                            (clone responseConfig) VUndefined))).

Definition hasMultipleTypes (responseConfig : value) : Completion value :=
  let! payload := get responseConfig "is" in
  let! proxyConfig := get responseConfig "proxy" in
  let! fn := get responseConfig "inject" in
  Return (js_or (js_or (js_and payload proxyConfig) (js_and payload fn))
                (js_and proxyConfig fn)).

Definition resolve (responseConfig request imposterState options : value)
  : M Resolution :=
  let* multiple := lift (hasMultipleTypes responseConfig) in
  if truthy multiple then
    ret (mkResolution responseConfig
           (Q_reject (mkError ValidationError
                        "each response object must have only one response type"
                        responseConfig VUndefined)))
  else
    let* processed :=
      processResponse responseConfig (clone request) imposterState options in
    let responseConfig := configAfter processed in
    let* behaved :=
      andThen (promise processed) (fun response =>
        let* proxyConfig := lift (get responseConfig "proxy") in
        if truthy proxyConfig then ret (Q response)
        else
          let* behaviors := lift (get responseConfig "_behaviors") in
          ret (behaviors_execute request response behaviors)) in
    let* wrapped :=
      andThen behaved (fun response =>
        if inProcessProxy then ret (Q response)
        else
          let* proxyConfig := lift (get responseConfig "proxy") in
          if truthy proxyConfig then ret (Q response)
          else ret (Q (VObj [("response", response)]))) in
    ret (mkResolution responseConfig wrapped).

(** The callback of [resolveProxy] on the decorated response. *)
Definition thenRecord (responseConfig request : value)
  (proxyResolutionKey : string) (response : value) : M Promise :=
  exec recordProxyResponse responseConfig request response in
  let* response :=
    lift (set response "recordMatch" (VFunction "recordMatch")) in
  exec modify (fun w =>
         withPending w
           (deleteAt proxyResolutionKey (pendingProxyResolutions w))
           (nextProxyResolutionKey w)) in
  ret (Q response).

(** The second call of the out-of-process handshake.  The key is the
    property name it is looked up under: the segment of the callback URL
    as the controller hands it over, or the numeral of a number. *)
Definition resolveProxy (proxyResponse : value) (proxyResolutionKey : string)
  : M Promise :=
  let* pending := reads pendingProxyResolutions in
  match pendingAt pending proxyResolutionKey with
  | Own pendingProxyConfig =>
      let* now := reads clock in
      let* proxyResponse :=
        lift (set proxyResponse "_proxyResponseTime"
                (VNum (now - startTime pendingProxyConfig))) in
      let* behaviors :=
        lift (get (responseConfig pendingProxyConfig) "_behaviors") in
      andThen
        (behaviors_execute (request pendingProxyConfig) proxyResponse behaviors)
        (thenRecord (responseConfig pendingProxyConfig)
           (request pendingProxyConfig) proxyResolutionKey)
  | Inherited member =>
      (* [if (pendingProxyConfig)] passes: the member is truthy.  It has
         none of the properties of a pending resolution, and reading
         [_behaviors] of its [responseConfig] raises. *)
      let* proxyResponse :=
        lift (set proxyResponse "_proxyResponseTime" notANumber) in
      let* request := lift (get member "request") in
      let* responseConfig := lift (get member "responseConfig") in
      let* behaviors := lift (get responseConfig "_behaviors") in
      andThen (behaviors_execute request proxyResponse behaviors)
        (thenRecord responseConfig request proxyResolutionKey)
  | Missing =>
      exec logError
             ("Invalid proxy resolution key: " ++ proxyResolutionKey)
             VUndefined in
      ret (Q_reject (mkError MissingResourceError "invalid proxy resolution key"
                       (VStr (callbackURL ++ "/" ++ proxyResolutionKey))
                       VUndefined))
  end.

End Resolver.

(** ** Notions the statements use *)

(** A response type is set on a config when its property is truthy, which
    is how [hasMultipleTypes] and [processResponse] test it. *)
Definition isSet (responseConfig : value) (responseType : string) : bool :=
  match get responseConfig responseType with
  | Return v => truthy v
  | Throw _ => false
  end.

(** How many of [is], [proxy] and [inject] are set. *)
Definition typesSet (responseConfig : value) : nat :=
  Nat.b2n (isSet responseConfig "is") + Nat.b2n (isSet responseConfig "proxy")
  + Nat.b2n (isSet responseConfig "inject").



(** The pending resolutions and the key counter are the same. *)
Definition sameKeys (w w' : World) : Prop :=
  pendingProxyResolutions w' = pendingProxyResolutions w /\
  nextProxyResolutionKey w' = nextProxyResolutionKey w.

(** The world after [m] is related by [R] to the world before. *)
Definition keeps {A : Type} (R : World -> World -> Prop) (m : M A) : Prop :=
  forall w : World, R w (snd (m w)).

(** A computation whose completion does not depend on the world. *)
Definition oblivious {A : Type} (m : M A) : Prop :=
  forall w w' : World, fst (m w) = fst (m w').

(** What [resolve] makes of the promise of the dispatch when the config
    has no proxy section: the behavior pipeline, then the [{ response }]
    wrapper unless the resolver has an in-process proxy. *)
Definition afterwards `{Collaborators} (proxy : option Transport)
  (behaviors request : value) (p : Promise) : Promise :=
  match p with
  | Settles d (Fulfils v) =>
      match behaviors_execute request v behaviors with
      | Settles d' (Fulfils v') =>
          Settles (d + d')
            (Fulfils (if inProcessProxy proxy then v'
                      else VObj [("response", v')]))
      | Settles d' (Rejects e) => Settles (d + d') (Rejects e)
      | Never => Never
      end
  | _ => p
  end.

(** A computation that leaves the repository as it was whenever it
    raises. *)
Definition allOrNothing {A : Type} (m : M A) : Prop :=
  forall (w w' : World) (e : Error), m w = (Throw e, w') -> stubs w' = stubs w.

(** The repository after the computation is the repository before. *)
Definition sameStubs (w w' : World) : Prop := stubs w' = stubs w.

(** A config that [proxyAndRecord] takes as it is: its proxy section, if
    it has one, names one of the three modes.  (Any other config is first
    rewritten through its [setMetadata].) *)
Definition modeGiven (responseConfig : value) : bool :=
  match get responseConfig "proxy" with
  | Return proxyConfig =>
      if truthy proxyConfig then
        match get proxyConfig "mode" with
        | Return mode => knownMode mode
        | Throw _ => true
        end
      else true
  | Throw _ => true
  end.

(** A computation whose completion and whose effect on the repository
    depend on the repository alone. *)
Definition stubsOnly {A : Type} (m : M A) : Prop :=
  forall w w' : World,
    stubs w = stubs w' ->
    fst (m w) = fst (m w') /\ stubs (snd (m w)) = stubs (snd (m w')).



(** A completion that raises nothing but type errors. *)
Definition typeErrorsOnly {A : Type} (c : Completion A) : Prop :=
  forall e : Error, c = Throw e -> kind e = TypeError.

(** The life of a resolver: one call of [resolve] or [resolveProxy] at a
    time, with any arguments; between calls the clock moves and the
    owners of the rule repository may change it. *)
Section Life.

Context `{Collaborators}.
Variable proxy : option Transport.
Variable callbackURL : string.

Inductive step : World -> World -> Prop :=
| step_resolve (w : World)
    (responseConfig request imposterState options : value) :
    step w (snd (resolve proxy callbackURL responseConfig request
                   imposterState options w))
| step_resolveProxy (w : World) (proxyResponse : value)
    (proxyResolutionKey : string) :
    step w (snd (resolveProxy callbackURL proxyResponse proxyResolutionKey w))
| step_repository (w : World) (stubList : list Stub) :
    step w (withStubs w stubList)
| step_clock (w : World) (now : Z) :
    step w (withClock w now).

Definition reachable (w : World) : Prop :=
  exists (stubList : list Stub) (now : Z), rtc step (initial stubList now) w.

End Life.

(** ** A canonical serializer and a set of collaborators to run the model on *)

Definition doubleQuote : string := String (ascii_of_nat 34) EmptyString.

(** [JSON.stringify] of a string, for text without control characters. *)
Fixpoint escaped (s : string) : string :=
  match s with
  | EmptyString => EmptyString
  | String c rest =>
      (if Ascii.eqb c (ascii_of_nat 34) then "\" ++ doubleQuote
       else if Ascii.eqb c (ascii_of_nat 92) then "\\"
       else String c EmptyString) ++ escaped rest
  end.

Definition quoted (s : string) : string := doubleQuote ++ escaped s ++ doubleQuote.

(** Insertion into a list of members sorted by key. *)
Fixpoint insertByKey (member : string * option string)
  (sorted : list (string * option string)) : list (string * option string) :=
  match sorted with
  | [] => [member]
  | m :: rest =>
      if String.leb (fst m) (fst member)
      then m :: insertByKey member rest
      else member :: m :: rest
  end.

Definition sortByKey (members : list (string * option string))
  : list (string * option string) :=
  fold_left (fun sorted member => insertByKey member sorted) members [].

(** The members that serialize, each as ["key":value]. *)
Fixpoint written (members : list (string * option string)) : list string :=
  match members with
  | [] => []
  | (_, None) :: rest => written rest
  | (k, Some v) :: rest => (quoted k ++ ":" ++ v) :: written rest
  end.

(** The algorithm of json-stable-stringify on tree values: members in key
    order, members without a serialization left out, array holes written
    [null]. *)
Fixpoint stableStringify (node : value) : option string :=
  match node with
  | VUndefined | VFunction _ => None
  | VNull => Some "null"
  | VBool true => Some "true"
  | VBool false => Some "false"
  | VNum n => Some (NilZero.string_of_int (Z.to_int n))
  | VStr s => Some (quoted s)
  | VArr items =>
      Some ("[" ++ joinWith ","
                     (map (fun item => default "null" (stableStringify item))
                          items) ++ "]")
  | VObj fs =>
      Some ("{" ++ joinWith ","
                     (written
                        (sortByKey
                           (map (fun kv => (fst kv, stableStringify (snd kv)))
                                fs))) ++ "}")
  end.

(** Collaborators for running the model: the serializer above, selector
    engines that select nothing, a behavior pipeline that hands the
    response on as it is, a predicate generator logic that yields no
    predicate and a response logic that answers the request it was
    given. *)
Definition plainCollaborators : Collaborators := {|
  stringify := stableStringify;
  xpath_select := fun _ _ _ => VUndefined;
  jsonpath_select := fun _ _ => VUndefined;
  behaviors_execute := fun _ response _ => Q response;
  evalPredicateGenerator := fun _ _ => inr [];
  evalInjection := fun _ config _ => Returned config
|}.

(** Collaborators whose response logic always throws. *)
Definition faultyCollaborators : Collaborators := {|
  stringify := stableStringify;
  xpath_select := fun _ _ _ => VUndefined;
  jsonpath_select := fun _ _ => VUndefined;
  behaviors_execute := fun _ response _ => Q response;
  evalPredicateGenerator := fun _ _ => inr [];
  evalInjection := fun _ _ _ => Raised "boom"
|}.

(** An in-process transport that answers every request alike, in 7 ms. *)
Definition echoTransport : Transport :=
  fun _ request _ _ => (7%Z, Q (VObj [("echo", request)])).

(** ** Sample data *)

Definition sampleCallbackURL : string :=
  "http://localhost:2525/imposters/4545/_requests".

Definition sampleRequest : value :=
  VObj [("method", VStr "GET"); ("path", VStr "/orders")].

Definition dryRunRequest : value :=
  VObj [("method", VStr "GET"); ("path", VStr "/orders");
        ("isDryRun", VBool true)].

(** A proxy config that generates a predicate on the request path. *)
Definition originSection (mode : list (string * value))
  : list (string * value) :=
  ("to", VStr "http://origin.test") :: mode ++
  [("predicateGenerators",
    VArr [VObj [("matches", VObj [("path", VBool true)])]])].

Definition originConfig (mode : list (string * value)) : value :=
  VObj [("proxy", VObj (originSection mode))].

Definition inMode (mode : string) : list (string * value) :=
  [("mode", VStr mode)].

Definition originStub (mode : list (string * value)) : Stub :=
  mkStub (VArr []) [originConfig mode].

Definition healthStub : Stub :=
  mkStub (VArr [VObj [("equals", VObj [("path", VStr "/health")])]])
         [VObj [("is", VObj [("statusCode", VNum 200)])]].

Definition sampleWorld (mode : list (string * value)) : World :=
  initial [originStub mode; healthStub] 1000.

Definition observed (body : string) : value :=
  VObj [("statusCode", VNum 200); ("body", VStr body)].

Definition pathPredicates : list value :=
  [VObj [("deepEquals", VObj [("path", VStr "/orders")])]].

Definition recordedStub (bodies : list string) : Stub :=
  mkStub (VArr pathPredicates)
         (map (fun body => VObj [("is", observed body)]) bodies).


(** A second origin in [proxyAlways] mode, and a repository that holds
    both origins. *)
Definition secondMode : list (string * value) :=
  [("mode", VStr "proxyAlways"); ("ciphers", VStr "ALL")].

Definition twoOrigins : World :=
  initial [originStub (inMode "proxyAlways"); originStub secondMode; healthStub]
          1000.

Definition mixedConfig : value :=
  VObj [("is", VObj [("statusCode", VNum 200)]);
        ("proxy", VObj [("to", VStr "http://origin.test")])].

Definition dynamicConfig : value :=
  VObj [("inject", VStr "function (config) { return { body: 'computed' }; }")].

(** An out-of-process resolver on the sample repository after one
    delegation, and after the completion of that delegation. *)
Definition delegatedWorld : World :=
  snd (resolve (H := plainCollaborators) None sampleCallbackURL
         (originConfig (inMode "proxyOnce")) sampleRequest emptyObject
         VUndefined (sampleWorld (inMode "proxyOnce"))).

Definition completedWorld : World :=
  snd (resolveProxy (H := plainCollaborators) sampleCallbackURL
         (observed "first") "0" delegatedWorld).

(** A proxy section that asks for the saved stub to wait. *)
Definition waitingMode : list (string * value) :=
  [("mode", VStr "proxyOnce"); ("addWaitBehavior", VBool true)].

(** A predicate generator with a nested matcher on the query, and a
    proxy config that uses it. *)
Definition queryGenerator : list (string * value) :=
  [("matches", VObj [("query", VObj [("q", VBool true)])])].

Definition queryConfig : value :=
  VObj [("proxy", VObj [("to", VStr "http://origin.test");
                        ("mode", VStr "proxyOnce");
                        ("predicateGenerators", VArr [VObj queryGenerator])])].


(** ** Objects by reference: the static branch over a store

    The tree values above cannot tell a copy from the original.  Here
    objects and arrays are cells of a store, a property holds a primitive
    or a reference to a cell, and mutation is a write to a cell. *)

Module Heap.

(** A location is the index of a cell in the store. *)
Abbreviation loc := nat.

(** What a variable or a property holds. *)
Variant word : Type :=
| HUndefined
| HNull
| HBool (b : bool)
| HNum (n : Z)
| HStr (s : string)
| HFunction (label : string)
| HRef (l : loc).

Variant cell : Type :=
| CObject (fields : list (string * word))
| CArray (items : list word).

(** Cells are allocated at the end of the store. *)
Abbreviation store := (list cell).

Definition children (c : cell) : list word :=
  match c with
  | CObject fs => map snd fs
  | CArray items => items
  end.

(** The tree a word stands for, when following its references ends within
    [fuel] steps (a cyclic structure has no tree, as it has no
    serialization). *)
Fixpoint tree (fuel : nat) (h : store) (x : word) : option value :=
  match x with
  | HUndefined => Some VUndefined
  | HNull => Some VNull
  | HBool b => Some (VBool b)
  | HNum n => Some (VNum n)
  | HStr s => Some (VStr s)
  | HFunction label => Some (VFunction label)
  | HRef l =>
      match fuel with
      | O => None
      | S fuel' =>
          match h !! l with
          | None => None
          | Some (CArray items) =>
              VArr <$> mapM (tree fuel' h) items
          | Some (CObject fs) =>
              VObj <$> mapM (fun kv => pair (fst kv) <$> tree fuel' h (snd kv)) fs
          end
      end
  end.

(** A word holds a tree when some number of steps reads it. *)
Definition holds (h : store) (x : word) (t : value) : Prop :=
  exists fuel, tree fuel h x = Some t.

(** Building a tree out of new cells only: the members first, one after
    the other, then the cell that holds them. *)
Section Members.

Variable one : value -> store -> store * word.

Fixpoint allocEach (items : list value) (h : store) : store * list word :=
  match items with
  | [] => (h, [])
  | item :: rest =>
      let first := one item h in
      let others := allocEach rest (fst first) in
      (fst others, snd first :: snd others)
  end.

Fixpoint allocFields (fs : list (string * value)) (h : store)
  : store * list (string * word) :=
  match fs with
  | [] => (h, [])
  | kv :: rest =>
      let first := one (snd kv) h in
      let others := allocFields rest (fst first) in
      (fst others, (fst kv, snd first) :: snd others)
  end.

End Members.

Fixpoint alloc (t : value) (h : store) {struct t} : store * word :=
  match t with
  | VUndefined => (h, HUndefined)
  | VNull => (h, HNull)
  | VBool b => (h, HBool b)
  | VNum n => (h, HNum n)
  | VStr s => (h, HStr s)
  | VFunction label => (h, HFunction label)
  | VArr items =>
      let built := allocEach alloc items h in
      ((fst built ++ [CArray (snd built)])%list, HRef (length (fst built)))
  | VObj fs =>
      let built := allocFields alloc fs h in
      ((fst built ++ [CObject (snd built)])%list, HRef (length (fst built)))
  end.

(** Modelled from the spec: [helpers.clone] (util/helpers is not among the
    sources), the "deep copy" of the static branch: the value is read as
    a tree and the tree is built anew. *)
Definition clone (fuel : nat) (h : store) (x : word) : option (store * word) :=
  match tree fuel h x with
  | Some t => Some (alloc t h)
  | None => None
  end.

Definition truthy (x : word) : bool :=
  match x with
  | HUndefined | HNull => false
  | HBool b => b
  | HNum n => negb (n =? 0)%Z
  | HStr s => negb (String.eqb s EmptyString)
  | HFunction _ | HRef _ => true
  end.

Fixpoint field (k : string) (fs : list (string * word)) : word :=
  match fs with
  | [] => HUndefined
  | (k', x) :: rest => if String.eqb k k' then x else field k rest
  end.

(** [responseConfig.is] *)
Definition payloadOf (h : store) (responseConfig : word) : option word :=
  match responseConfig with
  | HRef l =>
      match h !! l with
      | Some (CObject fs) => Some (field "is" fs)
      | _ => None
      end
  | _ => None
  end.

(** The static branch of [processResponse]: [Q(helpers.clone
    (responseConfig.is))], the store after it and the word it returns.
    [None] when the config is no static one or the payload has no tree
    within [fuel]. *)
Definition processResponse (fuel : nat) (h : store) (responseConfig : word)
  : option (store * word) :=
  match payloadOf h responseConfig with
  | Some payload => if truthy payload then clone fuel h payload else None
  | None => None
  end.

(** The cells a word leads to. *)
Inductive reaches (h : store) : word -> loc -> Prop :=
| reaches_cell (l : loc) : reaches h (HRef l) l
| reaches_child (l l' : loc) (c : cell) (x : word) :
    h !! l = Some c -> In x (children c) -> reaches h x l' ->
    reaches h (HRef l) l'.

(** [o[k] = x] on the cell at [l]. *)
Fixpoint setField (k : string) (x : word) (fs : list (string * word))
  : list (string * word) :=
  match fs with
  | [] => [(k, x)]
  | (k', x') :: rest =>
      if String.eqb k k' then (k, x) :: rest else (k', x') :: setField k x rest
  end.

Definition write (h : store) (l : loc) (k : string) (x : word) : store :=
  alter (fun c => match c with
                  | CObject fs => CObject (setField k x fs)
                  | CArray items => CArray items
                  end) l h.

(** Two stores hold the same cells below [n]. *)
Definition agree (n : nat) (h h' : store) : Prop :=
  forall l : loc, l < n -> h' !! l = h !! l.

(** A word, a cell that refer to cells from [n] on only. *)
Definition above (n : nat) (x : word) : Prop :=
  match x with HRef l => n <= l | _ => True end.

Definition cellAbove (n : nat) (c : cell) : Prop :=
  Forall (above n) (children c).

(** What building a tree yields: the store grows by cells that refer to
    new cells only, the word refers to a new cell if to any, and it reads
    back as the tree. *)
Definition built (t : value) (h : store) (r : store * word) : Prop :=
  exists new : store,
    fst r = (h ++ new)%list
    /\ Forall (cellAbove (length h)) new
    /\ above (length h) (snd r)
    /\ forall fuel, depth t <= fuel -> tree fuel (fst r) (snd r) = Some t.

(** A store with one static config, [{ is: { statusCode: 200, headers:
    { Server: "stub" } } }]. *)
Definition sampleStore : store :=
  [ CObject [("Server", HStr "stub")];
    CObject [("statusCode", HNum 200); ("headers", HRef 0)];
    CObject [("is", HRef 1)] ].

Definition sampleTree : value :=
  VObj [("statusCode", VNum 200); ("headers", VObj [("Server", VStr "stub")])].

End Heap.

(** ** The imposter controller

    A shallow embedding of [controllers/imposterController] (the file that
    exports [create], returning [{ get, del, resetProxies, postRequest,
    postProxyResponse, putStubs, putStub, postStub, deleteStub }]).  The
    controller is handed the map of imposters and the logger and, with
    each call, the HTTP request and response of the web framework; what
    it does to them is explicit state. *)

Module Controller.

(** [s.toLowerCase()], on the letters A to Z.  (Outside ASCII the
    conversion of JavaScript changes other characters too, none of them
    into a letter of ['true'].) *)
Definition lowerChar (c : ascii) : ascii :=
  let n := nat_of_ascii c in
  if (65 <=? n)%nat && (n <=? 90)%nat then ascii_of_nat (n + 32) else c.

Fixpoint lower (s : string) : string :=
  match s with
  | EmptyString => EmptyString
  | String c rest => String (lowerChar c) (lower rest)
  end.

(** [v.toLowerCase()]: only a string has the method. *)
Definition toLowerCase (v : value) : Completion value :=
  match v with
  | VStr s => Return (VStr (lower s))
  | VUndefined | VNull => typeError "Cannot read properties of undefined or null"
  | _ => typeError "toLowerCase is not a function"
  end.

(** [typeof v === 'number'] *)
Definition isNumber (v : value) : bool :=
  match v with VNum _ => true | _ => false end.

(** An own element of an array, by property name. *)
Fixpoint element (k : string) (i : nat) (items : list value) : option value :=
  match items with
  | [] => None
  | x :: rest =>
      if String.eqb k (decimal (N.of_nat i)) then Some x
      else element k (S i) rest
  end.

(** What is sent as the body of the HTTP response: a JSON value, or
    [{ errors }] with the errors the controller raised or with those the
    validator reported. *)
Variant Body : Type :=
| Json (v : value)
| Errors (validationErrors : list Error)
| ErrorsOf (validationErrors : value).

(** What was done to the HTTP response: [send], [render], and the
    framework's own refusal when [format] finds no acceptable type. *)
Variant Event : Type :=
| Sent (body : Body)
| Rendered (view : string) (imposter : value)
| NotAcceptable.

(** The content type [response.format] settles on for a request. *)
Variant Format : Type := AsJson | AsHtml | AsNothing.

(** ** The collaborators

    An imposter is known to the controller by its methods only; [I] is
    the state of one.  The framework, the [url] module and the callees
    of [validate] (models/compatibility, models/dryRunValidator, the
    protocol implementations) are no part of the controller either. *)
Class Imposter (I : Type) : Type := {
  (** [imposter.toJSON(options)] *)
  toJSON : I -> value -> value;
  (** [imposter.stop()] *)
  stop : I -> Promise * I;
  (** [imposter.resetProxies()] *)
  reset : I -> I;
  (** [imposter.getResponseFor(request)] *)
  getResponseFor : I -> value -> Promise * I;
  (** [imposter.getProxyResponseFor(proxyResponse, proxyResolutionKey)] *)
  getProxyResponseFor : I -> value -> value -> Promise * I;
  (** [imposter.stubs()] *)
  stubsOf : I -> list value;
  (** [imposter.overwriteStubs(newStubs)] *)
  overwriteStubs : I -> value -> I;
  (** [imposter.overwriteStubAtIndex(index, newStub)] *)
  overwriteStubAtIndex : I -> value -> value -> I;
  (** [imposter.addStubAtIndex(index, newStub)] *)
  addStubAtIndex : I -> value -> value -> I;
  (** [imposter.deleteStubAtIndex(index)] *)
  deleteStubAtIndex : I -> value -> I;
  (** What [validate(imposter, newStubs)] comes to: the promise of the
      dry-run validator's [{ isValid, errors }] for a copy of the
      imposter with the new stubs in place, or the fault raised on the
      way to it. *)
  validation : I -> value -> Completion Promise;
  (** [url.parse(url, true).query] *)
  parseQuery : value -> Completion value;
  (** the type [response.format] picks for the request *)
  accepted : value -> Format;
  (** the names an array answers through its prototype *)
  inherited : string -> bool
}.

Section Create.

Context {I : Type} `{Imposter I}.

(** The controller's view of the server: the map of imposters it was
    created with, the HTTP response at hand and what the logger's
    [error] was called with. *)
Record Service : Type := mkService {
  imposters : gmap string I;
  statusCode : Z;
  events : list Event;
  errorLog : list (string * Body)
}.

Definition withImposters (s : Service) (m : gmap string I) : Service :=
  mkService m (statusCode s) (events s) (errorLog s).

Definition withStatusCode (s : Service) (code : Z) : Service :=
  mkService (imposters s) code (events s) (errorLog s).

Definition withEvents (s : Service) (l : list Event) : Service :=
  mkService (imposters s) (statusCode s) l (errorLog s).

Definition withErrorLog (s : Service) (l : list (string * Body)) : Service :=
  mkService (imposters s) (statusCode s) (events s) l.

(** The monad of the controller's code. *)
Definition C (A : Type) : Type := Service -> Completion A * Service.

Definition answer {A : Type} (a : A) : C A := fun s => (Return a, s).

Definition failing {A : Type} (e : Error) : C A := fun s => (Throw e, s).

Definition next {A B : Type} (m : C A) (k : A -> C B) : C B :=
  fun s =>
    match m s with
    | (Return a, s') => k a s'
    | (Throw e, s') => (Throw e, s')
    end.

Definition evaluate {A : Type} (c : Completion A) : C A := fun s => (c, s).

Definition looks {A : Type} (f : Service -> A) : C A :=
  fun s => (Return (f s), s).

Definition updates (f : Service -> Service) : C unit :=
  fun s => (Return tt, f s).

Declare Scope controller_scope.
Delimit Scope controller_scope with controller.
#[local] Notation "'let*' x ':=' m 'in' k" := (next m (fun x => k))
  (at level 10, x name, m at level 100, k at level 200) : controller_scope.
#[local] Notation "'exec' m 'in' k" := (next m (fun _ => k))
  (at level 10, m at level 100, k at level 200) : controller_scope.
#[local] Open Scope controller_scope.

(** [promise.then(callback)] and [promise.done(callback)]: the callback
    runs on the fulfilment value; a fault it raises rejects the promise
    that [then] returns. *)
Definition thenC (p : Promise) (callback : value -> C Promise) : C Promise :=
  match p with
  | Settles d (Fulfils v) =>
      fun s =>
        match callback v s with
        | (Return (Settles d' outcome), s') =>
            (Return (Settles (d + d') outcome), s')
        | (Return Never, s') => (Return Never, s')
        | (Throw e, s') => (Return (Settles d (Rejects e)), s')
        end
  | Settles d (Rejects e) => answer p
  | Never => answer Never
  end.

(** [response.send(body)], [response.render(view, { imposter })] *)
Definition send (body : Body) : C unit :=
  updates (fun s => withEvents s (events s ++ [Sent body])%list).

Definition render (view : string) (imposter : value) : C unit :=
  updates (fun s => withEvents s (events s ++ [Rendered view imposter])%list).

(** [imposters[id]], which on a plain object answers the members of
    [Object.prototype] too; [imposters[id] = imposter] for an imposter
    the call has changed, and [delete imposters[id]] *)
Definition imposterAt (id : value) : C (Property I) :=
  looks (fun s => property (imposters s !! toText id) (toText id)).

Definition keep (id : value) (imposter : I) : C unit :=
  updates (fun s => withImposters s (<[toText id := imposter]> (imposters s))).

Definition forget (id : value) : C unit :=
  updates (fun s => withImposters s (delete (toText id) (imposters s))).

(** [request.params[name]] *)
Definition param (request : value) (name : string) : Completion value :=
  let! params := get request "params" in
  get params name.

Definition queryBoolean (query : value) (key : string) : Completion bool :=
  let! v := get query key in
  if negb (defined v) then Return false
  else
    let! lowered := toLowerCase v in
    Return (isString "true" lowered).

(** [{ replayable: queryBoolean(query, 'replayable'),
       removeProxies: queryBoolean(query, 'removeProxies') }] *)
Definition optionsOf (request : value) : Completion value :=
  let! url := get request "url" in
  let! query := parseQuery url in
  let! replayable := queryBoolean query "replayable" in
  let! removeProxies := queryBoolean query "removeProxies" in
  Return (VObj [("replayable", VBool replayable);
                ("removeProxies", VBool removeProxies)]).

(** The [response.format({ json, html })] that [get] and [resetProxies]
    share. *)
Definition format (request imposter : value) : C unit :=
  match accepted request with
  | AsJson => send (Json imposter)
  | AsHtml =>
      let* headers := evaluate (get request "headers") in
      let* requestedWith := evaluate (get headers "x-requested-with") in
      if truthy requestedWith
      then render "_imposter" imposter
      else render "imposter" imposter
  | AsNothing => updates (fun s => withEvents s (events s ++ [NotAcceptable])%list)
  end.

(** [imposter.method(...)] on [imposters[id]], which may be [undefined]
    or a member of [Object.prototype], which has none of the methods of
    an imposter. *)
Definition method (imposter : Property I) : C I :=
  match imposter with
  | Own imposter => answer imposter
  | Inherited _ => failing (mkError TypeError "imposter.method is not a function"
                              VUndefined VUndefined)
  | Missing => failing (mkError TypeError "Cannot read properties of undefined"
                          VUndefined VUndefined)
  end.

Definition resetProxies (request : value) : C Promise :=
  let options := VObj [("replayable", VBool false);
                       ("removeProxies", VBool false)] in
  let* id := evaluate (param request "id") in
  let* imposter := imposterAt id in
  match imposter with
  | Missing =>
      exec send (Json emptyObject) in
      answer (Q (VBool true))
  | _ =>
      (* if (imposter) *)
      let* imposter := method imposter in
      let imposter := reset imposter in
      exec keep id imposter in
      exec format request (toJSON imposter options) in
      answer (Q (VBool true))
  end.

Definition del (request : value) : C Promise :=
  let* id := evaluate (param request "id") in
  let* imposter := imposterAt id in
  let* options := evaluate (optionsOf request) in
  match imposter with
  | Missing =>
      exec send (Json emptyObject) in
      answer (Q (VBool true))
  | _ =>
      (* if (imposter) *)
      let* imposter := method imposter in
      let json := toJSON imposter options in
      let stopping := stop imposter in
      exec keep id (snd stopping) in
      thenC (fst stopping) (fun _ =>
        let* id := evaluate (param request "id") in
        exec forget id in
        exec send (Json json) in
        answer (Q VUndefined))
  end.

(** [promise.done(callback)] sends the response the promise is fulfilled
    with; a rejection is left to the promise library. *)
Definition postRequest (request : value) : C unit :=
  let* id := evaluate (param request "id") in
  let* imposter := imposterAt id in
  let* body := evaluate (get request "body") in
  let* protoRequest := evaluate (get body "request") in
  let* imposter := method imposter in
  let responding := getResponseFor imposter protoRequest in
  exec keep id (snd responding) in
  exec thenC (fst responding) (fun protoResponse =>
         exec send (Json protoResponse) in
         answer (Q VUndefined)) in
  answer tt.

Definition postProxyResponse (request : value) : C unit :=
  let* id := evaluate (param request "id") in
  let* imposter := imposterAt id in
  let* proxyResolutionKey := evaluate (param request "proxyResolutionKey") in
  let* body := evaluate (get request "body") in
  let* proxyResponse := evaluate (get body "proxyResponse") in
  let* imposter := method imposter in
  let responding :=
    getProxyResponseFor imposter proxyResponse proxyResolutionKey in
  exec keep id (snd responding) in
  exec thenC (fst responding) (fun protoResponse =>
         exec send (Json protoResponse) in
         answer (Q VUndefined)) in
  answer tt.

(** The errors [validateStubs] pushes. *)
Definition validateStubs (stubs : value) (errors : list Error) : list Error :=
  if negb (defined stubs) then
    (errors ++ [mkError ValidationError "'stubs' is a required field"
                  VUndefined VUndefined])%list
  else if negb (isArray stubs) then
    (errors ++ [mkError ValidationError "'stubs' must be an array"
                  VUndefined VUndefined])%list
  else errors.

(** [validate] copies the imposter and writes the new stubs into the
    copy before anything else, which raises when there is no imposter. *)
Definition validate (imposter : Property I) (newStubs : value) : C Promise :=
  let* imposter := method imposter in
  evaluate (validation imposter newStubs).

(** [statusCode] defaults to 400 in the source; a call that leaves it out
    passes 400 here. *)
Definition respondWithValidationErrors (validationErrors : Body)
  (statusCode : Z) : C Promise :=
  exec updates (fun s =>
         withErrorLog s
           (errorLog s ++ [("error changing stubs: ", validationErrors)])%list) in
  exec updates (fun s => withStatusCode s statusCode) in
  exec send validationErrors in
  answer (Q VUndefined).

(** What [putStubs], [putStub] and [postStub] do with the validator's
    result: [install] is the imposter's method that takes the new stubs
    in. *)
Definition settle (id : value) (imposter : Property I) (install : I -> I)
  (result : value) : C Promise :=
  let* isValid := evaluate (get result "isValid") in
  if truthy isValid then
    let* imposter := method imposter in
    let imposter := install imposter in
    exec keep id imposter in
    exec send (Json (toJSON imposter VUndefined)) in
    answer (Q VUndefined)
  else
    let* errors := evaluate (get result "errors") in
    exec respondWithValidationErrors (ErrorsOf errors) 400 in
    answer (Q VUndefined).

Definition putStubs (request : value) : C Promise :=
  let* id := evaluate (param request "id") in
  let* imposter := imposterAt id in
  let* body := evaluate (get request "body") in
  let* newStubs := evaluate (get body "stubs") in
  let errors := validateStubs newStubs [] in
  if (0 <? length errors)%nat then
    respondWithValidationErrors (Errors errors) 400
  else
    let* validating := validate imposter newStubs in
    thenC validating
      (settle id imposter (fun imposter => overwriteStubs imposter newStubs)).

(** [imposter.stubs()[index]] *)
Definition stubAt (imposter : I) (index : value) : value :=
  let k := toText index in
  match element k 0 (stubsOf imposter) with
  | Some stub => stub
  | None =>
      if String.eqb k "length"
      then VNum (Z.of_nat (length (stubsOf imposter)))
      else if inherited k then VFunction k else VUndefined
  end.

Definition validateStubIndex (index : value) (imposter : Property I)
  (errors : list Error) : C (list Error) :=
  let* imposter := method imposter in
  if negb (defined (stubAt imposter index)) then
    answer (errors ++
            [mkError ValidationError
               "'stubIndex' must be a valid integer, representing the array index position of the stub to replace"
               VUndefined VUndefined])%list
  else answer errors.

Definition putStub (request : value) : C Promise :=
  let* id := evaluate (param request "id") in
  let* imposter := imposterAt id in
  let* newStub := evaluate (get request "body") in
  let* stubIndex := evaluate (param request "stubIndex") in
  let* errors := validateStubIndex stubIndex imposter [] in
  if (0 <? length errors)%nat then
    respondWithValidationErrors (Errors errors) 404
  else
    let* validating := validate imposter (VArr [newStub]) in
    thenC validating
      (settle id imposter
         (fun imposter => overwriteStubAtIndex imposter stubIndex newStub)).

Definition postStub (request : value) : C Promise :=
  let* id := evaluate (param request "id") in
  let* imposter := imposterAt id in
  let* body := evaluate (get request "body") in
  let* newStub := evaluate (get body "stub") in
  let* given := evaluate (get body "index") in
  let* index :=
    if negb (defined given) then
      let* imposter := method imposter in
      answer (VNum (Z.of_nat (length (stubsOf imposter))))
    else answer given in
  let* outside :=
    match index with
    | VNum n =>
        if (n <? 0)%Z then answer true
        else
          let* imposter := method imposter in
          answer (Z.of_nat (length (stubsOf imposter)) <? n)%Z
    | _ => answer true
    end in
  let errors :=
    if outside
    then [mkError ValidationError
            "'index' must be between 0 and the length of the stubs array"
            VUndefined VUndefined]
    else [] in
  if (0 <? length errors)%nat then
    respondWithValidationErrors (Errors errors) 400
  else
    let* validating := validate imposter (VArr [newStub]) in
    thenC validating
      (settle id imposter
         (fun imposter => addStubAtIndex imposter index newStub)).

Definition deleteStub (request : value) : C Promise :=
  let* id := evaluate (param request "id") in
  let* imposter := imposterAt id in
  let* stubIndex := evaluate (param request "stubIndex") in
  let* errors := validateStubIndex stubIndex imposter [] in
  if (0 <? length errors)%nat then
    respondWithValidationErrors (Errors errors) 404
  else
    let* imposter := method imposter in
    let imposter := deleteStubAtIndex imposter stubIndex in
    exec keep id imposter in
    exec send (Json (toJSON imposter VUndefined)) in
    answer (Q VUndefined).

Definition get (request : value) : C unit :=
  let* options := evaluate (optionsOf request) in
  let* id := evaluate (param request "id") in
  let* imposter := imposterAt id in
  let* imposter := method imposter in
  format request (toJSON imposter options).

End Create.

Arguments Service : clear implicits.
Arguments C : clear implicits.

End Controller.

(** What [respondWithValidationErrors] leaves: the log line, the status
    code and the errors sent. *)
Definition refused {I : Type} (s : Controller.Service I)
  (validationErrors : Controller.Body) (code : Z) : Controller.Service I :=
  Controller.mkService (Controller.imposters s) code
    (Controller.events s ++ [Controller.Sent validationErrors])%list
    (Controller.errorLog s
     ++ [("error changing stubs: ", validationErrors)])%list.

(** What a successful change leaves: the imposter as its method left it,
    and its JSON sent. *)
Definition installed {I : Type} `{Controller.Imposter I}
  (s : Controller.Service I) (id : value) (imposter : I)
  : Controller.Service I :=
  Controller.mkService (<[toText id := imposter]> (Controller.imposters s))
    (Controller.statusCode s)
    (Controller.events s
     ++ [Controller.Sent
           (Controller.Json (Controller.toJSON imposter VUndefined))])%list
    (Controller.errorLog s).

(** *** An imposter to run the controller on

    An imposter that is its list of stubs: its methods do to the list
    what their names say, its validator accepts the stubs that are
    objects, its JSON lists the stubs. *)

Fixpoint removeAt (k : string) (i : nat) (items : list value) : list value :=
  match items with
  | [] => []
  | x :: rest =>
      if String.eqb k (decimal (N.of_nat i)) then rest
      else x :: removeAt k (S i) rest
  end.

Fixpoint replaceAt (k : string) (i : nat) (stub : value) (items : list value)
  : list value :=
  match items with
  | [] => []
  | x :: rest =>
      if String.eqb k (decimal (N.of_nat i)) then stub :: rest
      else x :: replaceAt k (S i) stub rest
  end.

Definition stubListValidation (newStubs : value) : value :=
  VObj [("isValid",
         VBool match newStubs with
               | VArr l => forallb (fun stub => match stub with
                                                | VObj _ => true
                                                | _ => false
                                                end) l
               | _ => false
               end);
        ("errors", VArr [VStr "a stub is an object"])].

Definition stubList : Controller.Imposter (list value) := {|
  Controller.toJSON := fun stubs _ => VObj [("stubs", VArr stubs)];
  Controller.stop := fun stubs => (Q VUndefined, stubs);
  Controller.reset := fun stubs => stubs;
  Controller.getResponseFor := fun stubs _ => (Q emptyObject, stubs);
  Controller.getProxyResponseFor := fun stubs proxyResponse _ =>
                                      (Q proxyResponse, stubs);
  Controller.stubsOf := fun stubs => stubs;
  Controller.overwriteStubs := fun stubs newStubs =>
                                 match newStubs with
                                 | VArr l => l
                                 | _ => stubs
                                 end;
  Controller.overwriteStubAtIndex := fun stubs index stub =>
                                       replaceAt (toText index) 0 stub stubs;
  Controller.addStubAtIndex := fun stubs index stub =>
                                 match index with
                                 | VNum n =>
                                     (take (Z.to_nat n) stubs
                                      ++ stub :: drop (Z.to_nat n) stubs)%list
                                 | _ => stubs
                                 end;
  Controller.deleteStubAtIndex := fun stubs index =>
                                    removeAt (toText index) 0 stubs;
  Controller.validation := fun _ newStubs =>
                             Return (Q (stubListValidation newStubs));
  Controller.parseQuery := fun _ => Return emptyObject;
  Controller.accepted := fun _ => Controller.AsJson;
  Controller.inherited := fun k =>
                            existsb (String.eqb k)
                              ["constructor"; "push"; "pop"; "slice"]
|}.

Definition greeting : value :=
  VObj [("predicates",
         VArr [VObj [("equals", VObj [("method", VStr "GET");
                                      ("path", VStr "/")])]]);
        ("responses",
         VArr [VObj [("is", VObj [("statusCode", VNum 200)])]])].

(** A server with one imposter, on port 4545, and requests to it. *)
Definition sampleService : Controller.Service (list value) :=
  Controller.mkService {[ "4545" := [greeting] ]} 200 [] [].

Definition requestTo (id : string) (more : list (string * value))
  (body : value) : value :=
  VObj [("params", VObj (("id", VStr id) :: more));
        ("url", VStr "/imposters");
        ("headers", emptyObject);
        ("body", body)].

(** * Properties *)

(** ** Selector value extraction *)

(** C7. Selector value extraction collapses its match set
    deterministically: the empty string when the matched payload is
    undefined, the value itself when it is not a list, the bare node when
    the list holds exactly one node, and the whole list when it holds more
    than one. *)
Theorem selectionValue_collapses :
  selectionValue VUndefined = VStr EmptyString /\
  (forall v : value, defined v = true -> isArray v = false ->
     selectionValue v = v) /\
  (forall node : value, selectionValue (VArr [node]) = node) /\
  (forall n1 n2 : value, forall more : list value,
     selectionValue (VArr (n1 :: n2 :: more)) = VArr (n1 :: n2 :: more)).
Proof.
  split; [reflexivity|].
  split.
  - intros v Hdef Harr. unfold selectionValue. now rewrite Hdef, Harr.
  - split; reflexivity.
Qed.

(** ** Values *)

Lemma truthy_js_and (a b : value) :
  truthy (js_and a b) = truthy a && truthy b.
Proof. unfold js_and. destruct (truthy a) eqn:Ha; simpl; auto. Qed.

Lemma truthy_js_or (a b : value) :
  truthy (js_or a b) = truthy a || truthy b.
Proof. unfold js_or. destruct (truthy a) eqn:Ha; simpl; auto. Qed.

Lemma field_setField_eq (k : string) (v : value) (fs : list (string * value)) :
  field k (setField k v fs) = v.
Proof.
  induction fs as [|[k' v'] fs IH]; simpl.
  - now rewrite String.eqb_refl.
  - destruct (String.eqb k k') eqn:E; simpl.
    + now rewrite String.eqb_refl.
    + now rewrite E.
Qed.


Lemma decimal_starts_with_digit (n : N) (c : ascii) (rest : string) :
  decimal n = String c rest ->
  In c ["0"; "1"; "2"; "3"; "4"; "5"; "6"; "7"; "8"; "9"]%char.
Proof.
  unfold decimal. destruct (N.to_uint n); simpl; intros E;
    inversion E; subst; simpl; tauto.
Qed.

(** A property whose name does not start with a digit is no index. *)
Lemma indexed_name (k : string) (i : nat) (items : list value) :
  (forall n : N, decimal n <> k) -> indexed k i items = VUndefined.
Proof.
  intros Hk. revert i. induction items as [|x items IH]; intros i; simpl; auto.
  destruct (String.eqb_spec k (decimal (N.of_nat i))) as [E|_]; auto.
  exfalso. now apply (Hk (N.of_nat i)).
Qed.

Lemma decimal_not_named (n : N) (c : ascii) (rest : string) :
  ~ In c ["0"; "1"; "2"; "3"; "4"; "5"; "6"; "7"; "8"; "9"]%char ->
  decimal n <> String c rest.
Proof. intros Hc E. apply Hc. eapply decimal_starts_with_digit; eauto. Qed.

Lemma decimal_inj (m n : N) : decimal m = decimal n -> m = n.
Proof.
  unfold decimal. intros E.
  assert (E' : Some (N.to_uint m) = Some (N.to_uint n)).
  { rewrite <- !NilEmpty.usu. now rewrite E. }
  inversion E' as [E'']. apply (f_equal N.of_uint) in E''.
  now rewrite !DecimalN.Unsigned.of_to in E''.
Qed.

(** Property names and the numbers they stand for. *)
Lemma numbered_decimal (n : N) : numbered (decimal n) = Some n.
Proof.
  unfold numbered, decimal. rewrite NilEmpty.usu, DecimalN.Unsigned.of_to.
  now rewrite String.eqb_refl.
Qed.

Lemma numbered_name (name : string) (n : N) :
  numbered name = Some n -> name = decimal n.
Proof.
  unfold numbered. destruct (NilEmpty.uint_of_string name) as [digits|];
    [|discriminate].
  destruct (String.eqb (decimal (N.of_uint digits)) name) eqn:E;
    [|discriminate].
  intros [= <-]. symmetry. now apply String.eqb_eq.
Qed.

Lemma inherits_not_numbered (name : string) :
  inherits name = true -> numbered name = None.
Proof.
  unfold inherits. intros Hname.
  apply existsb_exists in Hname as (member & Hin & Hsame).
  apply String.eqb_eq in Hsame. subst member.
  unfold objectPrototype in Hin. simpl in Hin.
  repeat (destruct Hin as [<-|Hin]; [vm_compute; reflexivity|]).
  destruct Hin.
Qed.

Lemma decimal_not_inherited (n : N) : inherits (decimal n) = false.
Proof.
  destruct (inherits (decimal n)) eqn:E; [|reflexivity].
  apply inherits_not_numbered in E. rewrite numbered_decimal in E.
  discriminate.
Qed.

Lemma pendingAt_decimal (pending : gmap N PendingProxy) (key : N) :
  pendingAt pending (decimal key)
  = match pending !! key with
    | Some entry => Own entry
    | None => Missing
    end.
Proof.
  unfold pendingAt, property. rewrite numbered_decimal, decimal_not_inherited.
  reflexivity.
Qed.

Lemma deleteAt_decimal (pending : gmap N PendingProxy) (key : N) :
  deleteAt (decimal key) pending = delete key pending.
Proof. unfold deleteAt. now rewrite numbered_decimal. Qed.

Lemma pendingAt_own (pending : gmap N PendingProxy) (name : string)
  (entry : PendingProxy) :
  pendingAt pending name = Own entry ->
  exists key : N, name = decimal key /\ pending !! key = Some entry.
Proof.
  unfold pendingAt, property.
  destruct (numbered name) as [key|] eqn:Hname.
  - destruct (pending !! key) as [found|] eqn:Hkey.
    + intros [= <-]. exists key. split; [now apply numbered_name|exact Hkey].
    + destruct (inherits name); discriminate.
  - destruct (inherits name); discriminate.
Qed.

Lemma pendingAt_inherited (pending : gmap N PendingProxy) (name : string) :
  inherits name = true ->
  pendingAt pending name = Inherited (memberOf name).
Proof.
  intros Hname. unfold pendingAt, property.
  now rewrite (inherits_not_numbered _ Hname), Hname.
Qed.

Lemma pendingAt_member (pending : gmap N PendingProxy) (name : string)
  (member : value) :
  pendingAt pending name = Inherited member -> inherits name = true.
Proof.
  unfold pendingAt, property.
  destruct (match numbered name with
            | Some key => pending !! key
            | None => None
            end); [discriminate|].
  destruct (inherits name); [reflexivity|discriminate].
Qed.

Lemma pendingAt_empty (name : string) :
  pendingAt ∅ name = property None name.
Proof.
  unfold pendingAt. destruct (numbered name); [now rewrite lookup_empty|].
  reflexivity.
Qed.

(** A member of [Object.prototype] has no [responseConfig]. *)
Lemma member_has_no_config (name : string) :
  get (memberOf name) "responseConfig" = Return VUndefined
  /\ get (memberOf name) "request" = Return VUndefined.
Proof. unfold memberOf. destruct (String.eqb name "__proto__"); auto. Qed.


Lemma named_property_of_list (k : string) (c : ascii) (rest : string)
  (items : list value) :
  k = String c rest ->
  ~ In c ["0"; "1"; "2"; "3"; "4"; "5"; "6"; "7"; "8"; "9"]%char ->
  indexed k 0 items = VUndefined.
Proof.
  intros -> Hc. apply indexed_name. intros n. now apply decimal_not_named.
Qed.

Lemma isSet_object (responseConfig : value) (responseType : string)
  (c : ascii) (rest : string) :
  responseType = String c rest ->
  ~ In c ["0"; "1"; "2"; "3"; "4"; "5"; "6"; "7"; "8"; "9"; "l"]%char ->
  isSet responseConfig responseType = true ->
  exists fs, responseConfig = VObj fs.
Proof.
  intros Hk Hc. unfold isSet.
  assert (Hdigit : ~ In c ["0"; "1"; "2"; "3"; "4"; "5"; "6"; "7"; "8"; "9"]%char).
  { intros Hin. apply Hc. simpl in *. tauto. }
  assert (Hlen : String.eqb responseType "length" = false).
  { apply String.eqb_neq. intros E. rewrite Hk in E. inversion E; subst.
    apply Hc. simpl. tauto. }
  destruct responseConfig; simpl; try discriminate.
  - rewrite Hlen, (named_property_of_list _ c rest) by assumption. discriminate.
  - rewrite Hlen, (named_property_of_list _ c rest) by assumption. discriminate.
  - eauto.
Qed.

Lemma typesSet_object (responseConfig : value) :
  2 <= typesSet responseConfig -> exists fs, responseConfig = VObj fs.
Proof.
  unfold typesSet. intros Hset.
  destruct (isSet responseConfig "is") eqn:His.
  - eapply isSet_object in His; eauto. simpl. intuition discriminate.
  - destruct (isSet responseConfig "proxy") eqn:Hproxy.
    + eapply isSet_object in Hproxy; eauto. simpl. intuition discriminate.
    + destruct (isSet responseConfig "inject"); simpl in Hset; lia.
Qed.

(** ** The recursion of [buildEquals] *)






Section BuildEquals.

Context `{Collaborators}.




End BuildEquals.

(** ** The monad *)

Lemma bind_run {A B : Type} (m : M A) (k : A -> M B) (w : World) :
  bind m k w =
  match fst (m w) with
  | Return a => k a (snd (m w))
  | Throw e => (Throw e, snd (m w))
  end.
Proof. unfold bind. destruct (m w) as [[a|e] w']; reflexivity. Qed.

Lemma bind_returns {A B : Type} (m : M A) (k : A -> M B) (w w' : World) (a : A) :
  m w = (Return a, w') -> bind m k w = k a w'.
Proof. unfold bind. now intros ->. Qed.

Lemma bind_ret {A B : Type} (a : A) (k : A -> M B) (w : World) :
  bind (ret a) k w = k a w.
Proof. reflexivity. Qed.

Lemma bind_lift_return {A B : Type} (a : A) (k : A -> M B) (w : World) :
  bind (lift (Return a)) k w = k a w.
Proof. reflexivity. Qed.

Lemma bind_lift_throw {A B : Type} (e : Error) (k : A -> M B) (w : World) :
  bind (lift (Throw e)) k w = (Throw e, w).
Proof. reflexivity. Qed.

Lemma bind_raise {A B : Type} (e : Error) (k : A -> M B) (w : World) :
  bind (raise e) k w = (Throw e, w).
Proof. reflexivity. Qed.

Lemma bind_reads {A B : Type} (f : World -> A) (k : A -> M B) (w : World) :
  bind (reads f) k w = k (f w) w.
Proof. reflexivity. Qed.

Lemma bind_modify {B : Type} (f : World -> World) (k : unit -> M B) (w : World) :
  bind (modify f) k w = k tt (f w).
Proof. reflexivity. Qed.

Lemma bind_at {A B : Type} (m m' : M A) (k : A -> M B) (w : World) :
  m w = m' w -> bind m k w = bind m' k w.
Proof. unfold bind. now intros ->. Qed.


Lemma bind_assoc {A B C : Type} (m : M A) (k : A -> M B) (k' : B -> M C)
  (w : World) :
  bind (bind m k) k' w = bind m (fun a => bind (k a) k') w.
Proof. unfold bind. destruct (m w) as [[a|e] w']; reflexivity. Qed.

Create Rewrite HintDb resolver.
#[local] Hint Rewrite @bind_ret @bind_lift_return @bind_lift_throw @bind_raise
  @bind_reads @bind_modify : resolver.

(** One step of a computation whose head is known. *)
Ltac run :=
  repeat (progress (autorewrite with resolver; cbv beta; cbn [get cbind])).

(** ** Validation, dry runs and recording modes *)

Section Dispatch.

Context `{Collaborators}.
Variable proxy : option Transport.
Variable callbackURL : string.

(** C3. A config on which more than one of [is], [proxy] and [inject] is
    set makes [resolve] reject with a validation error naming the config,
    and nothing else happens: the world (rule repository, pending
    resolutions, key counter, logs) and the config are as before. *)
Theorem resolve_rejects_multiple_types
  (responseConfig request imposterState options : value) (w : World) :
  2 <= typesSet responseConfig ->
  resolve proxy callbackURL responseConfig request imposterState options w =
  (Return (mkResolution responseConfig
             (Q_reject (mkError ValidationError
                          "each response object must have only one response type"
                          responseConfig VUndefined))),
   w).
Proof.
  intros Hset. destruct (typesSet_object _ Hset) as [fs ->].
  unfold typesSet, isSet in Hset. simpl in Hset.
  unfold resolve, hasMultipleTypes. simpl.
  unfold bind, lift.
  rewrite !truthy_js_or, !truthy_js_and.
  destruct (truthy (field "is" fs)), (truthy (field "proxy" fs)),
    (truthy (field "inject" fs)); simpl in *; try lia; reflexivity.
Qed.

(** [resolveProxy] when the lookup finds nothing. *)
Lemma resolveProxy_missing
  (proxyResponse : value) (proxyResolutionKey : string) (w : World) :
  pendingAt (pendingProxyResolutions w) proxyResolutionKey = Missing ->
  resolveProxy callbackURL proxyResponse proxyResolutionKey w =
  (Return (Q_reject (mkError MissingResourceError "invalid proxy resolution key"
                       (VStr (callbackURL ++ "/" ++ proxyResolutionKey))
                       VUndefined)),
   withErrorLog w
     (errorLog w ++
      [mkLog ("Invalid proxy resolution key: " ++ proxyResolutionKey)
             VUndefined])).
Proof.
  intros Hmiss. unfold resolveProxy, bind, reads. now rewrite Hmiss.
Qed.

(** X27. [resolveProxy] on a key that is not the numeral of a key with a
    pending resolution, and that names no member of [Object.prototype],
    rejects with a missing-resource error whose source is the callback
    address ending in that key; it logs the key and leaves the pending
    resolutions, the key counter and the rule repository as they were.
    A numeral with a sign, a leading zero or a space is such a key. *)
Theorem resolveProxy_unknown_key
  (proxyResponse : value) (proxyResolutionKey : string) (w : World) :
  (forall key : N,
     proxyResolutionKey = decimal key ->
     pendingProxyResolutions w !! key = None) ->
  inherits proxyResolutionKey = false ->
  resolveProxy callbackURL proxyResponse proxyResolutionKey w =
  (Return (Q_reject (mkError MissingResourceError "invalid proxy resolution key"
                       (VStr (callbackURL ++ "/" ++ proxyResolutionKey))
                       VUndefined)),
   withErrorLog w
     (errorLog w ++
      [mkLog ("Invalid proxy resolution key: " ++ proxyResolutionKey)
             VUndefined])).
Proof.
  intros Hpending Hname. apply resolveProxy_missing.
  unfold pendingAt, property.
  destruct (numbered proxyResolutionKey) as [key|] eqn:Hkey.
  - rewrite (Hpending key (numbered_name _ _ Hkey)). now rewrite Hname.
  - now rewrite Hname.
Qed.

(** What [resolveProxy] does with a key that names a member of
    [Object.prototype]. *)
Lemma resolveProxy_inherited
  (proxyResponse : value) (proxyResolutionKey : string) (w : World) :
  inherits proxyResolutionKey = true ->
  exists e : Error,
    resolveProxy callbackURL proxyResponse proxyResolutionKey w = (Throw e, w)
    /\ kind e = TypeError.
Proof.
  intros Hname. unfold resolveProxy. rewrite bind_reads.
  rewrite (pendingAt_inherited _ _ Hname).
  destruct (member_has_no_config proxyResolutionKey) as [Hconfig Hrequest].
  destruct (set proxyResponse "_proxyResponseTime" notANumber)
    as [stamped|e] eqn:Hset.
  - rewrite bind_lift_return, Hrequest, bind_lift_return, Hconfig,
      bind_lift_return.
    eexists. split; [reflexivity|reflexivity].
  - rewrite bind_lift_throw. exists e. split; [reflexivity|].
    destruct proxyResponse; simpl in Hset; try discriminate;
      injection Hset as <-; reflexivity.
Qed.

(** C4, at the keys the code gets wrong. A forged key that names a member
    of [Object.prototype] ([constructor], [__proto__], [toString], ...)
    is not answered as a missing resource: the lookup in the plain object
    finds the inherited member, and [resolveProxy] raises a [TypeError],
    with no rejection and no log line.  The world is left as it was. *)
Theorem forged_key_raises_a_type_error
  (proxyResponse : value) (proxyResolutionKey : string) (w : World) :
  inherits proxyResolutionKey = true ->
  (exists e : Error,
     resolveProxy callbackURL proxyResponse proxyResolutionKey w = (Throw e, w)
     /\ kind e = TypeError)
  /\ resolveProxy callbackURL proxyResponse proxyResolutionKey w
     <> (Return (Q_reject (mkError MissingResourceError
                             "invalid proxy resolution key"
                             (VStr (callbackURL ++ "/" ++ proxyResolutionKey))
                             VUndefined)),
         withErrorLog w
           (errorLog w ++
            [mkLog ("Invalid proxy resolution key: " ++ proxyResolutionKey)
                   VUndefined])).
Proof.
  intros Hname.
  destruct (resolveProxy_inherited proxyResponse _ w Hname) as (e & Hrun & He).
  split; [now exists e|]. rewrite Hrun. discriminate.
Qed.

(** The dynamic evaluator on a dry run: the logic is not evaluated and the
    promise is fulfilled with the empty response by the 1 ms timer. *)
Lemma inject_dry_run (request fn imposterState : value) (w : World) :
  get request "isDryRun" = Return (VBool true) ->
  inject request fn imposterState w =
  (Return (Settles 1 (Fulfils emptyObject)), w).
Proof. intros Hdry. unfold inject, bind, lift. now rewrite Hdry. Qed.

(** In [proxyTransparent] mode recording returns at once. *)
Lemma transparent_records_nothing
  (responseConfig proxyConfig request response : value) (w : World) :
  get responseConfig "proxy" = Return proxyConfig ->
  get proxyConfig "mode" = Return (VStr "proxyTransparent") ->
  recordProxyResponse responseConfig request response w = (Return tt, w).
Proof.
  intros Hproxy Hmode. unfold recordProxyResponse, bind, lift.
  now rewrite Hproxy, Hmode.
Qed.

End Dispatch.

Section Modes.

Context `{Collaborators}.
Variable proxy : option Transport.
Variable callbackURL : string.

Lemma andThen_Q (p : Promise) (w : World) :
  andThen p (fun response => ret (Q response)) w = (Return p, w).
Proof.
  destruct p as [d [v|e]|]; simpl; auto.
  unfold ret. simpl. now rewrite N.add_0_r.
Qed.

(** C5. A dry-run request to a dynamic config: the dispatch never evaluates
    the supplied logic (the world, and the record of evaluated sources in
    it, is as before) and yields the empty response, fulfilled by the 1 ms
    timer.  [resolve] then hands that empty response to the behavior
    pipeline and, without an in-process proxy, wraps what comes back as
    [{ response }]. *)
Theorem dry_run_skips_the_logic
  (responseConfig request imposterState options : value) (w : World) :
  isSet responseConfig "is" = false ->
  isSet responseConfig "proxy" = false ->
  isSet responseConfig "inject" = true ->
  get request "isDryRun" = Return (VBool true) ->
  processResponse proxy callbackURL responseConfig request imposterState options w
  = (Return (mkResolution responseConfig (Settles 1 (Fulfils emptyObject))), w)
  /\ exists behaviors,
      get responseConfig "_behaviors" = Return behaviors /\
      resolve proxy callbackURL responseConfig request imposterState options w
      = (Return (mkResolution responseConfig
                   match behaviors_execute request emptyObject behaviors with
                   | Settles d (Fulfils v) =>
                       Settles (1 + d)
                         (Fulfils (if inProcessProxy proxy then v
                                   else VObj [("response", v)]))
                   | Settles d (Rejects e) => Settles (1 + d) (Rejects e)
                   | Never => Never
                   end),
         w).
Proof.
  intros His Hproxy Hinject Hdry.
  destruct (isSet_object _ "inject" "i" "nject" eq_refl
              ltac:(simpl; intuition discriminate) Hinject) as [fs ->].
  unfold isSet in His, Hproxy, Hinject. simpl in His, Hproxy, Hinject.
  assert (Hprocess :
    processResponse proxy callbackURL (VObj fs) request imposterState options w
    = (Return (mkResolution (VObj fs) (Settles 1 (Fulfils emptyObject))), w)).
  { unfold processResponse. simpl get. unfold bind at 1, lift at 1.
    rewrite His. unfold bind at 1, lift at 1. rewrite Hproxy.
    unfold bind at 1, lift at 1. rewrite Hinject.
    rewrite (bind_returns _ _ w w _ (inject_dry_run _ _ _ _ Hdry)).
    rewrite (bind_returns _ _ w w _ (andThen_Q _ _)). reflexivity. }
  split; [exact Hprocess|].
  exists (field "_behaviors" fs). split; [reflexivity|].
  unfold resolve, hasMultipleTypes. simpl get.
  unfold cbind. unfold bind at 1, lift at 1.
  rewrite !truthy_js_or, !truthy_js_and, His, Hproxy. cbn [andb orb]. unfold clone at 1.
  rewrite (bind_returns _ _ w w _ Hprocess). simpl configAfter. simpl promise.
  unfold bind, andThen, lift, ret, Q. simpl. rewrite Hproxy.
  destruct (behaviors_execute request emptyObject (field "_behaviors" fs))
    as [d [v|e]|]; try reflexivity.
  destruct (inProcessProxy proxy); rewrite ?Hproxy, N.add_0_r; reflexivity.
Qed.


End Modes.

(** ** Proxy configs without a known mode *)

Section Rewriting.

Context `{Collaborators}.
Variable callbackURL : string.



Lemma processResponse_proxy (proxy : option Transport)
  (fs : list (string * value)) (request imposterState requestDetails : value)
  (w : World) :
  truthy (field "is" fs) = false ->
  truthy (field "proxy" fs) = true ->
  processResponse proxy callbackURL (VObj fs) request imposterState
    requestDetails w
  = proxyAndRecord proxy callbackURL (VObj fs) request requestDetails w.
Proof.
  intros His Hproxy. unfold processResponse. run. rewrite His. run.
  now rewrite Hproxy.
Qed.



(** Without an in-process proxy, [resolve] on a proxy config with a known
    mode stores the pending resolution and is fulfilled with the proxy
    section, the request and the callback address. *)
Lemma resolve_delegates (fs pfs : list (string * value))
  (request imposterState requestDetails : value) (w : World) :
  field "proxy" fs = VObj pfs ->
  knownMode (field "mode" pfs) = true ->
  truthy (field "is" fs) = false ->
  truthy (field "inject" fs) = false ->
  resolve None callbackURL (VObj fs) request imposterState requestDetails w
  = (Return (mkResolution (VObj fs)
               (Q (VObj [("proxy", VObj pfs);
                         ("request", request);
                         ("callbackURL",
                          VStr (callbackURL ++ "/" ++
                                decimal (nextProxyResolutionKey w)))]))),
     withPending w
       (<[nextProxyResolutionKey w :=
            mkPending (VObj fs) request (clock w) requestDetails]>
          (pendingProxyResolutions w))
       (nextProxyResolutionKey w + 1)).
Proof.
  intros Hproxy Hmode His Hinject.
  assert (Hrun :
    proxyAndRecord None callbackURL (VObj fs) request requestDetails w
    = (Return (mkResolution (VObj fs)
                 (Q (VObj [("proxy", VObj pfs);
                           ("request", request);
                           ("callbackURL",
                            VStr (callbackURL ++ "/" ++
                                  decimal (nextProxyResolutionKey w)))]))),
       withPending w
         (<[nextProxyResolutionKey w :=
              mkPending (VObj fs) request (clock w) requestDetails]>
            (pendingProxyResolutions w))
         (nextProxyResolutionKey w + 1))).
  { unfold proxyAndRecord. run. rewrite Hproxy. run. rewrite Hmode.
    cbn [negb]. run. rewrite Hproxy. run. unfold ret. simpl.
    now rewrite N.add_sub. }
  unfold resolve, hasMultipleTypes. cbn [get cbind]. rewrite Hproxy. run.
  rewrite !truthy_js_or, !truthy_js_and, His, Hinject. cbn [andb orb truthy].
  rewrite (bind_returns _ _ _ _ _
             (eq_trans (processResponse_proxy None fs (clone request)
                          imposterState requestDetails w His
                          ltac:(now rewrite Hproxy)) Hrun)).
  cbn [configAfter promise]. unfold andThen, Q, bind, lift, ret, inProcessProxy.
  cbn [get]. rewrite Hproxy. reflexivity.
Qed.





End Rewriting.

(** ** What a computation leaves of the world

    [R] is a preorder that the logger and [eval] respect; the further
    effects are assumed where they occur. *)

Section Frames.

Context `{Collaborators}.
Variable R : World -> World -> Prop.
Hypothesis R_refl : forall w, R w w.
Hypothesis R_trans : forall w1 w2 w3, R w1 w2 -> R w2 w3 -> R w1 w3.
Hypothesis R_log : forall w l, R w (withErrorLog w l).
Hypothesis R_eval : forall w l, R w (withEvaluated w l).

Lemma keeps_ret {A : Type} (a : A) : keeps R (ret a).
Proof. intros w. apply R_refl. Qed.

Lemma keeps_raise {A : Type} (e : Error) : keeps R (@raise A e).
Proof. intros w. apply R_refl. Qed.

Lemma keeps_lift {A : Type} (c : Completion A) : keeps R (lift c).
Proof. intros w. apply R_refl. Qed.

Lemma keeps_reads {A : Type} (f : World -> A) : keeps R (reads f).
Proof. intros w. apply R_refl. Qed.

Lemma keeps_bind {A B : Type} (m : M A) (k : A -> M B) :
  keeps R m -> (forall a, keeps R (k a)) -> keeps R (bind m k).
Proof.
  intros Hm Hk w. unfold bind. specialize (Hm w).
  destruct (m w) as [[a|e] w']; simpl in *; auto.
  eapply R_trans; [exact Hm|apply Hk].
Qed.

Lemma keeps_foldM {A B : Type} (f : A -> B -> M A) (l : list B) (a : A) :
  (forall a b, keeps R (f a b)) -> keeps R (foldM f l a).
Proof.
  intros Hf. revert a. induction l as [|b l IH]; intros a; simpl.
  - apply keeps_ret.
  - apply keeps_bind; auto.
Qed.

Lemma keeps_andThen (p : Promise) (callback : value -> M Promise) :
  (forall v, keeps R (callback v)) -> keeps R (andThen p callback).
Proof.
  intros Hc w. destruct p as [d [v|e]|]; simpl; try apply R_refl.
  specialize (Hc v w). destruct (callback v w) as [[[d' s|]|e] w']; auto.
Qed.

Lemma keeps_logError (line : string) (about : value) :
  keeps R (logError line about).
Proof. intros w. apply R_log. Qed.

Lemma keeps_evaluating (src : string) : keeps R (evaluating src).
Proof. intros w. apply R_eval. Qed.

Ltac frame :=
  repeat first
    [ apply keeps_ret | apply keeps_raise | apply keeps_lift
    | apply keeps_reads | apply keeps_logError | apply keeps_evaluating
    | apply keeps_bind; [|intros ?]
    | apply keeps_foldM; intros ? ?
    | apply keeps_andThen; intros ?
    | match goal with
      | |- keeps _ (if ?b then _ else _) => destruct b
      | |- keeps _ (match ?x with _ => _ end) => destruct x
      end ].

Lemma keeps_inject (request fn imposterState : value) :
  keeps R (inject request fn imposterState).
Proof. unfold inject. frame. Qed.

Lemma keeps_predicatesFor (request matchers : value) :
  keeps R (predicatesFor request matchers).
Proof. unfold predicatesFor. frame. Qed.

Lemma keeps_indexOfStubToAddResponseTo (responseConfig request : value) :
  keeps R (indexOfStubToAddResponseTo responseConfig request).
Proof.
  unfold indexOfStubToAddResponseTo, stubIndexFor. frame.
Qed.

Hypothesis R_stubs : forall w l, R w (withStubs w l).

Lemma keeps_recordProxyResponse (responseConfig request response : value) :
  keeps R (recordProxyResponse responseConfig request response).
Proof.
  unfold recordProxyResponse, canAddResponseToExistingStub, addNewResponse,
    addNewStub, modify.
  frame;
    try apply keeps_indexOfStubToAddResponseTo;
    try apply keeps_predicatesFor;
    try (intros w; apply R_stubs).
Qed.

Lemma keeps_setMetadata (responseConfig : value) (responseType : string)
  (metadata : value) :
  keeps R (setMetadata responseConfig responseType metadata).
Proof.
  unfold setMetadata.
  apply keeps_bind; [apply keeps_lift|intros rewritten].
  apply keeps_bind; [intros w; apply R_stubs|intros _; apply keeps_ret].
Qed.

Variable proxy : option Transport.
Variable callbackURL : string.

Hypothesis R_clock : forall w now, R w (withClock w now).
Hypothesis R_store :
  forall w entry,
    R w (withPending w
           (<[nextProxyResolutionKey w := entry]> (pendingProxyResolutions w))
           (nextProxyResolutionKey w + 1)).
Hypothesis R_delete :
  forall w k,
    R w (withPending w (delete k (pendingProxyResolutions w))
           (nextProxyResolutionKey w)).






End Frames.

(** ** Resolution keys *)

Section Keys.

Context `{Collaborators}.
Variable callbackURL : string.





Lemma sameKeys_recordProxyResponse
  (responseConfig request response : value) (w : World) :
  sameKeys w (snd (recordProxyResponse responseConfig request response w)).
Proof.
  apply keeps_recordProxyResponse; unfold sameKeys; simpl; auto.
  intros w1 w2 w3 [-> ->] [-> ->]. auto.
Qed.


(** What a completion does to the pending resolutions. *)
Lemma completion (proxyResponse : value) (proxyResolutionKey : string)
  (c : Completion Promise) (w w' : World) :
  resolveProxy callbackURL proxyResponse proxyResolutionKey w = (c, w') ->
  nextProxyResolutionKey w' = nextProxyResolutionKey w /\
  match c with
  | Return (Settles _ (Fulfils _)) =>
      exists key : N,
        proxyResolutionKey = decimal key /\
        is_Some (pendingProxyResolutions w !! key) /\
        pendingProxyResolutions w' = delete key (pendingProxyResolutions w)
  | _ => pendingProxyResolutions w' = pendingProxyResolutions w
  end.
Proof.
  destruct (pendingAt (pendingProxyResolutions w) proxyResolutionKey)
    as [pending|member|] eqn:Hfound.
  - destruct (pendingAt_own _ _ _ Hfound) as (key & -> & Hkey).
    unfold resolveProxy. rewrite bind_reads, Hfound, bind_reads.
    destruct (set proxyResponse "_proxyResponseTime"
                (VNum (clock w - startTime pending))) as [stamped|e];
      [rewrite bind_lift_return
      |rewrite bind_lift_throw; intros E; inversion E; subst; auto].
    destruct (get (responseConfig pending) "_behaviors") as [behaviors|e];
      [rewrite bind_lift_return
      |rewrite bind_lift_throw; intros E; inversion E; subst; auto].
    destruct (behaviors_execute (request pending) stamped behaviors)
      as [d [v|e]|]; simpl;
      try (intros E; inversion E; subst; now auto).
    unfold thenRecord. rewrite bind_run.
    pose proof (sameKeys_recordProxyResponse (responseConfig pending)
                  (request pending) v w) as [Hsame Hnext].
    destruct (recordProxyResponse (responseConfig pending) (request pending) v w)
      as [[[]|e] w1]; simpl in *;
      [|intros E; inversion E; subst; now auto].
    destruct (set v "recordMatch" (VFunction "recordMatch")) as [marked|e];
      [rewrite bind_lift_return
      |rewrite bind_lift_throw; intros E; inversion E; subst; auto].
    rewrite bind_modify. unfold ret, Q. intros E. inversion E; subst. simpl.
    rewrite deleteAt_decimal, Hsame. eauto.
  - destruct (resolveProxy_inherited callbackURL proxyResponse
                proxyResolutionKey w (pendingAt_member _ _ _ Hfound))
      as (e & -> & _).
    intros E. inversion E; subst. auto.
  - unfold resolveProxy. rewrite bind_reads, Hfound, bind_run. simpl.
    intros E. inversion E; subst. simpl. auto.
Qed.


End Keys.

(** ** Recording in [proxyTransparent] mode *)

Section Transparent.

Context `{Collaborators}.
Variable proxy : option Transport.
Variable callbackURL : string.

Variables config proxyConfig : value.
Hypothesis Hproxy : get config "proxy" = Return proxyConfig.
Hypothesis Hmode : get proxyConfig "mode" = Return (VStr "proxyTransparent").

Lemma keeps_stubs_recording (request response : value) (k : unit -> M Promise) :
  (forall u, keeps (fun w w' => stubs w' = stubs w) (k u)) ->
  keeps (fun w w' => stubs w' = stubs w)
    (bind (recordProxyResponse config request response) k).
Proof.
  intros Hk w.
  rewrite (bind_returns _ _ _ _ _
             (transparent_records_nothing _ _ request response w Hproxy Hmode)).
  apply Hk.
Qed.

(** C8. In [proxyTransparent] mode recording is a no-op: whatever the
    request and the observed response, [recordProxyResponse] leaves the
    world as it was; and a proxied exchange, in-process or completed
    through [resolveProxy], leaves the rule repository as it was. *)
Theorem proxyTransparent_never_records :
  (forall (request response : value) (w : World),
     recordProxyResponse config request response w = (Return tt, w))
  /\ (forall (request requestDetails : value) (w : World),
        stubs (snd (proxyAndRecord proxy callbackURL config request
                      requestDetails w))
        = stubs w)
  /\ (forall (proxyResponse : value) (proxyResolutionKey : N)
             (pending : PendingProxy) (w : World),
        pendingProxyResolutions w !! proxyResolutionKey = Some pending ->
        responseConfig pending = config ->
        stubs (snd (resolveProxy callbackURL proxyResponse
                      (decimal proxyResolutionKey) w))
        = stubs w).
Proof.
  set (R := fun w w' : World => stubs w' = stubs w).
  assert (Hrefl : forall w, R w w) by reflexivity.
  assert (Htrans : forall w1 w2 w3, R w1 w2 -> R w2 w3 -> R w1 w3).
  { unfold R. intros w1 w2 w3 -> ->. reflexivity. }
  pose proof (@keeps_bind R Htrans) as Kbind.
  pose proof (@keeps_andThen R Hrefl) as Kthen.
  pose proof (@keeps_ret R Hrefl) as Kret.
  pose proof (@keeps_lift R Hrefl) as Klift.
  pose proof (@keeps_reads R Hrefl) as Kreads.
  split; [|split].
  - intros request response w. now apply transparent_records_nothing with proxyConfig.
  - intros request requestDetails w. unfold proxyAndRecord.
    rewrite bind_reads, Hproxy, bind_lift_return, Hmode, bind_lift_return.
    change (knownMode (VStr "proxyTransparent")) with true. cbn [negb].
    rewrite bind_ret, Hproxy, bind_lift_return.
    destruct proxy as [transport|].
    + destruct (get proxyConfig "to") as [to|e];
        [rewrite bind_lift_return|rewrite bind_lift_throw; reflexivity].
      rewrite bind_modify.
      match goal with
      | |- stubs (snd (?m (withClock w ?now))) = stubs w =>
          change (R (withClock w now) (snd (m (withClock w now))));
          generalize (withClock w now)
      end.
      apply Kbind.
      * apply Kthen. intros response.
        apply Kbind; [apply Kreads|intros now].
        apply Kbind; [apply Klift|intros stamped].
        apply Kbind; [apply Klift|intros behaviors].
        apply Kret.
      * intros decorated.
        apply Kbind; [|intros recorded; apply Kret].
        apply Kthen. intros response.
        apply keeps_stubs_recording. intros _. apply Kret.
    + rewrite !bind_reads, bind_modify, bind_reads. reflexivity.
  - intros proxyResponse proxyResolutionKey pending w Hpending Hconfig.
    unfold resolveProxy.
    rewrite bind_reads, pendingAt_decimal, Hpending, bind_reads.
    destruct (set proxyResponse "_proxyResponseTime"
                (VNum (clock w - startTime pending))) as [stamped|e];
      [rewrite bind_lift_return|rewrite bind_lift_throw; reflexivity].
    destruct (get (responseConfig pending) "_behaviors")
      as [behaviors|e];
      [rewrite bind_lift_return|rewrite bind_lift_throw; reflexivity].
    change (R w (snd (andThen
                        (behaviors_execute (request pending) stamped behaviors)
                        (thenRecord (responseConfig pending) (request pending)
                           (decimal proxyResolutionKey))
                        w))).
    generalize w. apply Kthen. intros response. unfold thenRecord.
    rewrite Hconfig. apply keeps_stubs_recording. intros _.
    apply Kbind; [apply Klift|intros marked].
    apply Kbind; [intros w0; reflexivity|intros _].
    apply Kret.
Qed.

End Transparent.

(** ** Recording in [proxyAlways] mode *)

Lemma oblivious_bind {A B : Type} (m : M A) (k : A -> M B) :
  oblivious m -> (forall a, oblivious (k a)) -> oblivious (bind m k).
Proof.
  intros Hm Hk w w'. rewrite !bind_run, (Hm w w').
  destruct (fst (m w')); [apply Hk|reflexivity].
Qed.

Lemma oblivious_foldM {A B : Type} (f : A -> B -> M A) (l : list B) (a : A) :
  (forall a b, oblivious (f a b)) -> oblivious (foldM f l a).
Proof.
  intros Hf. revert a. induction l as [|b l IH]; intros a; simpl.
  - intros w w'. reflexivity.
  - apply oblivious_bind; auto.
Qed.

Section Always.

Context `{Collaborators}.

Lemma oblivious_predicatesFor (request matchers : value) :
  oblivious (predicatesFor request matchers).
Proof.
  unfold predicatesFor.
  apply oblivious_bind; [intros w w'; reflexivity|intros ms].
  apply oblivious_foldM. intros predicates matcher.
  apply oblivious_bind; [|intros pushed w w'; reflexivity].
  unfold generated.
  apply oblivious_bind; [intros w w'; reflexivity|intros injection].
  destruct (truthy injection); [|intros w w'; reflexivity].
  apply oblivious_bind; [intros w w'; reflexivity|intros _].
  destruct (evalPredicateGenerator injection request); intros w w'; reflexivity.
Qed.

Lemma predicatesFor_stubs (request matchers : value) (w : World) :
  stubs (snd (predicatesFor request matchers w)) = stubs w.
Proof.
  apply (keeps_predicatesFor (fun w w' => stubs w' = stubs w)); auto.
  intros w1 w2 w3 -> ->. reflexivity.
Qed.

(** Predicate generation that succeeds once succeeds alike in any world,
    and leaves the repository alone. *)
Lemma predicatesFor_again (request matchers : value) (preds : list value)
  (w0 w : World) :
  fst (predicatesFor request matchers w0) = Return preds ->
  exists w1, predicatesFor request matchers w = (Return preds, w1)
             /\ stubs w1 = stubs w.
Proof.
  intros Hpreds. exists (snd (predicatesFor request matchers w)).
  split; [|apply predicatesFor_stubs].
  rewrite (oblivious_predicatesFor _ _ w0 w) in Hpreds.
  destruct (predicatesFor request matchers w) as [c w1]. simpl in *.
  now subst.
Qed.

Lemma deepEqual_refl (v : value) : deepEqual v v = true.
Proof.
  unfold deepEqual. destruct (stringify v); auto. apply String.eqb_refl.
Qed.

Lemma firstHolding_app (responseConfig : value) (l l' : list Stub) :
  firstHolding responseConfig l < length l ->
  firstHolding responseConfig (l ++ l') = firstHolding responseConfig l.
Proof.
  induction l as [|stub l IH]; simpl; [lia|].
  destruct (existsb _ (responses stub)); auto.
  intros Hlt. rewrite IH; auto. lia.
Qed.

Lemma firstWith_range (wanted : value) (index : nat) (candidates : list Stub) :
  firstWith wanted index candidates = (-1)%Z \/
  (Z.of_nat index <= firstWith wanted index candidates
   < Z.of_nat (index + length candidates))%Z.
Proof.
  revert index. induction candidates as [|stub l IH]; intros index; simpl; auto.
  destruct (deepEqual wanted (predicates stub)); [right; lia|].
  destruct (IH (S index)) as [->|Hin]; [auto|right; lia].
Qed.

Lemma firstWith_app_miss (wanted : value) (index : nat) (l l' : list Stub) :
  firstWith wanted index l = (-1)%Z ->
  firstWith wanted index (l ++ l') = firstWith wanted (index + length l) l'.
Proof.
  revert index. induction l as [|stub l IH]; intros index; simpl.
  - intros _. f_equal. lia.
  - destruct (deepEqual wanted (predicates stub)); [lia|].
    intros Hmiss. rewrite IH; auto. f_equal. lia.
Qed.

Variables responseConfig proxyConfig generators request : value.
Variable preds : list value.
Hypothesis Hproxy : get responseConfig "proxy" = Return proxyConfig.
Hypothesis Hmode : get proxyConfig "mode" = Return (VStr "proxyAlways").
Hypothesis Hgenerators :
  get proxyConfig "predicateGenerators" = Return generators.

(** Where the scan of [indexOfStubToAddResponseTo] starts and what it
    compares: from the index after the first stub holding the config, the
    first stub whose predicates are deep-equal to the generated ones. *)
Lemma the_scan (w0 w : World) :
  fst (predicatesFor request (js_or generators (VArr [])) w0) = Return preds ->
  exists w1,
    indexOfStubToAddResponseTo responseConfig request w
    = (Return (firstWith (VArr preds)
                 (firstHolding responseConfig (stubs w) + 1)
                 (drop (firstHolding responseConfig (stubs w) + 1) (stubs w))),
       w1)
    /\ stubs w1 = stubs w.
Proof.
  intros Hpreds.
  destruct (predicatesFor_again _ _ _ _ w Hpreds) as (w1 & Hrun & Hstubs).
  exists w1. split; [|exact Hstubs].
  unfold indexOfStubToAddResponseTo, stubIndexFor.
  rewrite Hproxy, bind_lift_return, Hgenerators, bind_lift_return.
  rewrite (bind_returns _ _ _ _ _ Hrun).
  rewrite bind_reads, bind_assoc, bind_reads, bind_ret. unfold ret.
  now rewrite Hstubs.
Qed.

(** One recording in [proxyAlways] mode: the scan decides between
    appending to the stub it found and adding a new stub, which the
    repository is handed without the originating config. *)
Lemma record_always (w0 w : World) (response stubResponse : value) :
  fst (predicatesFor request (js_or generators (VArr [])) w0) = Return preds ->
  newIsResponse response proxyConfig = Return stubResponse ->
  let found :=
    firstWith (VArr preds) (firstHolding responseConfig (stubs w) + 1)
      (drop (firstHolding responseConfig (stubs w) + 1) (stubs w)) in
  exists w1,
    recordProxyResponse responseConfig request response w = (Return tt, w1)
    /\ stubs w1 =
       if (0 <=? found)%Z
       then addResponse (Z.to_nat found) stubResponse (stubs w)
       else addStub (mkStub (VArr preds) [stubResponse]) None (stubs w).
Proof.
  intros Hpreds Hresponse found.
  destruct (the_scan w0 w Hpreds) as (w1 & Hscan & Hstubs1). fold found in Hscan.
  unfold recordProxyResponse.
  rewrite Hproxy, bind_lift_return, Hmode, bind_lift_return.
  change (isString "proxyTransparent" (VStr "proxyAlways")) with false.
  change (isString "proxyAlways" (VStr "proxyAlways")) with true. cbv iota.
  unfold canAddResponseToExistingStub.
  rewrite bind_assoc, (bind_returns _ _ _ _ _ Hscan), !bind_ret.
  destruct (0 <=? found)%Z eqn:Hfound.
  - destruct (the_scan w0 w1 Hpreds) as (w2 & Hscan2 & Hstubs2).
    rewrite Hstubs1 in Hscan2. fold found in Hscan2.
    unfold addNewResponse.
    rewrite Hproxy, bind_lift_return, Hresponse, bind_lift_return.
    rewrite (bind_returns _ _ _ _ _ Hscan2), bind_reads, Hfound.
    assert (Hin : (Z.to_nat found <? length (stubs w2))%nat = true).
    { apply Nat.ltb_lt. rewrite Hstubs2, Hstubs1.
      destruct (firstWith_range (VArr preds)
                  (firstHolding responseConfig (stubs w) + 1)
                  (drop (firstHolding responseConfig (stubs w) + 1) (stubs w)))
        as [Hmiss|Hrange]; fold found in Hmiss || fold found in Hrange.
      - apply Z.leb_le in Hfound. lia.
      - rewrite length_drop in Hrange.
        destruct (Nat.le_gt_cases (firstHolding responseConfig (stubs w) + 1)
                    (length (stubs w))); lia. }
    rewrite Hin. simpl andb. cbv iota.
    eexists. split; [reflexivity|]. simpl. now rewrite Hstubs2, Hstubs1.
  - destruct (predicatesFor_again _ _ _ _ w1 Hpreds) as (w2 & Hrun & Hstubs2).
    unfold addNewStub.
    rewrite Hproxy, bind_lift_return, Hgenerators, bind_lift_return.
    rewrite (bind_returns _ _ _ _ _ Hrun).
    rewrite Hresponse, bind_lift_return, Hmode, bind_lift_return.
    change (isString "proxyAlways" (VStr "proxyAlways")) with true. cbv iota.
    eexists. split; [reflexivity|]. simpl. now rewrite Hstubs2, Hstubs1.
Qed.

Lemma scan_found_nothing (w : World) :
  fst (predicatesFor request (js_or generators (VArr [])) w) = Return preds ->
  fst (indexOfStubToAddResponseTo responseConfig request w) = Return (-1)%Z ->
  firstWith (VArr preds) (firstHolding responseConfig (stubs w) + 1)
    (drop (firstHolding responseConfig (stubs w) + 1) (stubs w)) = (-1)%Z.
Proof.
  intros Hpreds Hnone.
  destruct (the_scan w w Hpreds) as (w1 & Hscan & _).
  rewrite Hscan in Hnone. simpl in Hnone. congruence.
Qed.

(** Recording when the repository ends in a stub with the generated
    predicates and nothing between the origin and that stub has them. *)
Lemma record_extends (w0 w : World) (l : list Stub) (recorded : list value)
  (response stubResponse : value) :
  fst (predicatesFor request (js_or generators (VArr [])) w0) = Return preds ->
  newIsResponse response proxyConfig = Return stubResponse ->
  stubs w = (l ++ [mkStub (VArr preds) recorded])%list ->
  firstHolding responseConfig l < length l ->
  firstWith (VArr preds) (firstHolding responseConfig l + 1)
    (drop (firstHolding responseConfig l + 1) l) = (-1)%Z ->
  exists w1,
    recordProxyResponse responseConfig request response w = (Return tt, w1)
    /\ stubs w1 = (l ++ [mkStub (VArr preds) (recorded ++ [stubResponse])])%list.
Proof.
  intros Hpreds Hresponse Hstubs Horigin Hmiss.
  destruct (record_always w0 w response stubResponse Hpreds Hresponse)
    as (w1 & Hrun & Hstubs1).
  exists w1. split; [exact Hrun|].
  rewrite Hstubs1, Hstubs. rewrite firstHolding_app by exact Horigin.
  rewrite drop_app_le by lia.
  rewrite (firstWith_app_miss _ _ _ _ Hmiss). simpl firstWith.
  rewrite deepEqual_refl. rewrite length_drop.
  replace (firstHolding responseConfig l + 1
           + (length l - (firstHolding responseConfig l + 1))) with (length l)
    by lia.
  replace (0 <=? Z.of_nat (length l))%Z with true
    by (symmetry; apply Z.leb_le; lia).
  rewrite Nat2Z.id. unfold addResponse.
  replace (length l) with (length l + 0) at 1 by lia.
  now rewrite alter_app_r.
Qed.

(** An index from which the scan finds nothing is followed by no stub
    with the wanted predicates. *)
Lemma firstWith_miss_head (wanted : value) (index : nat) (stub : Stub)
  (rest : list Stub) :
  firstWith wanted index (stub :: rest) = (-1)%Z ->
  deepEqual wanted (predicates stub) = false.
Proof.
  simpl. destruct (deepEqual wanted (predicates stub)); [lia|reflexivity].
Qed.

(** Where the two ways of handing a stub to the repository agree: the
    stub named after the origin lands last exactly when nothing follows
    the origin, provided the stub differs from the one that follows. *)
Lemma addStub_last (stub : Stub) (config : value) (l : list Stub) :
  (forall next, drop (S (firstHolding config l)) l !! 0 = Some next ->
                next <> stub) ->
  addStub stub (Some config) l = addStub stub None l
  <-> length l <= S (firstHolding config l).
Proof.
  intros Hnext. unfold addStub.
  set (index := firstHolding config l) in *. split.
  - intros Hsame.
    destruct (Nat.le_gt_cases (length l) (S index)) as [|Hlt]; [assumption|].
    exfalso.
    rewrite <- (take_drop (S index) l) in Hsame at 3.
    rewrite <- app_assoc in Hsame. apply app_inv_head in Hsame.
    destruct (drop (S index) l) as [|next rest] eqn:Hdrop.
    + apply (f_equal length) in Hdrop. rewrite length_drop in Hdrop.
      simpl in Hdrop. lia.
    + simpl in Hsame. injection Hsame as Hhead _.
      now apply (Hnext next eq_refl).
  - intros Hlast. rewrite take_ge, drop_ge by lia. reflexivity.
Qed.

(** C1, as the code has it. In [proxyAlways] mode, when the scan finds no
    stub with the generated predicates, [addNewStub] hands the new stub to
    the repository without the originating config, which only the other
    modes pass on: the new stub goes to the end of the repository.  That
    is the place right after the origin, where the other modes put it,
    exactly when no stub follows the origin (or no stub holds the
    config). *)
Theorem always_adds_the_new_stub_last (w : World)
  (response stubResponse : value) :
  fst (predicatesFor request (js_or generators (VArr [])) w) = Return preds ->
  newIsResponse response proxyConfig = Return stubResponse ->
  fst (indexOfStubToAddResponseTo responseConfig request w) = Return (-1)%Z ->
  exists w1,
    recordProxyResponse responseConfig request response w = (Return tt, w1)
    /\ stubs w1 = addStub (mkStub (VArr preds) [stubResponse]) None (stubs w)
    /\ stubs w1 = (stubs w ++ [mkStub (VArr preds) [stubResponse]])%list
    /\ (stubs w1
        = addStub (mkStub (VArr preds) [stubResponse]) (Some responseConfig)
            (stubs w)
        <-> length (stubs w) <= S (firstHolding responseConfig (stubs w))).
Proof.
  intros Hpreds Hresponse Hnone.
  destruct (record_always w w response stubResponse Hpreds Hresponse)
    as (w1 & Hrun & Hstubs1).
  pose proof (scan_found_nothing w Hpreds Hnone) as Hmiss.
  rewrite Hmiss in Hstubs1.
  exists w1. split; [exact Hrun|]. split; [exact Hstubs1|].
  split; [exact Hstubs1|].
  rewrite Hstubs1. cbv iota.
  split; intros Hsame.
  - apply (addStub_last (mkStub (VArr preds) [stubResponse]) responseConfig).
    + intros next Hnext ->.
      rewrite Nat.add_1_r in Hmiss.
      destruct (drop (S (firstHolding responseConfig (stubs w))) (stubs w))
        as [|first rest]; [discriminate|].
      injection Hnext as ->.
      apply firstWith_miss_head in Hmiss. simpl in Hmiss.
      now rewrite deepEqual_refl in Hmiss.
    + now symmetry.
  - symmetry.
    apply (addStub_last (mkStub (VArr preds) [stubResponse]) responseConfig);
      [|exact Hsame].
    intros next Hnext. rewrite drop_ge in Hnext by lia. discriminate.
Qed.

(** C2. In [proxyAlways] mode, three recordings of a request that
    generates the same predicates, from a repository that holds the
    originating config and has no stub with these predicates after it:
    the first adds one stub, the second and the third append to it, and
    the repository ends with that one stub holding the three responses in
    order.  The scan starts at the index after the first stub holding the
    originating config and compares predicates by deep equality. *)
Theorem three_recordings_make_one_stub (w : World)
  (r1 r2 r3 s1 s2 s3 : value) :
  fst (predicatesFor request (js_or generators (VArr [])) w) = Return preds ->
  firstHolding responseConfig (stubs w) < length (stubs w) ->
  fst (indexOfStubToAddResponseTo responseConfig request w) = Return (-1)%Z ->
  newIsResponse r1 proxyConfig = Return s1 ->
  newIsResponse r2 proxyConfig = Return s2 ->
  newIsResponse r3 proxyConfig = Return s3 ->
  (forall w' : World,
     fst (indexOfStubToAddResponseTo responseConfig request w')
     = Return (firstWith (VArr preds)
                 (firstHolding responseConfig (stubs w') + 1)
                 (drop (firstHolding responseConfig (stubs w') + 1) (stubs w'))))
  /\ exists w1 w2 w3 : World,
      recordProxyResponse responseConfig request r1 w = (Return tt, w1)
      /\ stubs w1 = (stubs w ++ [mkStub (VArr preds) [s1]])%list
      /\ recordProxyResponse responseConfig request r2 w1 = (Return tt, w2)
      /\ stubs w2 = (stubs w ++ [mkStub (VArr preds) [s1; s2]])%list
      /\ recordProxyResponse responseConfig request r3 w2 = (Return tt, w3)
      /\ stubs w3 = (stubs w ++ [mkStub (VArr preds) [s1; s2; s3]])%list.
Proof.
  intros Hpreds Horigin Hnone H1 H2 H3. split.
  - intros w'. destruct (the_scan w w' Hpreds) as (w1 & Hscan & _).
    now rewrite Hscan.
  - pose proof (scan_found_nothing w Hpreds Hnone) as Hmiss.
    destruct (record_always w w r1 s1 Hpreds H1) as (w1 & Hrun1 & Hstubs1).
    rewrite Hmiss in Hstubs1. simpl in Hstubs1.
    destruct (record_extends w w1 (stubs w) [s1] r2 s2 Hpreds H2 Hstubs1
                Horigin Hmiss) as (w2 & Hrun2 & Hstubs2).
    destruct (record_extends w w2 (stubs w) [s1; s2] r3 s3 Hpreds H3 Hstubs2
                Horigin Hmiss) as (w3 & Hrun3 & Hstubs3).
    exists w1, w2, w3. auto 10.
Qed.

End Always.

(** ** Further properties of the dispatch *)

Section Further.

Context `{Collaborators}.
Variable proxy : option Transport.
Variable callbackURL : string.

(** X1. A static config: [resolve] changes nothing in the world and hands the
    configured payload to the behavior pipeline; without an in-process
    proxy the outcome is wrapped as [{ response }]. *)
Theorem static_resolve
  (fs : list (string * value)) (request imposterState options : value)
  (w : World) :
  truthy (field "is" fs) = true ->
  truthy (field "proxy" fs) = false ->
  truthy (field "inject" fs) = false ->
  resolve proxy callbackURL (VObj fs) request imposterState options w
  = (Return (mkResolution (VObj fs)
               match behaviors_execute request (field "is" fs)
                       (field "_behaviors" fs) with
               | Settles d (Fulfils v) =>
                   Settles d (Fulfils (if inProcessProxy proxy then v
                                       else VObj [("response", v)]))
               | Settles d (Rejects e) => Settles d (Rejects e)
               | Never => Never
               end),
     w).
Proof.
  intros His Hproxy Hinject.
  assert (Hprocess :
    processResponse proxy callbackURL (VObj fs) request imposterState options w
    = (Return (mkResolution (VObj fs) (Q (field "is" fs))), w)).
  { unfold processResponse. simpl get. unfold bind at 1, lift at 1.
    now rewrite His. }
  unfold resolve, hasMultipleTypes. simpl get.
  unfold cbind. unfold bind at 1, lift at 1.
  rewrite !truthy_js_or, !truthy_js_and, His, Hproxy, Hinject.
  cbn [andb orb]. unfold clone at 1.
  rewrite (bind_returns _ _ w w _ Hprocess). simpl configAfter. simpl promise.
  unfold bind, andThen, lift, ret, Q. simpl. rewrite Hproxy.
  destruct (behaviors_execute request (field "is" fs) (field "_behaviors" fs))
    as [d [v|e]|]; try reflexivity.
  destruct (inProcessProxy proxy); rewrite ?Hproxy, N.add_0_r; reflexivity.
Qed.

(** X2. Response logic that raises: the fault is caught and logged in
    three lines, and [resolve] rejects with an injection error carrying
    the source text and the fault's message.  The repository and the
    pending resolutions are as before. *)
Theorem faulty_injection_is_rejected
  (fs : list (string * value)) (request imposterState options dry : value)
  (fault : string) (w : World) :
  truthy (field "is" fs) = false ->
  truthy (field "proxy" fs) = false ->
  truthy (field "inject" fs) = true ->
  get request "isDryRun" = Return dry ->
  isTrue dry = false ->
  evalInjection (field "inject" fs) request imposterState = Raised fault ->
  let injected :=
    "(" ++ toText (field "inject" fs) ++
    ")(config, injectState, logger, deferred.resolve, imposterState);" in
  exists w' : World,
    resolve proxy callbackURL (VObj fs) request imposterState options w
    = (Return (mkResolution (VObj fs)
                 (Q_reject (mkError InjectionError "invalid response injection"
                              (VStr injected) (VStr fault)))),
       w')
    /\ stubs w' = stubs w
    /\ pendingProxyResolutions w' = pendingProxyResolutions w
    /\ nextProxyResolutionKey w' = nextProxyResolutionKey w
    /\ evaluated w' = (evaluated w ++ [injected])%list
    /\ map text (errorLog w')
       = (map text (errorLog w)
          ++ ["injection X=> "; "    full source: "; "    config: "])%list.
Proof.
  intros His Hproxy Hinject Hdry Hlive Hfault injected.
  assert (Hrun : inject request (field "inject" fs) imposterState w
                 = (Return (Q_reject (mkError InjectionError
                                        "invalid response injection"
                                        (VStr injected) (VStr fault))),
                    withErrorLog
                      (withEvaluated w (evaluated w ++ [injected])%list)
                      (errorLog w ++
                       [mkLog "injection X=> " (VStr fault);
                        mkLog "    full source: " (VStr injected);
                        mkLog "    config: " request])%list)).
  { unfold inject. rewrite Hdry. run. rewrite Hlive.
    unfold evaluating, logError. run. unfold clone. rewrite Hfault.
    run. unfold ret. cbn. rewrite <- !app_assoc. reflexivity. }
  assert (Hprocess :
    processResponse proxy callbackURL (VObj fs) request imposterState options w
    = (Return (mkResolution (VObj fs)
                 (Q_reject (mkError InjectionError "invalid response injection"
                              (VStr injected) (VStr fault)))),
       withErrorLog (withEvaluated w (evaluated w ++ [injected])%list)
         (errorLog w ++
          [mkLog "injection X=> " (VStr fault);
           mkLog "    full source: " (VStr injected);
           mkLog "    config: " request])%list)).
  { unfold processResponse. simpl get. unfold bind at 1, lift at 1.
    rewrite His. unfold bind at 1, lift at 1. rewrite Hproxy.
    unfold bind at 1, lift at 1. rewrite Hinject.
    rewrite (bind_returns _ _ _ _ _ Hrun). reflexivity. }
  eexists. split.
  - unfold resolve, hasMultipleTypes. simpl get.
    unfold cbind. unfold bind at 1, lift at 1.
    rewrite !truthy_js_or, !truthy_js_and, His, Hproxy. cbn [andb orb].
    unfold clone at 1.
    rewrite (bind_returns _ _ _ _ _ Hprocess). reflexivity.
  - cbn. rewrite map_app. auto.
Qed.

(** X3. A key whose completion was fulfilled is unknown afterwards: presented
    again, it is answered as a missing resource. *)
Theorem consumed_key_is_unknown
  (proxyResponse again : value) (proxyResolutionKey : string) (d : N)
  (v : value) (w w' : World) :
  resolveProxy callbackURL proxyResponse proxyResolutionKey w
  = (Return (Settles d (Fulfils v)), w') ->
  resolveProxy callbackURL again proxyResolutionKey w'
  = (Return (Q_reject (mkError MissingResourceError "invalid proxy resolution key"
                         (VStr (callbackURL ++ "/" ++ proxyResolutionKey))
                         VUndefined)),
     withErrorLog w'
       (errorLog w' ++
        [mkLog ("Invalid proxy resolution key: " ++ proxyResolutionKey)
               VUndefined])).
Proof.
  intros Hfirst.
  destruct (completion callbackURL _ _ _ _ _ Hfirst)
    as (_ & key & -> & _ & Hgone).
  apply resolveProxy_missing.
  now rewrite pendingAt_decimal, Hgone, lookup_delete_eq.
Qed.

(** Recording in a mode other than [proxyAlways] and [proxyTransparent]. *)
Lemma record_in_other_modes
  (responseConfig proxyConfig mode generators request response stubResponse
     : value)
  (preds : list value) (w0 w : World) :
  get responseConfig "proxy" = Return proxyConfig ->
  get proxyConfig "mode" = Return mode ->
  isString "proxyTransparent" mode = false ->
  isString "proxyAlways" mode = false ->
  get proxyConfig "predicateGenerators" = Return generators ->
  fst (predicatesFor request (js_or generators (VArr [])) w0) = Return preds ->
  newIsResponse response proxyConfig = Return stubResponse ->
  exists w1 : World,
    recordProxyResponse responseConfig request response w = (Return tt, w1)
    /\ stubs w1 = addStub (mkStub (VArr preds) [stubResponse])
                    (Some responseConfig) (stubs w).
Proof.
  intros Hproxy Hmode Htransparent Halways Hgenerators Hpreds Hresponse.
  destruct (predicatesFor_again _ _ _ w0 w Hpreds) as (w1 & Hrun & Hstubs).
  unfold recordProxyResponse.
  rewrite Hproxy, bind_lift_return, Hmode, bind_lift_return, Htransparent,
    Halways, bind_ret.
  unfold addNewStub.
  rewrite Hproxy, bind_lift_return, Hgenerators, bind_lift_return.
  rewrite (bind_returns _ _ _ _ _ Hrun).
  rewrite Hresponse, bind_lift_return, Hmode, bind_lift_return, Halways.
  eexists. split; [reflexivity|]. simpl. now rewrite Hstubs.
Qed.

(** X4. In every mode but [proxyAlways] and [proxyTransparent], recording
    never extends a stub: it hands a new stub to the repository together
    with the originating config. *)
Theorem other_modes_always_add_a_stub
  (responseConfig proxyConfig mode generators request response stubResponse
     : value)
  (preds : list value) (w : World) :
  get responseConfig "proxy" = Return proxyConfig ->
  get proxyConfig "mode" = Return mode ->
  isString "proxyTransparent" mode = false ->
  isString "proxyAlways" mode = false ->
  get proxyConfig "predicateGenerators" = Return generators ->
  fst (predicatesFor request (js_or generators (VArr [])) w) = Return preds ->
  newIsResponse response proxyConfig = Return stubResponse ->
  exists w1 : World,
    recordProxyResponse responseConfig request response w = (Return tt, w1)
    /\ stubs w1 = addStub (mkStub (VArr preds) [stubResponse])
                    (Some responseConfig) (stubs w).
Proof. intros. eapply record_in_other_modes; eauto. Qed.

End Further.

(** ** Further outcomes of the dispatch *)

Section Outcomes.

Context `{Collaborators}.
Variable callbackURL : string.

Lemma resolve_without_proxy (proxy : option Transport)
  (fs : list (string * value))
  (request imposterState options : value) (p : Promise) (w w' : World) :
  truthy (field "is" fs) && truthy (field "inject" fs) = false ->
  truthy (field "proxy" fs) = false ->
  processResponse proxy callbackURL (VObj fs) request imposterState options w
  = (Return (mkResolution (VObj fs) p), w') ->
  resolve proxy callbackURL (VObj fs) request imposterState options w
  = (Return (mkResolution (VObj fs)
               (afterwards proxy (field "_behaviors" fs) request p)), w').
Proof.
  intros Hboth Hproxy Hprocess.
  unfold resolve, hasMultipleTypes. simpl get.
  unfold cbind. unfold bind at 1, lift at 1.
  rewrite !truthy_js_or, !truthy_js_and, Hproxy, Hboth, !andb_false_r.
  cbn [andb orb]. unfold clone at 1.
  rewrite (bind_returns _ _ _ _ _ Hprocess). simpl configAfter. simpl promise.
  unfold bind, andThen, lift, ret, Q, afterwards. simpl. rewrite Hproxy.
  destruct p as [d [v|e]|]; try reflexivity.
  destruct (behaviors_execute request v (field "_behaviors" fs))
    as [d' [v'|e']|]; try reflexivity.
  destruct (inProcessProxy proxy); rewrite ?Hproxy, N.add_0_r; reflexivity.
Qed.

(** X5. A config with none of [is], [proxy] and [inject] set: [resolve]
    rejects with a validation error naming the config, and the world is
    as before. *)
Theorem unrecognized_response_type (proxy : option Transport)
  (responseConfig request imposterState options : value) (w : World) :
  responseConfig <> VUndefined ->
  responseConfig <> VNull ->
  typesSet responseConfig = 0 ->
  resolve proxy callbackURL responseConfig request imposterState options w
  = (Return (mkResolution responseConfig
               (Q_reject (mkError ValidationError "unrecognized response type"
                            responseConfig VUndefined))),
     w).
Proof.
  intros Hundefined Hnull Hnone.
  assert (Hread : forall k, exists v,
             get responseConfig k = Return v /\ truthy v = isSet responseConfig k).
  { intros k. unfold isSet.
    destruct responseConfig; try congruence; simpl;
      try (destruct (String.eqb k "length")); eauto. }
  destruct (Hread "is") as (payload & Gis & Tis).
  destruct (Hread "proxy") as (proxyConfig & Gproxy & Tproxy).
  destruct (Hread "inject") as (fn & Ginject & Tinject).
  unfold typesSet in Hnone.
  destruct (isSet responseConfig "is"), (isSet responseConfig "proxy"),
    (isSet responseConfig "inject"); simpl in Hnone; try lia.
  unfold resolve, hasMultipleTypes. rewrite Gis, Gproxy, Ginject.
  cbn [cbind]. rewrite bind_lift_return.
  rewrite !truthy_js_or, !truthy_js_and, Tis, Tproxy, Tinject. cbn [andb orb].
  unfold processResponse.
  rewrite Gis, Gproxy, Ginject.
  rewrite !bind_assoc, bind_lift_return, Tis, !bind_assoc, bind_lift_return,
    Tproxy, !bind_assoc, bind_lift_return, Tinject, bind_ret.
  cbn [configAfter promise]. unfold Q_reject, andThen.
  rewrite !bind_ret. reflexivity.
Qed.


(** A returned value and a value handed to the completion callback are
    the response alike; logic that does neither leaves the promise
    unsettled. *)
Lemma inject_live (request fn imposterState dry : value) (w : World) :
  get request "isDryRun" = Return dry ->
  isTrue dry = false ->
  (forall fault, evalInjection fn request imposterState <> Raised fault) ->
  inject request fn imposterState w
  = (Return match evalInjection fn request imposterState with
            | Returned response | CalledBack response => Q response
            | _ => Never
            end,
     withEvaluated w
       (evaluated w ++
        ["(" ++ toText fn ++
         ")(config, injectState, logger, deferred.resolve, imposterState);"])).
Proof.
  intros Hdry Hlive Hquiet. unfold inject. rewrite Hdry, bind_lift_return, Hlive.
  unfold evaluating. rewrite bind_modify. unfold clone.
  destruct (evalInjection fn request imposterState) as [v|v|fault|];
    try reflexivity.
  now destruct (Hquiet fault).
Qed.

(** X6. A dynamic config on a live request whose logic does not raise:
    the value the logic returns, or hands to the completion callback,
    goes through the behavior pipeline and the wrapper; logic that does
    neither leaves the promise of [resolve] unsettled.  Only the source
    text is evaluated; the repository and the pending resolutions are as
    before. *)
Theorem dynamic_resolve (proxy : option Transport)
  (fs : list (string * value)) (request imposterState options dry : value)
  (w : World) :
  truthy (field "is" fs) = false ->
  truthy (field "proxy" fs) = false ->
  truthy (field "inject" fs) = true ->
  get request "isDryRun" = Return dry ->
  isTrue dry = false ->
  (forall fault,
      evalInjection (field "inject" fs) request imposterState <> Raised fault) ->
  resolve proxy callbackURL (VObj fs) request imposterState options w
  = (Return (mkResolution (VObj fs)
               match evalInjection (field "inject" fs) request imposterState with
               | Returned response | CalledBack response =>
                   afterwards proxy (field "_behaviors" fs) request (Q response)
               | _ => Never
               end),
     withEvaluated w
       (evaluated w ++
        ["(" ++ toText (field "inject" fs) ++
         ")(config, injectState, logger, deferred.resolve, imposterState);"])).
Proof.
  intros His Hproxy Hinject Hdry Hlive Hquiet.
  pose proof (inject_live request (field "inject" fs) imposterState dry w
                Hdry Hlive Hquiet) as Hrun.
  set (p := match evalInjection (field "inject" fs) request imposterState with
            | Returned response | CalledBack response => Q response
            | _ => Never
            end) in Hrun.
  assert (Hprocess :
    processResponse proxy callbackURL (VObj fs) request imposterState options w
    = (Return (mkResolution (VObj fs) p),
       withEvaluated w
         (evaluated w ++
          ["(" ++ toText (field "inject" fs) ++
           ")(config, injectState, logger, deferred.resolve, imposterState);"]))).
  { unfold processResponse. simpl get. unfold bind at 1, lift at 1.
    rewrite His. unfold bind at 1, lift at 1. rewrite Hproxy.
    unfold bind at 1, lift at 1. rewrite Hinject.
    rewrite (bind_returns _ _ _ _ _ Hrun).
    rewrite (bind_returns _ _ _ _ _ (andThen_Q _ _)). reflexivity. }
  rewrite (resolve_without_proxy proxy fs request imposterState options p _ _
             ltac:(now rewrite His) Hproxy Hprocess).
  unfold p.
  destruct (evalInjection (field "inject" fs) request imposterState);
    reflexivity.
Qed.

Lemma andThen_fulfilled (d : N) (v : value) (callback : value -> M Promise)
  (w : World) :
  andThen (Settles d (Fulfils v)) callback w
  = match callback v w with
    | (Return (Settles d' s), w') => (Return (Settles (d + d') s), w')
    | (Return Never, w') => (Return Never, w')
    | (Throw e, w') => (Return (Settles d (Rejects e)), w')
    end.
Proof. reflexivity. Qed.

(** The in-process exchange, step by step: the transport is called once
    and the clock moves by the time it took; a fulfilled answer is
    stamped with that time, handed to the behavior pipeline and then
    recorded. *)
Lemma in_process_exchange (transport : Transport)
  (fs pfs : list (string * value)) (request requestDetails : value)
  (dt : Z) (answer : Promise) (w : World) :
  field "proxy" fs = VObj pfs ->
  knownMode (field "mode" pfs) = true ->
  transport (field "to" pfs) request (VObj pfs) requestDetails = (dt, answer) ->
  proxyAndRecord (Some transport) callbackURL (VObj fs) request requestDetails w
  = match answer with
    | Settles d (Fulfils response) =>
        match set response "_proxyResponseTime" (VNum dt) with
        | Return stamped =>
            match behaviors_execute request stamped (field "_behaviors" fs) with
            | Settles d' (Fulfils decorated) =>
                match recordProxyResponse (VObj fs) request decorated
                        (withClock w (clock w + dt)) with
                | (Return _, w1) =>
                    (Return (mkResolution (VObj fs)
                               (Settles (d + d') (Fulfils decorated))), w1)
                | (Throw e, w1) =>
                    (Return (mkResolution (VObj fs)
                               (Settles (d + d') (Rejects e))), w1)
                end
            | Settles d' (Rejects e) =>
                (Return (mkResolution (VObj fs) (Settles (d + d') (Rejects e))),
                 withClock w (clock w + dt))
            | Never =>
                (Return (mkResolution (VObj fs) Never),
                 withClock w (clock w + dt))
            end
        | Throw e =>
            (Return (mkResolution (VObj fs) (Settles d (Rejects e))),
             withClock w (clock w + dt))
        end
    | _ => (Return (mkResolution (VObj fs) answer), withClock w (clock w + dt))
    end.
Proof.
  intros Hproxy Hmode Hanswer.
  unfold proxyAndRecord. run. rewrite Hproxy. run. rewrite Hmode.
  cbn [negb]. run. rewrite Hproxy. run. rewrite Hanswer. cbn [fst snd]. run.
  destruct answer as [d [response|e]|]; try reflexivity.
  rewrite bind_run, andThen_fulfilled, bind_reads. cbn [clock withClock].
  replace (clock w + dt - clock w)%Z with dt by lia.
  destruct (set response "_proxyResponseTime" (VNum dt)) as [stamped|e].
  - rewrite !bind_lift_return. cbv beta iota delta [ret fst snd].
    destruct (behaviors_execute request stamped (field "_behaviors" fs))
      as [d' [decorated|e]|]; cbv beta iota delta [bind andThen ret fst snd];
      try reflexivity.
    destruct (recordProxyResponse (VObj fs) request decorated
                (withClock w (clock w + dt))) as [[[]|e] w1];
      cbv beta iota delta [Q]; [now rewrite N.add_0_r|reflexivity].
  - rewrite bind_lift_throw. reflexivity.
Qed.

(** With a proxy section on the config, [resolve] hands on what the
    exchange answered: no second run of the behavior pipeline and no
    wrapper. *)
Lemma resolve_with_proxy (proxy : option Transport)
  (fs : list (string * value))
  (request imposterState options : value) (p : Promise) (w w' : World) :
  truthy (field "is" fs) = false ->
  truthy (field "inject" fs) = false ->
  truthy (field "proxy" fs) = true ->
  proxyAndRecord proxy callbackURL (VObj fs) request options w
  = (Return (mkResolution (VObj fs) p), w') ->
  resolve proxy callbackURL (VObj fs) request imposterState options w
  = (Return (mkResolution (VObj fs) p), w').
Proof.
  intros His Hinject Hproxy Hrun.
  unfold resolve, hasMultipleTypes. simpl get.
  unfold cbind. unfold bind at 1, lift at 1.
  rewrite !truthy_js_or, !truthy_js_and, His, Hinject, !andb_false_r.
  cbn [andb orb]. unfold clone at 1.
  rewrite (bind_returns _ _ _ _ _
             (eq_trans (processResponse_proxy callbackURL proxy fs request
                          imposterState options w His Hproxy) Hrun)).
  simpl configAfter. simpl promise.
  unfold bind, andThen, lift, ret, Q. simpl. rewrite Hproxy.
  destruct p as [d [v|e]|]; try reflexivity.
  destruct (inProcessProxy proxy); rewrite ?Hproxy, !N.add_0_r; reflexivity.
Qed.


(** X8. With an in-process proxy the transport is called once; its
    response is stamped with the milliseconds the call took, goes through
    the behavior pipeline once, and what comes out is both what is
    recorded and what [resolve] fulfils with, unwrapped.  When recording
    raises, [resolve] rejects with that error. *)
Theorem exchange_is_recorded_as_answered (transport : Transport)
  (fs pfs rfs : list (string * value))
  (request imposterState requestDetails decorated : value)
  (dt : Z) (d d' : N) (w : World) :
  field "proxy" fs = VObj pfs ->
  knownMode (field "mode" pfs) = true ->
  truthy (field "is" fs) = false ->
  truthy (field "inject" fs) = false ->
  transport (field "to" pfs) request (VObj pfs) requestDetails
  = (dt, Settles d (Fulfils (VObj rfs))) ->
  behaviors_execute request
    (VObj (setField "_proxyResponseTime" (VNum dt) rfs)) (field "_behaviors" fs)
  = Settles d' (Fulfils decorated) ->
  let recorded :=
    recordProxyResponse (VObj fs) request decorated
      (withClock w (clock w + dt)) in
  resolve (Some transport) callbackURL (VObj fs) request imposterState
    requestDetails w
  = (Return (mkResolution (VObj fs)
               (Settles (d + d')
                  match fst recorded with
                  | Return _ => Fulfils decorated
                  | Throw e => Rejects e
                  end)),
     snd recorded).
Proof.
  intros Hproxy Hmode His Hinject Hanswer Hbehaviors recorded.
  apply resolve_with_proxy; auto; [now rewrite Hproxy|].
  rewrite (in_process_exchange transport fs pfs request requestDetails dt _ w
             Hproxy Hmode Hanswer).
  cbn [set]. rewrite Hbehaviors. fold recorded.
  destruct recorded as [[[]|e] w1]; reflexivity.
Qed.

End Outcomes.

(** ** What recording does to the repository, and when *)

Section Recording.

Context `{Collaborators}.

Lemma sameStubs_predicatesFor (request matchers : value) :
  keeps sameStubs (predicatesFor request matchers).
Proof.
  apply keeps_predicatesFor; unfold sameStubs; auto.
  intros w1 w2 w3 H12 H23. congruence.
Qed.

Lemma sameStubs_indexOfStubToAddResponseTo (responseConfig request : value) :
  keeps sameStubs (indexOfStubToAddResponseTo responseConfig request).
Proof.
  apply keeps_indexOfStubToAddResponseTo; unfold sameStubs; auto.
  intros w1 w2 w3 H12 H23. congruence.
Qed.

Lemma allOrNothing_bind {A B : Type} (m : M A) (k : A -> M B) :
  keeps sameStubs m -> (forall a, allOrNothing (k a)) ->
  allOrNothing (bind m k).
Proof.
  intros Hm Hk w w' e. rewrite bind_run. specialize (Hm w). unfold sameStubs in Hm.
  destruct (m w) as [[a|e0] w1]; simpl in *.
  - intros Hrun. rewrite (Hk a _ _ _ Hrun). exact Hm.
  - intros E. inversion E; subst. exact Hm.
Qed.

Lemma allOrNothing_lift_bind {A B : Type} (c : Completion A) (k : A -> M B) :
  (forall a, allOrNothing (k a)) -> allOrNothing (bind (lift c) k).
Proof. intros Hk. apply allOrNothing_bind; auto. intros w. reflexivity. Qed.

Lemma allOrNothing_modify (f : World -> World) : allOrNothing (modify f).
Proof. intros w w' e. discriminate. Qed.

Lemma allOrNothing_ret {A : Type} (a : A) : allOrNothing (ret a).
Proof. intros w w' e. discriminate. Qed.

Lemma allOrNothing_raise {A : Type} (e : Error) : allOrNothing (@raise A e).
Proof. intros w w' e'. unfold raise. intros E. inversion E; subst. reflexivity. Qed.

Lemma allOrNothing_recordProxyResponse
  (responseConfig request response : value) :
  allOrNothing (recordProxyResponse responseConfig request response).
Proof.
  unfold recordProxyResponse.
  apply allOrNothing_lift_bind. intros proxyConfig.
  apply allOrNothing_lift_bind. intros mode.
  destruct (isString "proxyTransparent" mode); [apply allOrNothing_ret|].
  apply allOrNothing_bind.
  { destruct (isString "proxyAlways" mode); [|intros w; reflexivity].
    unfold canAddResponseToExistingStub. intros w. rewrite bind_run.
    pose proof (sameStubs_indexOfStubToAddResponseTo responseConfig request w)
      as Hscan.
    destruct (indexOfStubToAddResponseTo responseConfig request w)
      as [[index|e] w1]; exact Hscan. }
  intros [|].
  - unfold addNewResponse.
    apply allOrNothing_lift_bind. intros proxyConfig'.
    apply allOrNothing_lift_bind. intros stubResponse.
    apply allOrNothing_bind;
      [apply sameStubs_indexOfStubToAddResponseTo|intros responseIndex].
    apply allOrNothing_bind; [intros w; reflexivity|intros stubList].
    destruct (_ && _); [apply allOrNothing_modify|apply allOrNothing_raise].
  - unfold addNewStub.
    apply allOrNothing_lift_bind. intros proxyConfig'.
    apply allOrNothing_lift_bind. intros generators.
    apply allOrNothing_bind; [apply sameStubs_predicatesFor|intros predicates].
    apply allOrNothing_lift_bind. intros stubResponse.
    apply allOrNothing_lift_bind. intros mode'.
    destruct (isString "proxyAlways" mode'); apply allOrNothing_modify.
Qed.

(** X10. Recording is all or nothing: when [recordProxyResponse] raises
    (a faulty predicate generator, a malformed config or response), the
    repository is as it was before the call. *)
Theorem failed_recording_leaves_the_repository
  (responseConfig request response : value) (e : Error) (w w' : World) :
  recordProxyResponse responseConfig request response w = (Throw e, w') ->
  stubs w' = stubs w.
Proof. apply allOrNothing_recordProxyResponse. Qed.

Lemma sameStubs_andThen (p : Promise) (callback : value -> M Promise) :
  (forall v, keeps sameStubs (callback v)) ->
  keeps sameStubs (andThen p callback).
Proof.
  apply keeps_andThen; unfold sameStubs; auto.
Qed.

Lemma sameStubs_bind {A B : Type} (m : M A) (k : A -> M B) :
  keeps sameStubs m -> (forall a, keeps sameStubs (k a)) ->
  keeps sameStubs (bind m k).
Proof.
  apply keeps_bind; unfold sameStubs; auto.
  intros w1 w2 w3 H12 H23. congruence.
Qed.

Section Exchange.

Variable proxy : option Transport.
Variable callbackURL : string.

(** The exchange of a config taken as it is changes the repository only
    by a recording that returned, and then its promise is fulfilled. *)
Lemma proxyAndRecord_records_when_fulfilled
  (responseConfig proxyConfig request requestDetails : value) (w : World) :
  get responseConfig "proxy" = Return proxyConfig ->
  truthy proxyConfig = true ->
  modeGiven responseConfig = true ->
  stubs (snd (proxyAndRecord proxy callbackURL responseConfig request
                requestDetails w)) = stubs w
  \/ (inProcessProxy proxy = true /\
      exists (after proxyConfig' : value) (d : N) (v : value),
        fst (proxyAndRecord proxy callbackURL responseConfig request
               requestDetails w)
        = Return (mkResolution after (Settles d (Fulfils v)))
        /\ get after "proxy" = Return proxyConfig'
        /\ truthy proxyConfig' = true).
Proof.
  intros Hget Htruthy Hgiven.
  assert (Htail : forall (startTime : Z) (after proxyConfig' : value),
    get after "proxy" = Return proxyConfig' ->
    truthy proxyConfig' = true ->
    let tail :=
      match proxy with
      | Some transport =>
          let* to := lift (get proxyConfig' "to") in
          let answer := transport to request proxyConfig' requestDetails in
          exec modify (fun w => withClock w (clock w + fst answer)%Z) in
          let* decorated :=
            andThen (snd answer) (fun response =>
              let* now := reads clock in
              let* response :=
                lift (set response "_proxyResponseTime"
                        (VNum (now - startTime))) in
              let* behaviors := lift (get after "_behaviors") in
              ret (behaviors_execute request response behaviors)) in
          let* recorded :=
            andThen decorated (fun response =>
              exec recordProxyResponse after request response in
              ret (Q response)) in
          ret (mkResolution after recorded)
      | None =>
          let* key := reads nextProxyResolutionKey in
          let* now := reads clock in
          exec modify (fun w =>
                 withPending w
                   (<[key := mkPending after request now requestDetails]>
                      (pendingProxyResolutions w))
                   (key + 1)) in
          let* next := reads nextProxyResolutionKey in
          ret (mkResolution after
                 (Q (VObj [("proxy", proxyConfig');
                           ("request", request);
                           ("callbackURL",
                            VStr (callbackURL ++ "/" ++ decimal (next - 1)))])))
      end in
    stubs (snd (tail w)) = stubs w
    \/ (inProcessProxy proxy = true /\
        exists (d : N) (v : value),
          fst (tail w) = Return (mkResolution after (Settles d (Fulfils v))))).
  { intros startTime after proxyConfig' Hafter Htruthy' tail. unfold tail.
    destruct proxy as [transport|]; [|left; reflexivity].
    destruct (get proxyConfig' "to") as [to|e];
      [rewrite bind_lift_return|rewrite bind_lift_throw; left; reflexivity].
    destruct (transport to request proxyConfig' requestDetails) as [dt answer].
    rewrite bind_modify. cbn [fst snd].
    set (w0 := withClock w (clock w + dt)).
    rewrite bind_run.
    assert (Hdecorated : exists decorated,
      andThen answer (fun response =>
        let* now := reads clock in
        let* response :=
          lift (set response "_proxyResponseTime" (VNum (now - startTime))) in
        let* behaviors := lift (get after "_behaviors") in
        ret (behaviors_execute request response behaviors)) w0
      = (Return decorated, w0)).
    { destruct answer as [d [response|e]|]; try (eexists; reflexivity).
      rewrite andThen_fulfilled, bind_reads.
      destruct (set response "_proxyResponseTime" (VNum (clock w0 - startTime)))
        as [stamped|e];
        [rewrite bind_lift_return|rewrite bind_lift_throw; eexists; reflexivity].
      destruct (get after "_behaviors") as [behaviors|e];
        [rewrite bind_lift_return|rewrite bind_lift_throw; eexists; reflexivity].
      unfold ret.
      destruct (behaviors_execute request stamped behaviors) as [d' s|];
        eexists; reflexivity. }
    destruct Hdecorated as (decorated & ->). cbn [fst snd].
    rewrite bind_run.
    destruct decorated as [d [v|e]|]; try (left; reflexivity).
    rewrite andThen_fulfilled, bind_run.
    destruct (recordProxyResponse after request v w0) as [[[]|e] w1] eqn:Hrecord;
      cbn [fst snd].
    - right. split; [reflexivity|]. unfold ret, Q. cbn. eauto.
    - left. cbn.
      apply (allOrNothing_recordProxyResponse _ _ _ _ _ _ Hrecord). }
  unfold proxyAndRecord. rewrite bind_reads, Hget, bind_lift_return.
  unfold modeGiven in Hgiven. rewrite Hget, Htruthy in Hgiven.
  destruct (get proxyConfig "mode") as [mode|e];
    [rewrite bind_lift_return|rewrite bind_lift_throw; left; reflexivity].
  rewrite Hgiven. cbn [negb].
  rewrite bind_ret, Hget, bind_lift_return.
  destruct (Htail (clock w) responseConfig proxyConfig Hget Htruthy)
    as [Hsame|(Hin & d & v & Hrun)]; [left; exact Hsame|].
  right. split; [exact Hin|]. exists responseConfig, proxyConfig, d, v. auto.
Qed.

End Exchange.


Lemma resolve_records (proxy : option Transport) (callbackURL : string)
  (responseConfig request imposterState options : value) (w : World) :
  modeGiven responseConfig = true ->
  stubs (snd (resolve proxy callbackURL responseConfig request imposterState
                options w)) = stubs w
  \/ (inProcessProxy proxy = true /\
      exists (after : value) (d : N) (v : value),
        fst (resolve proxy callbackURL responseConfig request imposterState
               options w)
        = Return (mkResolution after (Settles d (Fulfils v)))).
Proof.
  intros Hgiven. unfold resolve.
  destruct (hasMultipleTypes responseConfig) as [multiple|e];
    [rewrite bind_lift_return|rewrite bind_lift_throw; left; reflexivity].
  destruct (truthy multiple); [left; reflexivity|].
  assert (Hpure : forall (processed : Resolution),
    keeps sameStubs
      (let* behaved :=
         andThen (promise processed) (fun response =>
           let* proxyConfig := lift (get (configAfter processed) "proxy") in
           if truthy proxyConfig then ret (Q response)
           else
             let* behaviors := lift (get (configAfter processed) "_behaviors") in
             ret (behaviors_execute request response behaviors)) in
       let* wrapped :=
         andThen behaved (fun response =>
           if inProcessProxy proxy then ret (Q response)
           else
             let* proxyConfig := lift (get (configAfter processed) "proxy") in
             if truthy proxyConfig then ret (Q response)
             else ret (Q (VObj [("response", response)]))) in
       ret (mkResolution (configAfter processed) wrapped))).
  { intros processed.
    apply sameStubs_bind.
    - apply sameStubs_andThen. intros v.
      apply sameStubs_bind; [intros w0; reflexivity|intros proxyConfig].
      destruct (truthy proxyConfig); [intros w0; reflexivity|].
      apply sameStubs_bind; intros; intros w0; reflexivity.
    - intros behaved. apply sameStubs_bind; [|intros; intros w0; reflexivity].
      apply sameStubs_andThen. intros v.
      destruct (inProcessProxy proxy); [intros w0; reflexivity|].
      apply sameStubs_bind; [intros w0; reflexivity|intros proxyConfig].
      destruct (truthy proxyConfig); intros w0; reflexivity. }
  rewrite bind_run.
  assert (Hprocess :
    stubs (snd (processResponse proxy callbackURL responseConfig (clone request)
                  imposterState options w)) = stubs w
    \/ (inProcessProxy proxy = true /\
        exists (after proxyConfig' : value) (d : N) (v : value),
          fst (processResponse proxy callbackURL responseConfig (clone request)
                 imposterState options w)
          = Return (mkResolution after (Settles d (Fulfils v)))
          /\ get after "proxy" = Return proxyConfig'
          /\ truthy proxyConfig' = true)).
  { unfold processResponse.
    destruct (get responseConfig "is") as [payload|e];
      [rewrite bind_lift_return|rewrite bind_lift_throw; left; reflexivity].
    destruct (truthy payload); [left; reflexivity|].
    destruct (get responseConfig "proxy") as [proxyConfig|e] eqn:Hget;
      [rewrite bind_lift_return|rewrite bind_lift_throw; left; reflexivity].
    destruct (truthy proxyConfig) eqn:Htruthy.
    - apply (proxyAndRecord_records_when_fulfilled proxy callbackURL _ _ _ _ w
               Hget Htruthy Hgiven).
    - left.
      destruct (get responseConfig "inject") as [fn|e];
        [rewrite bind_lift_return|rewrite bind_lift_throw; reflexivity].
      destruct (truthy fn); [|reflexivity].
      apply (sameStubs_bind _ _
               (keeps_inject sameStubs ltac:(unfold sameStubs; auto)
                  ltac:(unfold sameStubs; congruence)
                  ltac:(unfold sameStubs; auto) ltac:(unfold sameStubs; auto)
                  _ _ _)).
      intros injected. apply sameStubs_bind; [|intros; intros w0; reflexivity].
      apply sameStubs_andThen. intros v w0. reflexivity. }
  destruct (processResponse proxy callbackURL responseConfig (clone request)
              imposterState options w) as [[processed|e] w1]; cbn [fst snd] in *.
  - destruct Hprocess as [Hsame|(Hin & after & pc & d & v & Hrun & Hafter & Htruthy)].
    + left. rewrite <- Hsame. apply Hpure.
    + right. split; [exact Hin|]. inversion Hrun; subst.
      cbn [configAfter promise].
      rewrite bind_run, andThen_fulfilled, Hafter, bind_lift_return, Htruthy.
      unfold ret at 1. unfold Q at 1. cbn [fst snd].
      rewrite bind_run, andThen_fulfilled, Hin.
      unfold ret, Q. cbn. eauto.
  - destruct Hprocess as [Hsame|(_ & after & pc & d & v & Hrun & _)];
      [left; exact Hsame|discriminate].
Qed.


(** X7. [resolve] adds to the repository only when its promise is
    fulfilled: for a config that needs no rewriting of its mode, whenever
    [resolve] raises, rejects or stays unsettled (a failing transport, a
    rejecting behavior pipeline, a recording that raises), the repository
    is as it was before the call. *)
Theorem resolve_records_only_when_fulfilled (proxy : option Transport)
  (callbackURL : string)
  (responseConfig request imposterState options : value) (w : World) :
  modeGiven responseConfig = true ->
  stubs (snd (resolve proxy callbackURL responseConfig request imposterState
                options w)) = stubs w
  \/ exists (after : value) (d : N) (v : value),
       fst (resolve proxy callbackURL responseConfig request imposterState
              options w)
       = Return (mkResolution after (Settles d (Fulfils v))).
Proof.
  intros Hgiven.
  destruct (resolve_records proxy callbackURL responseConfig request
              imposterState options w Hgiven) as [Hsame|[_ Hdone]]; auto.
Qed.

(** X12. A resolver without an in-process proxy never records in
    [resolve]: whatever the request and the config (one that needs no
    rewriting of its mode), the repository after the call is the
    repository before; recording is left to [resolveProxy]. *)
Theorem delegating_resolve_never_records (callbackURL : string)
  (responseConfig request imposterState options : value) (w : World) :
  modeGiven responseConfig = true ->
  stubs (snd (resolve None callbackURL responseConfig request imposterState
                options w)) = stubs w.
Proof.
  intros Hgiven.
  destruct (resolve_records None callbackURL responseConfig request
              imposterState options w Hgiven) as [Hsame|[Hin _]];
    [exact Hsame|discriminate].
Qed.

End Recording.

(** ** The two styles of proxying do not mix *)

Section Styles.

Context `{Collaborators}.
Variable callbackURL : string.

Section Framed.

Variable R : World -> World -> Prop.
Hypothesis R_refl : forall w, R w w.
Hypothesis R_trans : forall w1 w2 w3, R w1 w2 -> R w2 w3 -> R w1 w3.
Hypothesis R_log : forall w l, R w (withErrorLog w l).
Hypothesis R_eval : forall w l, R w (withEvaluated w l).
Hypothesis R_stubs : forall w l, R w (withStubs w l).
Hypothesis R_clock : forall w now, R w (withClock w now).

(** The in-process exchange has the effects of the clock and of
    recording, and no other. *)
Lemma keeps_in_process_exchange (transport : Transport)
  (responseConfig request requestDetails : value) :
  keeps R (proxyAndRecord (Some transport) callbackURL responseConfig request
             requestDetails).
Proof.
  unfold proxyAndRecord.
  apply (keeps_bind R R_trans); [apply (keeps_reads R R_refl)|intros startTime].
  apply (keeps_bind R R_trans); [apply (keeps_lift R R_refl)|intros proxyConfig].
  apply (keeps_bind R R_trans); [apply (keeps_lift R R_refl)|intros mode].
  apply (keeps_bind R R_trans).
  { destruct (negb (knownMode mode));
      [apply (keeps_setMetadata R R_refl R_trans R_stubs)
      |apply (keeps_ret R R_refl)]. }
  intros rewritten.
  apply (keeps_bind R R_trans); [apply (keeps_lift R R_refl)|intros proxyConfig'].
  apply (keeps_bind R R_trans); [apply (keeps_lift R R_refl)|intros to].
  apply (keeps_bind R R_trans); [intros w; apply R_clock|intros _].
  apply (keeps_bind R R_trans).
  { apply (keeps_andThen R R_refl). intros response.
    apply (keeps_bind R R_trans); [apply (keeps_reads R R_refl)|intros now].
    apply (keeps_bind R R_trans); [apply (keeps_lift R R_refl)|intros stamped].
    apply (keeps_bind R R_trans); [apply (keeps_lift R R_refl)|intros behaviors].
    apply (keeps_ret R R_refl). }
  intros decorated.
  apply (keeps_bind R R_trans); [|intros recorded; apply (keeps_ret R R_refl)].
  apply (keeps_andThen R R_refl). intros response.
  apply (keeps_bind R R_trans); [|intros _; apply (keeps_ret R R_refl)].
  apply (keeps_recordProxyResponse R R_refl R_trans R_log R_eval R_stubs).
Qed.

Lemma keeps_in_process_resolve (transport : Transport)
  (responseConfig request imposterState options : value) :
  keeps R (resolve (Some transport) callbackURL responseConfig request
             imposterState options).
Proof.
  unfold resolve.
  apply (keeps_bind R R_trans); [apply (keeps_lift R R_refl)|intros multiple].
  destruct (truthy multiple); [apply (keeps_ret R R_refl)|].
  apply (keeps_bind R R_trans).
  { unfold processResponse.
    apply (keeps_bind R R_trans); [apply (keeps_lift R R_refl)|intros payload].
    destruct (truthy payload); [apply (keeps_ret R R_refl)|].
    apply (keeps_bind R R_trans); [apply (keeps_lift R R_refl)|intros proxyConfig].
    destruct (truthy proxyConfig); [apply keeps_in_process_exchange|].
    apply (keeps_bind R R_trans); [apply (keeps_lift R R_refl)|intros fn].
    destruct (truthy fn); [|apply (keeps_ret R R_refl)].
    apply (keeps_bind R R_trans);
      [apply (keeps_inject R R_refl R_trans R_log R_eval)|intros injected].
    apply (keeps_bind R R_trans); [|intros; apply (keeps_ret R R_refl)].
    apply (keeps_andThen R R_refl). intros v. apply (keeps_ret R R_refl). }
  intros processed.
  apply (keeps_bind R R_trans).
  { apply (keeps_andThen R R_refl). intros response.
    apply (keeps_bind R R_trans); [apply (keeps_lift R R_refl)|intros proxyConfig].
    destruct (truthy proxyConfig); [apply (keeps_ret R R_refl)|].
    apply (keeps_bind R R_trans); [apply (keeps_lift R R_refl)|intros behaviors].
    apply (keeps_ret R R_refl). }
  intros behaved.
  apply (keeps_bind R R_trans); [|intros; apply (keeps_ret R R_refl)].
  apply (keeps_andThen R R_refl). intros response. apply (keeps_ret R R_refl).
Qed.

End Framed.

(** X11. A resolver with an in-process proxy never gives out a resolution
    key: along its whole life nothing is pending and the key counter
    stays at 0.  Every call of [resolveProxy] therefore fails: it is
    answered as a missing resource, unless the key names a member of
    [Object.prototype], in which case the call raises a [TypeError]. *)
Theorem in_process_resolver_never_delegates (transport : Transport)
  (w : World) :
  reachable (Some transport) callbackURL w ->
  pendingProxyResolutions w = ∅
  /\ nextProxyResolutionKey w = 0%N
  /\ forall (proxyResponse : value) (proxyResolutionKey : string),
       if inherits proxyResolutionKey
       then exists e : Error,
              fst (resolveProxy callbackURL proxyResponse proxyResolutionKey w)
              = Throw e
              /\ kind e = TypeError
       else fst (resolveProxy callbackURL proxyResponse proxyResolutionKey w)
            = Return (Q_reject (mkError MissingResourceError
                                  "invalid proxy resolution key"
                                  (VStr (callbackURL ++ "/" ++
                                         proxyResolutionKey))
                                  VUndefined)).
Proof.
  intros (stubList & now & Hlife).
  assert (Hidle : pendingProxyResolutions w = ∅ /\ nextProxyResolutionKey w = 0%N).
  { remember (initial stubList now) as w0 eqn:Hw0.
    assert (Hstart : pendingProxyResolutions w0 = ∅
                     /\ nextProxyResolutionKey w0 = 0%N) by (subst; auto).
    clear Hw0. induction Hlife as [w|w1 w2 w3 Hstep _ IH]; [exact Hstart|].
    apply IH. clear IH. destruct Hstart as [Hpending Hnext].
    destruct Hstep as [w1 responseConfig request imposterState options
                      |w1 proxyResponse proxyResolutionKey|w1 l|w1 t]; auto.
    - pose proof (keeps_in_process_resolve sameKeys
                    ltac:(unfold sameKeys; auto)
                    ltac:(unfold sameKeys; intros ? ? ? [-> ->] [-> ->]; auto)
                    ltac:(unfold sameKeys; auto) ltac:(unfold sameKeys; auto)
                    ltac:(unfold sameKeys; auto) ltac:(unfold sameKeys; auto)
                    transport responseConfig request imposterState options w1)
        as [Hp Hn].
      rewrite Hp, Hn. auto.
    - destruct (resolveProxy callbackURL proxyResponse proxyResolutionKey w1)
        as [c w'] eqn:Hrun.
      destruct (completion callbackURL _ _ _ _ _ Hrun) as [Hn Hp].
      simpl. split; [|congruence].
      destruct c as [[d [v|e]|]|e]; try (rewrite Hp; exact Hpending).
      destruct Hp as (key & _ & [entry Hentry] & _).
      rewrite Hpending, lookup_empty in Hentry. discriminate. }
  destruct Hidle as [Hpending Hnext]. split; [exact Hpending|].
  split; [exact Hnext|]. intros proxyResponse proxyResolutionKey.
  destruct (inherits proxyResolutionKey) eqn:Hname.
  - destruct (resolveProxy_inherited callbackURL proxyResponse
                proxyResolutionKey w Hname) as (e & Hrun & He).
    exists e. now rewrite Hrun.
  - rewrite resolveProxy_missing; [reflexivity|].
    rewrite Hpending, pendingAt_empty. unfold property. now rewrite Hname.
Qed.

End Styles.

(** ** The handshake and the in-process exchange *)

Section Handshake.

Context `{Collaborators}.

Lemma stubsOnly_ret {A : Type} (a : A) : stubsOnly (ret a).
Proof. intros w w' Hsame. auto. Qed.

Lemma stubsOnly_raise {A : Type} (e : Error) : stubsOnly (@raise A e).
Proof. intros w w' Hsame. auto. Qed.

Lemma stubsOnly_lift {A : Type} (c : Completion A) : stubsOnly (lift c).
Proof. intros w w' Hsame. auto. Qed.

Lemma stubsOnly_reads : stubsOnly (reads stubs).
Proof. intros w w' Hsame. simpl. split; congruence. Qed.

Lemma stubsOnly_modify (f : list Stub -> list Stub) :
  stubsOnly (modify (fun w => withStubs w (f (stubs w)))).
Proof. intros w w' Hsame. simpl. split; congruence. Qed.

Lemma stubsOnly_bind {A B : Type} (m : M A) (k : A -> M B) :
  stubsOnly m -> (forall a, stubsOnly (k a)) -> stubsOnly (bind m k).
Proof.
  intros Hm Hk w w' Hsame. rewrite !bind_run.
  destruct (Hm w w' Hsame) as [Hfst Hsnd].
  destruct (m w) as [c w1], (m w') as [c' w1']. simpl in *. subst c'.
  destruct c as [a|e]; [apply Hk; exact Hsnd|simpl; auto].
Qed.

Lemma stubsOnly_predicatesFor (request matchers : value) :
  stubsOnly (predicatesFor request matchers).
Proof.
  intros w w' Hsame. split; [apply oblivious_predicatesFor|].
  now rewrite !predicatesFor_stubs.
Qed.

Lemma stubsOnly_indexOfStubToAddResponseTo (responseConfig request : value) :
  stubsOnly (indexOfStubToAddResponseTo responseConfig request).
Proof.
  unfold indexOfStubToAddResponseTo, stubIndexFor.
  apply stubsOnly_bind; [apply stubsOnly_lift|intros proxyConfig].
  apply stubsOnly_bind; [apply stubsOnly_lift|intros generators].
  apply stubsOnly_bind; [apply stubsOnly_predicatesFor|intros predicates].
  apply stubsOnly_bind; [apply stubsOnly_reads|intros stubList].
  apply stubsOnly_bind; [|intros origin; apply stubsOnly_ret].
  apply stubsOnly_bind; [apply stubsOnly_reads|intros l; apply stubsOnly_ret].
Qed.

(** Recording reads and writes the repository, and nothing else of the
    resolver's state decides what it does. *)
Lemma stubsOnly_recordProxyResponse
  (responseConfig request response : value) :
  stubsOnly (recordProxyResponse responseConfig request response).
Proof.
  unfold recordProxyResponse.
  apply stubsOnly_bind; [apply stubsOnly_lift|intros proxyConfig].
  apply stubsOnly_bind; [apply stubsOnly_lift|intros mode].
  destruct (isString "proxyTransparent" mode); [apply stubsOnly_ret|].
  apply stubsOnly_bind.
  { destruct (isString "proxyAlways" mode); [|apply stubsOnly_ret].
    unfold canAddResponseToExistingStub.
    apply stubsOnly_bind; [|intros index; apply stubsOnly_ret].
    apply stubsOnly_indexOfStubToAddResponseTo. }
  intros [|].
  - unfold addNewResponse.
    apply stubsOnly_bind; [apply stubsOnly_lift|intros proxyConfig'].
    apply stubsOnly_bind; [apply stubsOnly_lift|intros stubResponse].
    apply stubsOnly_bind;
      [apply stubsOnly_indexOfStubToAddResponseTo|intros responseIndex].
    apply stubsOnly_bind; [apply stubsOnly_reads|intros stubList].
    destruct (_ && _); [|apply stubsOnly_raise].
    apply (stubsOnly_modify
             (addResponse (Z.to_nat responseIndex) stubResponse)).
  - unfold addNewStub.
    apply stubsOnly_bind; [apply stubsOnly_lift|intros proxyConfig'].
    apply stubsOnly_bind; [apply stubsOnly_lift|intros generators].
    apply stubsOnly_bind; [apply stubsOnly_predicatesFor|intros predicates].
    apply stubsOnly_bind; [apply stubsOnly_lift|intros stubResponse].
    apply stubsOnly_bind; [apply stubsOnly_lift|intros mode'].
    destruct (isString "proxyAlways" mode').
    + apply (stubsOnly_modify
               (addStub (mkStub (VArr predicates) [stubResponse]) None)).
    + apply (stubsOnly_modify
               (addStub (mkStub (VArr predicates) [stubResponse])
                  (Some responseConfig))).
Qed.

Variable callbackURL : string.

(** The completion of a pending resolution, step by step. *)
Lemma completion_steps (proxyResponse : value) (proxyResolutionKey : N)
  (stored origin details : value) (since : Z) (w : World) :
  pendingProxyResolutions w !! proxyResolutionKey
  = Some (mkPending stored origin since details) ->
  resolveProxy callbackURL proxyResponse (decimal proxyResolutionKey) w
  = match set proxyResponse "_proxyResponseTime" (VNum (clock w - since)) with
    | Throw e => (Throw e, w)
    | Return stamped =>
        match get stored "_behaviors" with
        | Throw e => (Throw e, w)
        | Return behaviors =>
            match behaviors_execute origin stamped behaviors with
            | Settles d (Fulfils decorated) =>
                match recordProxyResponse stored origin decorated w with
                | (Return _, w1) =>
                    match set decorated "recordMatch" (VFunction "recordMatch")
                    with
                    | Return marked =>
                        (Return (Settles d (Fulfils marked)),
                         withPending w1
                           (delete proxyResolutionKey
                              (pendingProxyResolutions w1))
                           (nextProxyResolutionKey w1))
                    | Throw e => (Return (Settles d (Rejects e)), w1)
                    end
                | (Throw e, w1) => (Return (Settles d (Rejects e)), w1)
                end
            | unsettled => (Return unsettled, w)
            end
        end
    end.
Proof.
  intros Hpending. unfold resolveProxy.
  rewrite bind_reads, pendingAt_decimal, Hpending, bind_reads. simpl.
  destruct (set proxyResponse "_proxyResponseTime" (VNum (clock w - since)))
    as [stamped|e];
    [rewrite bind_lift_return|rewrite bind_lift_throw; reflexivity].
  destruct (get stored "_behaviors") as [behaviors|e];
    [rewrite bind_lift_return|rewrite bind_lift_throw; reflexivity].
  destruct (behaviors_execute origin stamped behaviors)
    as [d [decorated|e]|]; try reflexivity.
  rewrite andThen_fulfilled. unfold thenRecord. rewrite bind_run.
  destruct (recordProxyResponse stored origin decorated w) as [[[]|e] w1];
    cbn [fst snd]; [|reflexivity].
  destruct (set decorated "recordMatch" (VFunction "recordMatch"))
    as [marked|e];
    [rewrite bind_lift_return|rewrite bind_lift_throw; reflexivity].
  rewrite bind_modify, deleteAt_decimal. unfold ret, Q. now rewrite N.add_0_r.
Qed.

(** X9. The two-call handshake records what the in-process exchange
    records.  A delegating resolver answers [resolve] with the callback
    address and records nothing; when the transport's response comes back
    through [resolveProxy] after the same time, the repository ends as
    the in-process exchange leaves it, the promise is fulfilled with the
    same decorated response ([recordMatch] attached), and the pending
    resolutions are as before the handshake. *)
Theorem handshake_records_like_the_in_process_exchange
  (transport : Transport) (fs pfs rfs : list (string * value))
  (request imposterState requestDetails : value) (dt : Z) (w : World) :
  field "proxy" fs = VObj pfs ->
  knownMode (field "mode" pfs) = true ->
  truthy (field "is" fs) = false ->
  truthy (field "inject" fs) = false ->
  transport (field "to" pfs) request (VObj pfs) requestDetails
  = (dt, Q (VObj rfs)) ->
  pendingProxyResolutions w !! nextProxyResolutionKey w = None ->
  let direct :=
    resolve (Some transport) callbackURL (VObj fs) request imposterState
      requestDetails w in
  let delegated :=
    resolve None callbackURL (VObj fs) request imposterState requestDetails w in
  let completed :=
    resolveProxy callbackURL (VObj rfs) (decimal (nextProxyResolutionKey w))
      (withClock (snd delegated) (clock w + dt)) in
  stubs (snd delegated) = stubs w
  /\ stubs (snd completed) = stubs (snd direct)
  /\ forall (d : N) (vfs : list (string * value)),
       fst direct
       = Return (mkResolution (VObj fs) (Settles d (Fulfils (VObj vfs)))) ->
       fst completed
       = Return (Settles d
                   (Fulfils (VObj (setField "recordMatch"
                                     (VFunction "recordMatch") vfs))))
       /\ pendingProxyResolutions (snd completed) = pendingProxyResolutions w.
Proof.
  intros Hproxy Hmode His Hinject Hanswer Hfresh direct delegated completed.
  assert (Hdelegated :
    delegated
    = (Return (mkResolution (VObj fs)
                 (Q (VObj [("proxy", VObj pfs);
                           ("request", request);
                           ("callbackURL",
                            VStr (callbackURL ++ "/" ++
                                  decimal (nextProxyResolutionKey w)))]))),
       withPending w
         (<[nextProxyResolutionKey w :=
              mkPending (VObj fs) request (clock w) requestDetails]>
            (pendingProxyResolutions w))
         (nextProxyResolutionKey w + 1)))
    by (apply resolve_delegates; assumption).
  assert (Hdirect :
    direct
    = proxyAndRecord (Some transport) callbackURL (VObj fs) request
        requestDetails w).
  { unfold direct.
    destruct (proxyAndRecord (Some transport) callbackURL (VObj fs) request
                requestDetails w) as [c w1] eqn:Hrun.
    pose proof (in_process_exchange callbackURL transport fs pfs request
                  requestDetails dt _ w Hproxy Hmode Hanswer) as Hsteps.
    rewrite Hrun in Hsteps.
    assert (Hshape : exists p, c = Return (mkResolution (VObj fs) p)).
    { unfold Q in Hsteps. cbn [set] in Hsteps.
      destruct (behaviors_execute _ _ _) as [d' [decorated|e]|] in Hsteps;
        [destruct (recordProxyResponse _ _ _ _) as [[[]|e] w2] in Hsteps| |];
        inversion Hsteps; eauto. }
    destruct Hshape as (p & ->).
    apply resolve_with_proxy; auto. now rewrite Hproxy. }
  split; [now rewrite Hdelegated|].
  unfold completed. clear completed.
  set (w2 := withClock (snd delegated) (clock w + dt)).
  assert (Hpending :
    pendingProxyResolutions w2 !! nextProxyResolutionKey w
    = Some (mkPending (VObj fs) request (clock w) requestDetails)).
  { unfold w2. rewrite Hdelegated. cbn. apply lookup_insert_eq. }
  rewrite (completion_steps (VObj rfs) (nextProxyResolutionKey w) _ _ _ _ w2
             Hpending).
  pose proof (in_process_exchange callbackURL transport fs pfs request
                requestDetails dt _ w Hproxy Hmode Hanswer) as Hsteps.
  rewrite <- Hdirect in Hsteps. rewrite Hsteps. clear Hsteps Hdirect direct.
  cbn [set get]. unfold Q. cbn [set].
  replace (clock w2 - clock w)%Z with dt
    by (unfold w2; rewrite Hdelegated; cbn; lia).
  assert (Hstubs2 : stubs (withClock w (clock w + dt)) = stubs w2)
    by (unfold w2; rewrite Hdelegated; reflexivity).
  assert (Hkeys2 :
    delete (nextProxyResolutionKey w) (pendingProxyResolutions w2)
    = pendingProxyResolutions w).
  { unfold w2. rewrite Hdelegated. cbn.
    rewrite delete_insert_eq. now apply delete_id. }
  clearbody w2. clear Hdelegated delegated.
  destruct (behaviors_execute request
              (VObj (setField "_proxyResponseTime" (VNum dt) rfs))
              (field "_behaviors" fs)) as [d' [decorated|e]|].
  - destruct (stubsOnly_recordProxyResponse (VObj fs) request decorated _ _
                Hstubs2) as [Hfst Hsnd].
    pose proof (sameKeys_recordProxyResponse (VObj fs) request decorated w2)
      as [Hkeys Hnext].
    destruct (recordProxyResponse (VObj fs) request decorated
                (withClock w (clock w + dt))) as [c1 w1].
    destruct (recordProxyResponse (VObj fs) request decorated w2) as [c2 w3].
    cbn [fst snd] in *. subst c2.
    destruct c1 as [[]|e].
    + destruct (set decorated "recordMatch" (VFunction "recordMatch"))
        as [marked|e] eqn:Hmark; cbn [fst snd].
      * split; [cbn; congruence|]. intros d vfs E. inversion E; subst.
        cbn in Hmark. inversion Hmark; subst. split; [reflexivity|].
        cbn. now rewrite Hkeys.
      * split; [congruence|]. intros d vfs E. inversion E; subst.
        discriminate.
    + cbn [fst snd].
      split; [congruence|]. intros d vfs E. inversion E.
  - cbn [fst snd].
    split; [symmetry; exact Hstubs2|]. intros d vfs E. inversion E.
  - cbn [fst snd].
    split; [symmetry; exact Hstubs2|]. intros d vfs E. inversion E.
Qed.

End Handshake.

(** ** The scan for a stub to extend *)

Section Scan.

Context `{Collaborators}.

Lemma firstWith_first (wanted : value) (index : nat) (candidates : list Stub) :
  (firstWith wanted index candidates = (-1)%Z /\
   forall (j : nat) (stub : Stub),
     candidates !! j = Some stub -> deepEqual wanted (predicates stub) = false)
  \/ exists (i : nat) (stub : Stub),
       firstWith wanted index candidates = Z.of_nat (index + i)
       /\ candidates !! i = Some stub
       /\ deepEqual wanted (predicates stub) = true
       /\ forall (j : nat) (stub' : Stub),
            j < i -> candidates !! j = Some stub' ->
            deepEqual wanted (predicates stub') = false.
Proof.
  revert index. induction candidates as [|stub l IH]; intros index; simpl.
  - left. split; [reflexivity|]. intros j stub Hj. discriminate.
  - destruct (deepEqual wanted (predicates stub)) eqn:Hhead.
    + right. exists 0, stub. rewrite Nat.add_0_r.
      repeat split; auto. intros j stub' Hj. lia.
    + destruct (IH (S index)) as [[Hmiss Hall]|(i & found & Hat & Hi & Heq & Hbefore)].
      * left. split; [exact Hmiss|]. intros [|j] stub' Hj; simpl in Hj.
        -- now inversion Hj; subst.
        -- eapply Hall; eauto.
      * right. exists (S i), found. split; [rewrite Hat; f_equal; lia|].
        split; [exact Hi|]. split; [exact Heq|].
        intros [|j] stub' Hlt Hj; simpl in Hj.
        -- now inversion Hj; subst.
        -- apply (Hbefore j); auto. lia.
Qed.

(** X13. The scan of [indexOfStubToAddResponseTo] looks only at the
    stubs after the first stub that holds the originating config: it
    answers the index of the first of them whose predicates are
    deep-equal to the generated ones, and -1 when there is none.  A stub
    with these predicates at or before the origin is never found. *)
Theorem scan_finds_the_first_match_after_the_origin
  (responseConfig proxyConfig generators request : value)
  (preds : list value) (w : World) :
  get responseConfig "proxy" = Return proxyConfig ->
  get proxyConfig "predicateGenerators" = Return generators ->
  fst (predicatesFor request (js_or generators (VArr [])) w) = Return preds ->
  let origin := firstHolding responseConfig (stubs w) in
  exists index : Z,
    fst (indexOfStubToAddResponseTo responseConfig request w) = Return index
    /\ ((index = (-1)%Z /\
         forall (j : nat) (stub : Stub),
           origin < j -> stubs w !! j = Some stub ->
           deepEqual (VArr preds) (predicates stub) = false)
        \/ exists (i : nat) (stub : Stub),
             index = Z.of_nat i
             /\ origin < i
             /\ stubs w !! i = Some stub
             /\ deepEqual (VArr preds) (predicates stub) = true
             /\ forall (j : nat) (stub' : Stub),
                  origin < j < i -> stubs w !! j = Some stub' ->
                  deepEqual (VArr preds) (predicates stub') = false).
Proof.
  intros Hproxy Hgenerators Hpreds origin.
  destruct (the_scan responseConfig proxyConfig generators request preds
              Hproxy Hgenerators w w Hpreds) as (w1 & Hscan & _).
  fold origin in Hscan. rewrite Hscan. cbn [fst].
  eexists. split; [reflexivity|].
  destruct (firstWith_first (VArr preds) (origin + 1)
              (drop (origin + 1) (stubs w)))
    as [[Hmiss Hall]|(i & stub & Hat & Hi & Heq & Hbefore)].
  - left. split; [exact Hmiss|]. intros j stub Hlt Hj.
    apply (Hall (j - (origin + 1)) stub).
    rewrite lookup_drop. rewrite <- Hj. f_equal. lia.
  - right. exists (origin + 1 + i), stub.
    split; [exact Hat|]. split; [lia|].
    split; [now rewrite lookup_drop in Hi|]. split; [exact Heq|].
    intros j stub' [Hlo Hhi] Hj.
    apply (Hbefore (j - (origin + 1)) stub'); [lia|].
    rewrite lookup_drop. rewrite <- Hj. f_equal. lia.
Qed.

End Scan.

(** ** Predicate generation *)

Lemma field_absent (k : string) (fs : list (string * value)) :
  ~ In k (map fst fs) -> field k fs = VUndefined.
Proof.
  induction fs as [|[k' v] fs IH]; simpl; auto.
  intros Hin. destruct (String.eqb_spec k k') as [->|_]; [tauto|].
  apply IH. tauto.
Qed.





Section Generation.

Context `{Collaborators}.










Lemma typeErrorsOnly_return {A : Type} (a : A) : typeErrorsOnly (Return a).
Proof. intros e. discriminate. Qed.

Lemma typeErrorsOnly_typeError {A : Type} (what : string) :
  typeErrorsOnly (@typeError A what).
Proof. intros e [= <-]. reflexivity. Qed.

Lemma typeErrorsOnly_cbind {A B : Type} (c : Completion A)
  (k : A -> Completion B) :
  typeErrorsOnly c -> (forall a, typeErrorsOnly (k a)) ->
  typeErrorsOnly (cbind c k).
Proof.
  intros Hc Hk. destruct c as [a|e]; cbn [cbind]; [apply Hk|].
  intros e' [= <-]. now apply Hc.
Qed.

Lemma typeErrorsOnly_get (v : value) (k : string) : typeErrorsOnly (get v k).
Proof.
  destruct v; cbn [get];
    try apply typeErrorsOnly_return; try apply typeErrorsOnly_typeError;
    destruct (String.eqb k "length"); apply typeErrorsOnly_return.
Qed.

Lemma typeErrorsOnly_set (v : value) (k : string) (x : value) :
  typeErrorsOnly (set v k x).
Proof.
  destruct v; cbn [set];
    try apply typeErrorsOnly_return; apply typeErrorsOnly_typeError.
Qed.

Lemma typeErrorsOnly_keys (v : value) : typeErrorsOnly (keys v).
Proof.
  destruct v; cbn [keys];
    try apply typeErrorsOnly_return; apply typeErrorsOnly_typeError.
Qed.

Lemma typeErrorsOnly_foldC {A B : Type} (f : A -> B -> Completion A)
  (l : list B) (a : A) :
  (forall a b, typeErrorsOnly (f a b)) -> typeErrorsOnly (foldC f l a).
Proof.
  intros Hf. revert a. induction l as [|b l IH]; intros a; cbn [foldC].
  - apply typeErrorsOnly_return.
  - apply typeErrorsOnly_cbind; auto.
Qed.

Lemma typeErrorsOnly_mapC {A B : Type} (f : A -> Completion B) (l : list A) :
  (forall a, typeErrorsOnly (f a)) -> typeErrorsOnly (mapC f l).
Proof.
  intros Hf. induction l as [|a l IH]; cbn [mapC].
  - apply typeErrorsOnly_return.
  - apply typeErrorsOnly_cbind; [apply Hf|intros b].
    apply typeErrorsOnly_cbind; [exact IH|intros bs].
    apply typeErrorsOnly_return.
Qed.

Create HintDb typeErrors.
#[local] Hint Resolve typeErrorsOnly_return typeErrorsOnly_typeError
  typeErrorsOnly_get typeErrorsOnly_set typeErrorsOnly_keys : typeErrors.

Lemma typeErrorsOnly_valueOf (how : Extraction) (matcher field : value) :
  typeErrorsOnly (valueOf how matcher field).
Proof.
  destruct how; cbn [valueOf]; auto with typeErrors;
    (apply typeErrorsOnly_cbind; [auto with typeErrors|intros cfg]).
  - unfold xpathValue.
    repeat (apply typeErrorsOnly_cbind; [auto with typeErrors|intros ?]).
    auto with typeErrors.
  - unfold jsonpathValue.
    repeat (apply typeErrorsOnly_cbind; [auto with typeErrors|intros ?]).
    auto with typeErrors.
Qed.

Lemma typeErrorsOnly_buildEqualsWithin (fuel : nat)
  (valueOf : value -> Completion value) (request matchers : value) :
  (forall field, typeErrorsOnly (valueOf field)) ->
  typeErrorsOnly (buildEqualsWithin fuel valueOf request matchers).
Proof.
  intros HvalueOf. revert request matchers.
  induction fuel as [|fuel IH]; intros request matchers;
    cbn [buildEqualsWithin];
    (apply typeErrorsOnly_cbind; [auto with typeErrors|intros ks]);
    apply typeErrorsOnly_foldC; intros result key;
    (apply typeErrorsOnly_cbind; [auto with typeErrors|intros part]);
    destruct (isObject part);
    repeat (apply typeErrorsOnly_cbind; [auto with typeErrors|intros ?]);
    auto with typeErrors.
Qed.

Lemma typeErrorsOnly_predicateFor (request matcher basePredicate : value)
  (how : Extraction) (fieldName : string) :
  typeErrorsOnly (predicateFor request matcher basePredicate how fieldName).
Proof.
  unfold predicateFor.
  apply typeErrorsOnly_cbind; [auto with typeErrors|intros matches].
  apply typeErrorsOnly_cbind; [auto with typeErrors|intros matcherValue].
  apply typeErrorsOnly_cbind; [auto with typeErrors|intros part].
  destruct (isTrue matcherValue).
  - apply typeErrorsOnly_cbind; [apply typeErrorsOnly_valueOf|intros v].
    repeat (apply typeErrorsOnly_cbind; [auto with typeErrors|intros ?]).
    auto with typeErrors.
  - apply typeErrorsOnly_cbind.
    + apply typeErrorsOnly_buildEqualsWithin. intros part'.
      apply typeErrorsOnly_valueOf.
    + intros built.
      repeat (apply typeErrorsOnly_cbind; [auto with typeErrors|intros ?]).
      auto with typeErrors.
Qed.

(** A predicate generator without [inject] raises nothing but type
    errors, and leaves the world alone. *)
Lemma generated_plainly (request matcher : value) (w w' : World) (e : Error) :
  isSet matcher "inject" = false ->
  generated request matcher w = (Throw e, w') -> kind e = TypeError.
Proof.
  unfold isSet, generated. intros Hplain.
  destruct (get matcher "inject") as [injection|e0] eqn:Hget.
  - rewrite bind_lift_return, Hplain. unfold lift. intros [= Hrun _].
    revert e Hrun.
    apply typeErrorsOnly_cbind; [auto with typeErrors|intros ks].
    apply typeErrorsOnly_cbind.
    { apply typeErrorsOnly_foldC. intros acc key. unfold addParameter.
      apply typeErrorsOnly_cbind; [|intros ?; auto with typeErrors].
      destruct (negb (String.eqb key "matches")); auto with typeErrors.
      apply typeErrorsOnly_cbind; auto with typeErrors. }
    intros parameters.
    apply typeErrorsOnly_cbind; [auto with typeErrors|intros matches].
    apply typeErrorsOnly_cbind; [auto with typeErrors|intros fieldNames].
    apply typeErrorsOnly_mapC. intros fieldName.
    apply typeErrorsOnly_predicateFor.
  - rewrite bind_lift_throw. intros [= <- _].
    now apply (typeErrorsOnly_get matcher "inject").
Qed.

(** A loop that reaches an element on which its body raises, raises. *)
Lemma mapC_raises {A B : Type} (f : A -> Completion B) (l : list A) (a : A)
  (e : Error) :
  In a l -> f a = Throw e -> exists e' : Error, mapC f l = Throw e'.
Proof.
  intros Hin Hraise. induction l as [|a' l IH]; [destruct Hin|].
  cbn [mapC]. destruct Hin as [->|Hin].
  - rewrite Hraise. eauto.
  - destruct (f a') as [b|e']; cbn [cbind]; [|eauto].
    destruct (IH Hin) as (e' & ->). eauto.
Qed.

Lemma foldM_raises {A B : Type} (f : A -> B -> M A) (before after : list B)
  (b : B) (P : Error -> Prop) :
  (forall (a : A) (b' : B) (w w' : World) (e : Error),
     In b' before -> f a b' w = (Throw e, w') -> P e) ->
  (forall (a : A) (w : World),
     exists (e : Error) (w' : World), f a b w = (Throw e, w') /\ P e) ->
  forall (a : A) (w : World),
    exists (e : Error) (w' : World),
      foldM f (before ++ b :: after) a w = (Throw e, w') /\ P e.
Proof.
  intros Hbefore Hraise.
  induction before as [|b' before IH]; intros a w; cbn [app foldM].
  - destruct (Hraise a w) as (e & w' & Hrun & He).
    exists e, w'. unfold bind. now rewrite Hrun.
  - unfold bind. destruct (f a b' w) as [[a'|e] w'] eqn:Hrun.
    + apply IH. intros a0 b0 w0 w0' e0 Hin. apply Hbefore. now right.
    + exists e, w'. split; [reflexivity|].
      apply (Hbefore a b' w w' e); [now left|exact Hrun].
Qed.

(** The generator with the nested matcher. *)
Lemma nested_matcher_raises
  (matcher matches request : list (string * value)) (fieldName key : string)
  (nested : value) (more : list string) (w : World) :
  truthy (field "inject" matcher) = false ->
  field "matches" matcher = VObj matches ->
  In fieldName (map fst matches) ->
  field fieldName matches = nested ->
  isTrue nested = false ->
  keys nested = Return (key :: more) ->
  field fieldName request = VUndefined ->
  exists e : Error,
    generated (VObj request) (VObj matcher) w = (Throw e, w)
    /\ kind e = TypeError.
Proof.
  intros Hinject Hmatches Hin Hnested Hmarked Hkeys Habsent.
  assert (Hfield : forall (basePredicate : value) (how : Extraction),
    exists e : Error,
      predicateFor (VObj request) (VObj matcher) basePredicate how fieldName
      = Throw e).
  { intros basePredicate how. unfold predicateFor. cbn [get cbind].
    rewrite Hmatches. cbn [get cbind]. rewrite Hnested, Habsent, Hmarked.
    unfold buildEquals. cbn [depth buildEqualsWithin].
    rewrite Hkeys. cbn [cbind foldC get]. eauto. }
  assert (Hraise : exists e : Error,
    generated (VObj request) (VObj matcher) w = (Throw e, w)).
  { unfold generated. cbn [get]. rewrite bind_lift_return, Hinject.
    unfold lift. cbn [keys cbind].
    destruct (foldC (addParameter (VObj matcher)) (map fst matcher)
                (emptyObject, Plain)) as [parameters|e]; cbn [cbind]; [|eauto].
    rewrite Hmatches. cbn [keys cbind].
    destruct (Hfield (fst parameters) (snd parameters)) as (e & He).
    destruct (mapC_raises _ _ _ _ Hin He) as (e' & ->). eauto. }
  destruct Hraise as (e & Hrun). exists e. split; [exact Hrun|].
  apply (generated_plainly (VObj request) (VObj matcher) w w e);
    [|exact Hrun].
  unfold isSet. cbn [get]. exact Hinject.
Qed.

(** X15. A nested matcher for a field the request does not have: the
    first thing [buildEquals] does is read a property of that absent
    value.  Whichever predicate generator has such a matcher among its
    [matches], and wherever, predicate generation raises (and with it the
    recording that asked for the predicates); when no generator before
    it is an injected one, what it raises is a type error.  The field is
    one that the request neither has nor inherits from
    [Object.prototype]. *)
Theorem nested_matcher_needs_the_field
  (before after : list value) (matcher matches request : list (string * value))
  (fieldName key : string) (nested : value) (more : list string) (w : World) :
  truthy (field "inject" matcher) = false ->
  field "matches" matcher = VObj matches ->
  In fieldName (map fst matches) ->
  field fieldName matches = nested ->
  isTrue nested = false ->
  keys nested = Return (key :: more) ->
  field fieldName request = VUndefined ->
  inherits fieldName = false ->
  exists (e : Error) (w' : World),
    predicatesFor (VObj request) (VArr (before ++ VObj matcher :: after)) w
    = (Throw e, w')
    /\ (List.Forall (fun generator => isSet generator "inject" = false) before ->
        kind e = TypeError).
Proof.
  intros Hinject Hmatches Hin Hnested Hmarked Hkeys Habsent _.
  pose proof (fun w0 =>
                nested_matcher_raises matcher matches request fieldName key
                  nested more w0 Hinject Hmatches Hin Hnested Hmarked Hkeys
                  Habsent) as Hnestedly.
  set (turn := fun (predicates : list value) (generator : value) =>
                 let* pushed := generated (VObj request) generator in
                 ret (predicates ++ pushed)%list).
  assert (Hturn : forall (P : Error -> Prop),
    (forall e : Error, kind e = TypeError -> P e) ->
    forall (predicates : list value) (w0 : World),
      exists (e : Error) (w' : World),
        turn predicates (VObj matcher) w0 = (Throw e, w') /\ P e).
  { intros P HP predicates w0. destruct (Hnestedly w0) as (e & Hrun & He).
    exists e, w0. unfold turn, bind. rewrite Hrun. auto. }
  unfold predicatesFor. cbn [elements]. rewrite bind_lift_return.
  fold turn.
  destruct (foldM_raises turn before after (VObj matcher) (fun _ => True)
              (fun _ _ _ _ _ _ _ => Logic.I) (Hturn _ (fun _ _ => Logic.I)) [] w)
    as (e & w' & Hrun & _).
  exists e, w'. split; [exact Hrun|]. intros Hplain.
  destruct (foldM_raises turn before after (VObj matcher)
              (fun e => kind e = TypeError)) with (a := @nil value) (w := w)
    as (e2 & w2 & Hrun2 & He2).
  - intros predicates generator w0 w0' e0 Hbefore. unfold turn, bind.
    destruct (generated (VObj request) generator w0) as [[pushed|e1] w1]
      eqn:Hgenerated; [discriminate|].
    intros [= <- _].
    apply (generated_plainly (VObj request) generator w0 w1 e1);
      [|exact Hgenerated].
    rewrite List.Forall_forall in Hplain. now apply Hplain.
  - apply Hturn. auto.
  - rewrite Hrun in Hrun2. now injection Hrun2 as <- _.
Qed.

End Generation.

(** ** What a saved stub replays *)

Section Latency.

Context `{Collaborators}.
Variable callbackURL : string.

(** X17. An in-process exchange in [proxyOnce] mode with
    [addWaitBehavior] set and a behavior pipeline that hands the response
    on: the stub handed to the repository, with the originating config,
    answers the response as stamped and waits the milliseconds the call
    took; a call that took 0 ms is saved without any behavior. *)
Theorem saved_stub_replays_the_latency (transport : Transport)
  (fs pfs rfs : list (string * value))
  (request imposterState requestDetails : value) (preds : list value)
  (dt : Z) (d : N) (w : World) :
  field "proxy" fs = VObj pfs ->
  field "mode" pfs = VStr "proxyOnce" ->
  truthy (field "is" fs) = false ->
  truthy (field "inject" fs) = false ->
  truthy (field "addWaitBehavior" pfs) = true ->
  truthy (field "addDecorateBehavior" pfs) = false ->
  transport (field "to" pfs) request (VObj pfs) requestDetails
  = (dt, Settles d (Fulfils (VObj rfs))) ->
  let stamped := VObj (setField "_proxyResponseTime" (VNum dt) rfs) in
  behaviors_execute request stamped (field "_behaviors" fs) = Q stamped ->
  fst (predicatesFor request
         (js_or (field "predicateGenerators" pfs) (VArr [])) w)
  = Return preds ->
  exists w1 : World,
    resolve (Some transport) callbackURL (VObj fs) request imposterState
      requestDetails w
    = (Return (mkResolution (VObj fs) (Settles d (Fulfils stamped))), w1)
    /\ stubs w1
       = addStub
           (mkStub (VArr preds)
              [VObj (("is", stamped)
                     :: if (dt =? 0)%Z then []
                        else [("_behaviors", VObj [("wait", VNum dt)])])])
           (Some (VObj fs)) (stubs w).
Proof.
  intros Hproxy Hmode His Hinject Hwait Hdecorate Hanswer stamped Hbehaviors
    Hpreds.
  assert (Hresponse :
    newIsResponse stamped (VObj pfs)
    = Return (VObj (("is", stamped)
                    :: if (dt =? 0)%Z then []
                       else [("_behaviors", VObj [("wait", VNum dt)])]))).
  { unfold newIsResponse, stamped. cbn [get cbind]. rewrite Hwait.
    rewrite field_setField_eq, Hdecorate. cbn [truthy].
    destruct (dt =? 0)%Z; reflexivity. }
  destruct (record_in_other_modes (VObj fs) (VObj pfs) (VStr "proxyOnce")
              (field "predicateGenerators" pfs) request stamped
              (VObj (("is", stamped)
                     :: if (dt =? 0)%Z then []
                        else [("_behaviors", VObj [("wait", VNum dt)])]))
              preds w (withClock w (clock w + dt)))
    as (w1 & Hrecord & Hstubs); auto.
  { cbn [get]. now rewrite Hproxy. }
  { cbn [get]. now rewrite Hmode. }
  exists w1. split; [|exact Hstubs].
  apply resolve_with_proxy; auto; [now rewrite Hproxy|].
  rewrite (in_process_exchange callbackURL transport fs pfs request
             requestDetails dt _ w Hproxy
             ltac:(now rewrite Hmode) Hanswer).
  cbn [set]. fold stamped. rewrite Hbehaviors. unfold Q.
  rewrite Hrecord. now rewrite N.add_0_r.
Qed.

End Latency.

(** ** The handlers of the imposter controller *)

Section Queries.

Context {I : Type} `{Controller.Imposter I}.

Lemma lowerChar_only (small capital : ascii) :
  Controller.lowerChar small = small ->
  nat_of_ascii capital + 32 = nat_of_ascii small ->
  (65 <=? nat_of_ascii capital)%nat && (nat_of_ascii capital <=? 90)%nat = true ->
  forall c, Controller.lowerChar c = small -> c = small \/ c = capital.
Proof.
  intros Hsmall Hshift Hcapital c. unfold Controller.lowerChar.
  destruct ((65 <=? nat_of_ascii c)%nat && (nat_of_ascii c <=? 90)%nat) eqn:Hc.
  - intros E. right. apply (f_equal nat_of_ascii) in E.
    apply andb_true_iff in Hc. destruct Hc as [Hlo Hhi].
    apply Nat.leb_le in Hlo, Hhi.
    rewrite nat_ascii_embedding in E by lia.
    rewrite <- (ascii_nat_embedding c), <- (ascii_nat_embedding capital).
    f_equal. lia.
  - intros ->. now left.
Qed.

(** X18. [queryBoolean] answers [false] for a parameter the query does
    not have and, for a string, [true] exactly when it spells 'true' in
    any mix of upper and lower case; any other defined value (the array a
    repeated parameter parses to, [null]) makes it raise a type error. *)
Theorem queryBoolean_reads_true_in_any_case (query : value) (key : string) :
  (get query key = Return VUndefined ->
   Controller.queryBoolean query key = Return false)
  /\ (forall s : string,
        get query key = Return (VStr s) ->
        exists b : bool,
          Controller.queryBoolean query key = Return b
          /\ (b = true <->
              exists c1 c2 c3 c4 : ascii,
                s = String c1 (String c2 (String c3 (String c4 EmptyString)))
                /\ In c1 ["t"; "T"]%char /\ In c2 ["r"; "R"]%char
                /\ In c3 ["u"; "U"]%char /\ In c4 ["e"; "E"]%char))
  /\ (forall v : value,
        get query key = Return v ->
        v <> VUndefined -> (forall s, v <> VStr s) ->
        exists e : Error,
          Controller.queryBoolean query key = Throw e /\ kind e = TypeError).
Proof.
  unfold Controller.queryBoolean. split; [|split].
  - intros ->. reflexivity.
  - intros s ->. cbn. exists (String.eqb (Controller.lower s) "true").
    split; [reflexivity|].
    pose proof (lowerChar_only "t" "T" eq_refl eq_refl eq_refl) as Ht.
    pose proof (lowerChar_only "r" "R" eq_refl eq_refl eq_refl) as Hr.
    pose proof (lowerChar_only "u" "U" eq_refl eq_refl eq_refl) as Hu.
    pose proof (lowerChar_only "e" "E" eq_refl eq_refl eq_refl) as He.
    rewrite String.eqb_eq. split.
    + destruct s as [|c1 [|c2 [|c3 [|c4 [|c5 rest]]]]];
        cbn [Controller.lower]; intros E; try discriminate.
      injection E as E1 E2 E3 E4.
      exists c1, c2, c3, c4. split; [reflexivity|].
      destruct (Ht c1 E1) as [->| ->], (Hr c2 E2) as [->| ->],
        (Hu c3 E3) as [->| ->], (He c4 E4) as [->| ->]; simpl; auto 10.
    + intros (c1 & c2 & c3 & c4 & -> & H1 & H2 & H3 & H4). simpl in *.
      destruct H1 as [<-|[<-|[]]], H2 as [<-|[<-|[]]], H3 as [<-|[<-|[]]],
        H4 as [<-|[<-|[]]]; reflexivity.
  - intros v -> Hdefined Hstring.
    destruct v; cbn; try congruence; eauto.
Qed.

End Queries.

Section Stubs.

Context {I : Type} `{Controller.Imposter I}.

Lemma next_evaluate {A B : Type} (a : A) (k : A -> Controller.C I B)
  (s : Controller.Service I) :
  Controller.next (Controller.evaluate (Return a)) k s = k a s.
Proof. reflexivity. Qed.

Lemma next_answer {A B : Type} (a : A) (k : A -> Controller.C I B)
  (s : Controller.Service I) :
  Controller.next (Controller.answer a) k s = k a s.
Proof. reflexivity. Qed.

Lemma next_imposterAt {B : Type} (id : value)
  (k : Property I -> Controller.C I B) (s : Controller.Service I) :
  Controller.next (Controller.imposterAt id) k s
  = k (property (Controller.imposters s !! toText id) (toText id)) s.
Proof. reflexivity. Qed.

Lemma next_imposter {B : Type} (id : value) (imposter : I)
  (k : Property I -> Controller.C I B) (s : Controller.Service I) :
  Controller.imposters s !! toText id = Some imposter ->
  Controller.next (Controller.imposterAt id) k s = k (Own imposter) s.
Proof. intros Himposter. now rewrite next_imposterAt, Himposter. Qed.

Lemma next_returns {A B : Type} (m : Controller.C I A)
  (k : A -> Controller.C I B) (a : A) (s s' : Controller.Service I) :
  m s = (Return a, s') -> Controller.next m k s = k a s'.
Proof. intros Hm. unfold Controller.next. now rewrite Hm. Qed.

Lemma next_updates {B : Type} (f : Controller.Service I -> Controller.Service I)
  (k : unit -> Controller.C I B) (s : Controller.Service I) :
  Controller.next (Controller.updates f) k s = k tt (f s).
Proof. reflexivity. Qed.

Lemma thenC_fulfilled (d : N) (v : value)
  (callback : value -> Controller.C I Promise) (s : Controller.Service I) :
  Controller.thenC (Settles d (Fulfils v)) callback s
  = match callback v s with
    | (Return (Settles d' outcome), s') =>
        (Return (Settles (d + d') outcome), s')
    | (Return Never, s') => (Return Never, s')
    | (Throw e, s') => (Return (Settles d (Rejects e)), s')
    end.
Proof. reflexivity. Qed.

(** The validator's verdict on new stubs, acted upon. *)
Lemma settle_result (id : value) (imposter : I) (install : I -> I)
  (result isValid errors : value) (s : Controller.Service I) :
  get result "isValid" = Return isValid ->
  get result "errors" = Return errors ->
  Controller.settle id (Own imposter) install result s
  = (Return (Q VUndefined),
     if truthy isValid then installed s id (install imposter)
     else refused s (Controller.ErrorsOf errors) 400).
Proof.
  intros Hvalid Herrors. unfold Controller.settle, Controller.next,
    Controller.evaluate. rewrite Hvalid.
  destruct (truthy isValid); [reflexivity|]. now rewrite Herrors.
Qed.

(** X19. [putStubs] looks at the [stubs] of the body before anything
    else: when it is absent or is not an array, the reply is status 400
    with the one validation error that says which, the validator is not
    asked and no imposter is touched, whether or not the imposter
    exists. *)
Theorem putStubs_requires_an_array (request id body stubs : value)
  (s : Controller.Service I) :
  Controller.param request "id" = Return id ->
  get request "body" = Return body ->
  get body "stubs" = Return stubs ->
  isArray stubs = false ->
  Controller.putStubs request s
  = (Return (Q VUndefined),
     refused s
       (Controller.Errors
          [mkError ValidationError
             (if defined stubs then "'stubs' must be an array"
              else "'stubs' is a required field")
             VUndefined VUndefined])
       400).
Proof.
  intros Hid Hbody Hstubs Harray.
  unfold Controller.putStubs, Controller.next, Controller.evaluate,
    Controller.imposterAt, Controller.looks.
  rewrite Hid, Hbody, Hstubs. unfold Controller.validateStubs.
  rewrite Harray. destruct (defined stubs); reflexivity.
Qed.

(** X20. [putStubs] with an array for an imposter that exists: the new
    stubs are installed, by the imposter's [overwriteStubs], only when
    the validator's result is valid, and then the imposter's JSON is
    sent; an invalid result is answered with status 400 and the
    validator's errors, and a validator that rejects is answered with
    nothing; in both cases the imposter is as it was. *)
Theorem putStubs_installs_only_valid_stubs
  (request id body : value) (newStubs : list value) (imposter : I)
  (validating : Promise) (s : Controller.Service I) :
  Controller.param request "id" = Return id ->
  get request "body" = Return body ->
  get body "stubs" = Return (VArr newStubs) ->
  Controller.imposters s !! toText id = Some imposter ->
  Controller.validation imposter (VArr newStubs) = Return validating ->
  match validating with
  | Settles d (Fulfils result) =>
      forall isValid errors : value,
        get result "isValid" = Return isValid ->
        get result "errors" = Return errors ->
        Controller.putStubs request s
        = (Return (Settles d (Fulfils VUndefined)),
           if truthy isValid
           then installed s id
                  (Controller.overwriteStubs imposter (VArr newStubs))
           else refused s (Controller.ErrorsOf errors) 400)
  | _ => Controller.putStubs request s = (Return validating, s)
  end.
Proof.
  intros Hid Hbody Hstubs Himposter Hvalidation.
  assert (Hrun :
    Controller.putStubs request s
    = Controller.thenC validating
        (Controller.settle id (Own imposter)
           (fun imposter => Controller.overwriteStubs imposter (VArr newStubs)))
        s).
  { unfold Controller.putStubs, Controller.next, Controller.evaluate,
      Controller.imposterAt, Controller.looks.
    rewrite Hid, Hbody, Hstubs, Himposter. cbn [property].
    cbn [Controller.validateStubs defined isArray negb length Nat.ltb Nat.leb].
    unfold Controller.validate, Controller.method, Controller.next,
      Controller.answer, Controller.evaluate.
    now rewrite Hvalidation. }
  rewrite Hrun.
  destruct validating as [d [result|e]|]; try reflexivity.
  intros isValid errors Hvalid Herrors. unfold Controller.thenC.
  rewrite (settle_result id imposter _ result isValid errors s Hvalid Herrors).
  unfold Q. now rewrite N.add_0_r.
Qed.


(** X21. [postStub] with an index that is an integer accepts it exactly
    when it lies between 0 and the number of stubs, and an absent index
    counts as that number, so that the stub goes last.  An integer out of
    this range and an index that is no number (a numeral in a string,
    say) are answered with status 400 and the validator is not asked; an
    accepted index is handed to the imposter's [addStubAtIndex] when the
    validator finds the stub valid.  (The numbers here are the integers:
    nothing is said of an index with a fractional part.) *)
Theorem postStub_accepts_an_index_within_the_stubs
  (request id body newStub given : value) (imposter : I)
  (s : Controller.Service I) :
  Controller.param request "id" = Return id ->
  get request "body" = Return body ->
  get body "stub" = Return newStub ->
  get body "index" = Return given ->
  Controller.imposters s !! toText id = Some imposter ->
  let count := Z.of_nat (length (Controller.stubsOf imposter)) in
  let index := if defined given then given else VNum count in
  let within :=
    match index with
    | VNum n => (0 <=? n)%Z && (n <=? count)%Z
    | _ => false
    end in
  (within = false ->
   Controller.postStub request s
   = (Return (Q VUndefined),
      refused s
        (Controller.Errors
           [mkError ValidationError
              "'index' must be between 0 and the length of the stubs array"
              VUndefined VUndefined])
        400))
  /\ (within = true ->
      forall (d : N) (result isValid errors : value),
        Controller.validation imposter (VArr [newStub])
        = Return (Settles d (Fulfils result)) ->
        get result "isValid" = Return isValid ->
        get result "errors" = Return errors ->
        Controller.postStub request s
        = (Return (Settles d (Fulfils VUndefined)),
           if truthy isValid
           then installed s id
                  (Controller.addStubAtIndex imposter index newStub)
           else refused s (Controller.ErrorsOf errors) 400)).
Proof.
  intros Hid Hbody Hstub Hgiven Himposter count index within.
  assert (Hhead :
    Controller.postStub request s
    = if within then
        Controller.next (Controller.validate (Own imposter) (VArr [newStub]))
          (fun validating =>
             Controller.thenC validating
               (Controller.settle id (Own imposter)
                  (fun imposter =>
                     Controller.addStubAtIndex imposter index newStub)))
          s
      else
        Controller.respondWithValidationErrors
          (Controller.Errors
             [mkError ValidationError
                "'index' must be between 0 and the length of the stubs array"
                VUndefined VUndefined])
          400 s).
  { unfold Controller.postStub, Controller.next at 1 2 3 4 5,
      Controller.evaluate, Controller.imposterAt, Controller.looks.
    rewrite Hid, Hbody, Hstub, Hgiven, Himposter. cbn [property].
    unfold within, index, count.
    destruct (defined given) eqn:Hdefined; cbn [negb].
    - unfold Controller.next at 1, Controller.answer at 1.
      destruct given as [| |b|n|t|items|fields|label]; try discriminate;
        try reflexivity.
      destruct (n <? 0)%Z eqn:Hneg.
      + unfold Controller.next, Controller.answer.
        replace (0 <=? n)%Z with false by (symmetry; apply Z.leb_gt; lia).
        reflexivity.
      + unfold Controller.next at 1 2, Controller.method, Controller.answer.
        replace (0 <=? n)%Z with true by (symmetry; apply Z.leb_le; lia).
        cbn [andb]. rewrite Z.ltb_antisym.
        destruct (n <=? Z.of_nat (length (Controller.stubsOf imposter)))%Z;
          reflexivity.
    - unfold Controller.next at 1 2 3, Controller.method, Controller.answer.
      replace (Z.of_nat (length (Controller.stubsOf imposter)) <? 0)%Z
        with false by (symmetry; apply Z.ltb_ge; lia).
      unfold Controller.next at 1 2, Controller.answer.
      rewrite Z.ltb_irrefl, Z.leb_refl.
      replace (0 <=? Z.of_nat (length (Controller.stubsOf imposter)))%Z
        with true by (symmetry; apply Z.leb_le; lia).
      reflexivity. }
  rewrite Hhead. split; intros ->; [reflexivity|].
  intros d result isValid errors Hvalidation Hvalid Herrors.
  unfold Controller.validate, Controller.method, Controller.next,
    Controller.answer, Controller.evaluate.
  rewrite Hvalidation. unfold Controller.thenC.
  rewrite (settle_result id imposter _ result isValid errors s Hvalid Herrors).
  unfold Q. now rewrite N.add_0_r.
Qed.


(** An array answers a numeral with the element at that position. *)
Lemma element_at (n i : nat) (items : list value) :
  Controller.element (decimal (N.of_nat (i + n))) i items = items !! n.
Proof.
  revert n i. induction items as [|x items IH]; intros n i; simpl.
  - reflexivity.
  - destruct (String.eqb_spec (decimal (N.of_nat (i + n))) (decimal (N.of_nat i)))
      as [E|Hne].
    + apply decimal_inj in E. replace n with 0 by lia. reflexivity.
    + destruct n as [|n]; [now rewrite Nat.add_0_r in Hne|].
      replace (i + S n) with (S i + n) by lia. apply IH.
Qed.

Lemma stubAt_numeral (imposter : I) (n : nat) :
  Controller.inherited (decimal (N.of_nat n)) = false ->
  defined (Controller.stubAt imposter (VStr (decimal (N.of_nat n))))
  = match Controller.stubsOf imposter !! n with
    | Some stub => defined stub
    | None => false
    end.
Proof.
  intros Hplain. unfold Controller.stubAt. cbn [toText].
  rewrite (element_at n 0).
  destruct (Controller.stubsOf imposter !! n); [reflexivity|].
  rewrite Hplain.
  destruct (String.eqb_spec (decimal (N.of_nat n)) "length") as [E|_];
    [|reflexivity].
  exfalso. revert E. apply decimal_not_named. simpl. intuition discriminate.
Qed.

Lemma validateStubIndex_numeral (imposter : I) (n : nat)
  (s : Controller.Service I) :
  Controller.inherited (decimal (N.of_nat n)) = false ->
  List.Forall (fun stub => defined stub = true) (Controller.stubsOf imposter) ->
  Controller.validateStubIndex (VStr (decimal (N.of_nat n))) (Own imposter) [] s
  = (Return
       (if (n <? length (Controller.stubsOf imposter))%nat then []
        else [mkError ValidationError
                "'stubIndex' must be a valid integer, representing the array index position of the stub to replace"
                VUndefined VUndefined]),
     s).
Proof.
  intros Hplain Hstubs.
  unfold Controller.validateStubIndex, Controller.method.
  rewrite next_answer, (stubAt_numeral imposter n Hplain).
  destruct (Nat.ltb_spec n (length (Controller.stubsOf imposter))) as [Hin|Hout].
  - destruct (lookup_lt_is_Some_2 _ _ Hin) as [stub Hstub]. rewrite Hstub.
    rewrite List.Forall_forall in Hstubs.
    rewrite (Hstubs stub)
      by (apply list_elem_of_In; eapply list_elem_of_lookup_2; eauto).
    reflexivity.
  - rewrite (lookup_ge_None_2 _ _ Hout). reflexivity.
Qed.

(** X23. [deleteStub] with a numeral for the stub index: when the
    imposter has a stub at that position, the imposter's
    [deleteStubAtIndex] is called with the index and the imposter's JSON
    is sent; when the position is past the last stub, the reply is status
    404 with a validation error and the imposter is not touched. *)
Theorem deleteStub_needs_a_stub_at_the_index
  (request id : value) (n : nat) (imposter : I) (s : Controller.Service I) :
  Controller.param request "id" = Return id ->
  Controller.param request "stubIndex" = Return (VStr (decimal (N.of_nat n))) ->
  Controller.imposters s !! toText id = Some imposter ->
  Controller.inherited (decimal (N.of_nat n)) = false ->
  List.Forall (fun stub => defined stub = true) (Controller.stubsOf imposter) ->
  Controller.deleteStub request s
  = (Return (Q VUndefined),
     if (n <? length (Controller.stubsOf imposter))%nat
     then installed s id
            (Controller.deleteStubAtIndex imposter
               (VStr (decimal (N.of_nat n))))
     else refused s
            (Controller.Errors
               [mkError ValidationError
                  "'stubIndex' must be a valid integer, representing the array index position of the stub to replace"
                  VUndefined VUndefined])
            404).
Proof.
  intros Hid Hindex Himposter Hplain Hstubs.
  unfold Controller.deleteStub, Controller.validateStubIndex,
    Controller.method, Controller.next, Controller.evaluate,
    Controller.imposterAt, Controller.looks, Controller.answer.
  rewrite Hid, Himposter, Hindex. cbn [property].
  rewrite (stubAt_numeral imposter n Hplain).
  destruct (Nat.ltb_spec n (length (Controller.stubsOf imposter))) as [Hin|Hout].
  - destruct (lookup_lt_is_Some_2 _ _ Hin) as [stub Hstub]. rewrite Hstub.
    rewrite List.Forall_forall in Hstubs.
    rewrite (Hstubs stub) by (apply list_elem_of_In; eapply list_elem_of_lookup_2; eauto).
    reflexivity.
  - rewrite (lookup_ge_None_2 _ _ Hout). reflexivity.
Qed.


(** X24. [putStub] tells an unknown position from an unacceptable stub: a
    numeral past the last stub is answered with status 404 and the
    validator is not asked; at a position that holds a stub, an invalid
    stub is answered with status 400 and the validator's errors, and a
    valid one is handed to the imposter's [overwriteStubAtIndex]. *)
Theorem putStub_tells_the_position_from_the_stub
  (request id newStub : value) (n : nat) (imposter : I)
  (s : Controller.Service I) :
  Controller.param request "id" = Return id ->
  get request "body" = Return newStub ->
  Controller.param request "stubIndex" = Return (VStr (decimal (N.of_nat n))) ->
  Controller.imposters s !! toText id = Some imposter ->
  Controller.inherited (decimal (N.of_nat n)) = false ->
  List.Forall (fun stub => defined stub = true) (Controller.stubsOf imposter) ->
  (length (Controller.stubsOf imposter) <= n ->
   Controller.putStub request s
   = (Return (Q VUndefined),
      refused s
        (Controller.Errors
           [mkError ValidationError
              "'stubIndex' must be a valid integer, representing the array index position of the stub to replace"
              VUndefined VUndefined])
        404))
  /\ (n < length (Controller.stubsOf imposter) ->
      forall (d : N) (result isValid errors : value),
        Controller.validation imposter (VArr [newStub])
        = Return (Settles d (Fulfils result)) ->
        get result "isValid" = Return isValid ->
        get result "errors" = Return errors ->
        Controller.putStub request s
        = (Return (Settles d (Fulfils VUndefined)),
           if truthy isValid
           then installed s id
                  (Controller.overwriteStubAtIndex imposter
                     (VStr (decimal (N.of_nat n))) newStub)
           else refused s (Controller.ErrorsOf errors) 400)).
Proof.
  intros Hid Hbody Hindex Himposter Hplain Hstubs.
  assert (Hhead :
    Controller.putStub request s
    = if (n <? length (Controller.stubsOf imposter))%nat then
        Controller.next (Controller.validate (Own imposter) (VArr [newStub]))
          (fun validating =>
             Controller.thenC validating
               (Controller.settle id (Own imposter)
                  (fun imposter =>
                     Controller.overwriteStubAtIndex imposter
                       (VStr (decimal (N.of_nat n))) newStub)))
          s
      else
        Controller.respondWithValidationErrors
          (Controller.Errors
             [mkError ValidationError
                "'stubIndex' must be a valid integer, representing the array index position of the stub to replace"
                VUndefined VUndefined])
          404 s).
  { unfold Controller.putStub.
    rewrite Hid, next_evaluate, (next_imposter _ _ _ _ Himposter), Hbody,
      next_evaluate, Hindex, next_evaluate.
    rewrite (next_returns _ _ _ _ _
               (validateStubIndex_numeral imposter n s Hplain Hstubs)).
    destruct (n <? length (Controller.stubsOf imposter))%nat; reflexivity. }
  rewrite Hhead. split.
  - intros Hout.
    replace (n <? length (Controller.stubsOf imposter))%nat with false
      by (symmetry; apply Nat.ltb_ge; lia).
    reflexivity.
  - intros Hin d result isValid errors Hvalidation Hvalid Herrors.
    replace (n <? length (Controller.stubsOf imposter))%nat with true
      by (symmetry; apply Nat.ltb_lt; lia).
    unfold Controller.validate, Controller.method, Controller.next,
      Controller.answer, Controller.evaluate.
    rewrite Hvalidation. unfold Controller.thenC.
    rewrite (settle_result id imposter _ result isValid errors s Hvalid Herrors).
    unfold Q. now rewrite N.add_0_r.
Qed.

(** X25. [validateStubIndex] asks only whether the array of stubs
    answers something under the given name, and an array answers its
    [length]: with [length] for the stub index, [deleteStub] does not
    refuse but calls the imposter's [deleteStubAtIndex] with that name. *)
Theorem length_passes_for_a_stub_index
  (request id : value) (imposter : I) (s : Controller.Service I) :
  Controller.param request "id" = Return id ->
  Controller.param request "stubIndex" = Return (VStr "length") ->
  Controller.imposters s !! toText id = Some imposter ->
  Controller.deleteStub request s
  = (Return (Q VUndefined),
     installed s id (Controller.deleteStubAtIndex imposter (VStr "length"))).
Proof.
  intros Hid Hindex Himposter.
  unfold Controller.deleteStub, Controller.validateStubIndex,
    Controller.method, Controller.next, Controller.evaluate,
    Controller.imposterAt, Controller.looks, Controller.answer.
  rewrite Hid, Himposter, Hindex. cbn [property].
  assert (Hnone : forall i items, Controller.element "length" i items = None).
  { intros i items. revert i.
    induction items as [|x items IH]; intros i; cbn [Controller.element];
      [reflexivity|].
    destruct (String.eqb_spec "length" (decimal (N.of_nat i))) as [E|_]; [|apply IH].
    exfalso. symmetry in E. revert E. apply decimal_not_named. simpl.
    intuition discriminate. }
  unfold Controller.stubAt. cbn [toText]. rewrite Hnone. reflexivity.
Qed.

(** A method called on what [imposters[id]] answers for an id without
    an imposter raises a type error. *)
Lemma method_of_no_imposter (name : string) (s : Controller.Service I) :
  exists e : Error,
    Controller.method (property (A := I) None name) s = (Throw e, s)
    /\ kind e = TypeError.
Proof.
  unfold property. destruct (inherits name); eexists; split; reflexivity.
Qed.

(** X22. [del] on an imposter sends the JSON taken before stopping, and
    removes the imposter from the map, once [stop] has fulfilled; when
    [stop] rejects or does not settle, nothing is sent and the imposter
    stays in the map.  On an id without an imposter it sends [{}] and
    changes nothing else, so that deleting twice is harmless, unless the
    id names a member of [Object.prototype]: the map answers that member,
    and [del] raises a type error with nothing sent. *)
Theorem del_removes_a_stopped_imposter (request id options : value)
  (s : Controller.Service I) :
  Controller.param request "id" = Return id ->
  Controller.optionsOf request = Return options ->
  match Controller.imposters s !! toText id with
  | Some imposter =>
      Controller.del request s
      = match Controller.stop imposter with
        | (Settles d (Fulfils _), stopped) =>
            (Return (Settles d (Fulfils VUndefined)),
             Controller.mkService
               (delete (toText id) (Controller.imposters s))
               (Controller.statusCode s)
               (Controller.events s
                ++ [Controller.Sent
                      (Controller.Json (Controller.toJSON imposter options))])
               (Controller.errorLog s))
        | (unsettled, stopped) =>
            (Return unsettled,
             Controller.withImposters s
               (<[toText id := stopped]> (Controller.imposters s)))
        end
  | None =>
      if inherits (toText id)
      then exists e : Error,
             Controller.del request s = (Throw e, s) /\ kind e = TypeError
      else Controller.del request s
           = (Return (Q (VBool true)),
              Controller.withEvents s
                (Controller.events s
                 ++ [Controller.Sent (Controller.Json emptyObject)]))
  end.
Proof.
  intros Hid Hoptions.
  unfold Controller.del.
  rewrite Hid, next_evaluate, next_imposterAt, Hoptions, next_evaluate.
  destruct (Controller.imposters s !! toText id) as [imposter|].
  - cbn [property Controller.method]. rewrite next_answer.
    unfold Controller.keep. rewrite next_updates.
    destruct (Controller.stop imposter) as [[d [v|e]|] stopped];
      try reflexivity.
    cbn [fst snd].
    rewrite thenC_fulfilled, next_evaluate.
    unfold Controller.forget, Controller.send.
    rewrite !next_updates. unfold Controller.answer, Q.
    unfold Controller.withEvents, Controller.withImposters. cbn.
    now rewrite delete_insert_eq, N.add_0_r.
  - unfold property. destruct (inherits (toText id)); [|reflexivity].
    eexists. split; reflexivity.
Qed.


(** X26. An id without an imposter: [get], [postRequest] and
    [postProxyResponse] call a method of what the map answers, which is
    no imposter, and raise a type error, with nothing sent.
    [resetProxies] checks first and sends [{}], unless the id names a
    member of [Object.prototype]: the check passes on that member and
    [resetProxies] raises a type error as well. *)
Theorem handlers_on_an_unknown_imposter
  (request id options body protoRequest proxyResponse key : value)
  (s : Controller.Service I) :
  Controller.param request "id" = Return id ->
  Controller.imposters s !! toText id = None ->
  Controller.optionsOf request = Return options ->
  get request "body" = Return body ->
  get body "request" = Return protoRequest ->
  get body "proxyResponse" = Return proxyResponse ->
  Controller.param request "proxyResolutionKey" = Return key ->
  (exists e, Controller.get request s = (Throw e, s) /\ kind e = TypeError)
  /\ (exists e,
        Controller.postRequest request s = (Throw e, s) /\ kind e = TypeError)
  /\ (exists e,
        Controller.postProxyResponse request s = (Throw e, s)
        /\ kind e = TypeError)
  /\ (if inherits (toText id)
      then exists e,
             Controller.resetProxies request s = (Throw e, s)
             /\ kind e = TypeError
      else Controller.resetProxies request s
           = (Return (Q (VBool true)),
              Controller.withEvents s
                (Controller.events s
                 ++ [Controller.Sent (Controller.Json emptyObject)]))).
Proof.
  intros Hid Hnone Hoptions Hbody Hrequest Hresponse Hkey.
  destruct (method_of_no_imposter (toText id) s) as (e & Hmethod & He).
  split; [|split; [|split]].
  - unfold Controller.get.
    rewrite Hoptions, next_evaluate, Hid, next_evaluate, next_imposterAt, Hnone.
    exists e. split; [|exact He].
    unfold Controller.next at 1. now rewrite Hmethod.
  - unfold Controller.postRequest.
    rewrite Hid, next_evaluate, next_imposterAt, Hnone, Hbody, next_evaluate,
      Hrequest, next_evaluate.
    exists e. split; [|exact He].
    unfold Controller.next at 1. now rewrite Hmethod.
  - unfold Controller.postProxyResponse.
    rewrite Hid, next_evaluate, next_imposterAt, Hnone, Hkey, next_evaluate,
      Hbody, next_evaluate, Hresponse, next_evaluate.
    exists e. split; [|exact He].
    unfold Controller.next at 1. now rewrite Hmethod.
  - unfold Controller.resetProxies.
    rewrite Hid, next_evaluate, next_imposterAt, Hnone.
    unfold property. destruct (inherits (toText id)); [|reflexivity].
    eexists. split; reflexivity.
Qed.

End Stubs.

(** ** Static responses are copies *)

(** Induction on values, through the lists they nest. *)
Section ValueInduction.

Variable P : value -> Prop.
Hypothesis P_undefined : P VUndefined.
Hypothesis P_null : P VNull.
Hypothesis P_bool : forall b, P (VBool b).
Hypothesis P_num : forall n, P (VNum n).
Hypothesis P_str : forall s, P (VStr s).
Hypothesis P_function : forall label, P (VFunction label).
Hypothesis P_arr : forall items, Forall P items -> P (VArr items).
Hypothesis P_obj : forall fs, Forall (fun kv => P (snd kv)) fs -> P (VObj fs).

Fixpoint value_nested_ind (v : value) : P v :=
  match v with
  | VUndefined => P_undefined
  | VNull => P_null
  | VBool b => P_bool b
  | VNum n => P_num n
  | VStr s => P_str s
  | VFunction label => P_function label
  | VArr items =>
      P_arr items
        ((fix all (l : list value) : Forall P l :=
            match l with
            | [] => @List.Forall_nil _ P
            | x :: rest => @List.Forall_cons _ P x rest (value_nested_ind x) (all rest)
            end) items)
  | VObj fs =>
      P_obj fs
        ((fix all (l : list (string * value))
            : Forall (fun kv => P (snd kv)) l :=
            match l with
            | [] => @List.Forall_nil _ _
            | kv :: rest =>
                @List.Forall_cons _ (fun kv => P (snd kv)) kv rest
                  (value_nested_ind (snd kv)) (all rest)
            end) fs)
  end.

End ValueInduction.

Module Sharing.

Import Heap.
#[local] Open Scope list_scope.

Lemma tree_agree (fuel : nat) (h h' : store) (x : word) (t : value) :
  agree (length h) h h' -> tree fuel h x = Some t -> tree fuel h' x = Some t.
Proof.
  intros Hagree. revert x t.
  induction fuel as [|fuel IH]; intros x t; destruct x; simpl; auto.
  destruct (h !! l) as [c|] eqn:Hl; [|discriminate].
  rewrite (Hagree l) by (eapply lookup_lt_Some; eauto). rewrite Hl.
  destruct c as [fs|items]; intros Htree;
    apply fmap_Some in Htree as (k & Hk & ->);
    apply fmap_Some; exists k; split; auto;
    apply mapM_Some in Hk; apply mapM_Some;
    eapply Forall2_impl; eauto; simpl;
    try (intros kv kt Hkv; apply fmap_Some in Hkv as (y & Hy & ->);
         apply fmap_Some; eauto).
Qed.

Lemma agree_app (h new : store) : agree (length h) h (h ++ new).
Proof. intros l Hl. now apply lookup_app_l. Qed.

Lemma tree_more_fuel (fuel fuel' : nat) (h : store) (x : word) (t : value) :
  fuel <= fuel' -> tree fuel h x = Some t -> tree fuel' h x = Some t.
Proof.
  revert fuel' x t.
  induction fuel as [|fuel IH]; intros fuel' x t Hle; destruct x; simpl;
    try (destruct fuel'; simpl; now auto).
  destruct fuel' as [|fuel']; [lia|]. simpl.
  destruct (h !! l) as [[fs|items]|]; try discriminate; intros Htree;
    apply fmap_Some in Htree as (k & Hk & ->);
    apply fmap_Some; exists k; split; auto;
    apply mapM_Some in Hk; apply mapM_Some;
    eapply Forall2_impl; eauto; simpl.
  - intros kv kt Hkv. apply fmap_Some in Hkv as (y & Hy & ->).
    apply fmap_Some. exists y. split; auto. apply (IH fuel'); auto. lia.
  - intros y yt Hy. apply (IH fuel'); auto. lia.
Qed.

Lemma above_le (n n' : nat) (x : word) : n <= n' -> above n' x -> above n x.
Proof. destruct x; simpl; auto. lia. Qed.

Lemma cellAbove_le (n n' : nat) (c : cell) :
  n <= n' -> cellAbove n' c -> cellAbove n c.
Proof.
  intros Hle Hc. eapply Forall_impl; [exact Hc|]. intros x. now apply above_le.
Qed.

Lemma allocEach_built (items : list value) :
  Forall (fun t => forall h, built t h (alloc t h)) items ->
  forall h, exists new : store,
    fst (allocEach alloc items h) = h ++ new
    /\ Forall (cellAbove (length h)) new
    /\ Forall (above (length h)) (snd (allocEach alloc items h))
    /\ forall fuel, Forall (fun t => depth t <= fuel) items ->
        mapM (tree fuel (fst (allocEach alloc items h)))
          (snd (allocEach alloc items h)) = Some items.
Proof.
  induction 1 as [|item rest Hitem _ IH]; intros h.
  - exists []. simpl. rewrite app_nil_r. auto.
  - destruct (Hitem h) as (n1 & E1 & Hc1 & Ha1 & Ht1).
    destruct (IH (fst (alloc item h))) as (n2 & E2 & Hc2 & Ha2 & Ht2).
    assert (Hlen : length h <= length (fst (alloc item h))).
    { rewrite E1, length_app. lia. }
    exists (n1 ++ n2). simpl.
    split; [rewrite E2, E1, app_assoc; reflexivity|]. split; [|split].
    + apply Forall_app. split; auto.
      eapply Forall_impl; [exact Hc2|]. intros c. now apply cellAbove_le.
    + constructor; auto.
      eapply Forall_impl; [exact Ha2|]. intros x. now apply above_le.
    + intros fuel Hfuel. inversion Hfuel as [|? ? Hd Hrest]; subst.
      rewrite (tree_agree fuel (fst (alloc item h))
                 (fst (allocEach alloc rest (fst (alloc item h)))) _ item).
      * simpl. rewrite (Ht2 fuel Hrest). reflexivity.
      * rewrite E2. apply agree_app.
      * now apply Ht1.
Qed.

Lemma allocFields_built (fs : list (string * value)) :
  Forall (fun kv => forall h, built (snd kv) h (alloc (snd kv) h)) fs ->
  forall h, exists new : store,
    fst (allocFields alloc fs h) = h ++ new
    /\ Forall (cellAbove (length h)) new
    /\ Forall (above (length h)) (map snd (snd (allocFields alloc fs h)))
    /\ forall fuel, Forall (fun kv => depth (snd kv) <= fuel) fs ->
        mapM (fun kv => pair (fst kv) <$> tree fuel (fst (allocFields alloc fs h)) (snd kv))
          (snd (allocFields alloc fs h)) = Some fs.
Proof.
  induction 1 as [|[k item] rest Hitem _ IH]; intros h.
  - exists []. simpl. rewrite app_nil_r. auto.
  - simpl in Hitem.
    destruct (Hitem h) as (n1 & E1 & Hc1 & Ha1 & Ht1).
    destruct (IH (fst (alloc item h))) as (n2 & E2 & Hc2 & Ha2 & Ht2).
    assert (Hlen : length h <= length (fst (alloc item h))).
    { rewrite E1, length_app. lia. }
    exists (n1 ++ n2). simpl.
    split; [rewrite E2, E1, app_assoc; reflexivity|]. split; [|split].
    + apply Forall_app. split; auto.
      eapply Forall_impl; [exact Hc2|]. intros c. now apply cellAbove_le.
    + constructor; auto.
      eapply Forall_impl; [exact Ha2|]. intros x. now apply above_le.
    + intros fuel Hfuel. inversion Hfuel as [|? ? Hd Hrest]; subst.
      rewrite (tree_agree fuel (fst (alloc item h))
                 (fst (allocFields alloc rest (fst (alloc item h)))) _ item).
      * simpl. rewrite (Ht2 fuel Hrest). reflexivity.
      * rewrite E2. apply agree_app.
      * now apply Ht1.
Qed.

Lemma mapM_agree {A B : Type} (f g : A -> option B) (l : list A) (k : list B) :
  (forall x y, f x = Some y -> g x = Some y) ->
  mapM f l = Some k -> mapM g l = Some k.
Proof.
  intros Hfg Hk. apply mapM_Some in Hk. apply mapM_Some.
  eapply Forall2_impl; eauto.
Qed.

Lemma alloc_built (t : value) : forall h, built t h (alloc t h).
Proof.
  induction t as [| | | | | |items IH|fs IH] using value_nested_ind; intros h;
    try (exists []; simpl; rewrite app_nil_r; repeat split; auto;
         intros fuel _; destruct fuel; reflexivity).
  - destruct (allocEach_built items IH h) as (new & E & Hc & Ha & Ht).
    exists (new ++ [CArray (snd (allocEach alloc items h))]).
    cbn [alloc fst snd].
    split; [rewrite E, app_assoc; reflexivity|]. split; [|split].
    + apply Forall_app. split; auto.
    + simpl. rewrite E, length_app. lia.
    + intros [|fuel] Hfuel; simpl in Hfuel; [lia|]. cbn [tree].
      rewrite list_lookup_middle by reflexivity.
      apply fmap_Some. exists items. split; auto.
      apply (mapM_agree (tree fuel (fst (allocEach alloc items h)))).
      * intros x y. apply tree_agree, agree_app.
      * apply Ht. apply Forall_forall. intros item Hin.
        assert (depth item <= list_max (map depth items)); [|lia].
        pose proof (proj1 (list_max_le (map depth items) _) (Nat.le_refl _))
          as Hall.
        rewrite List.Forall_forall in Hall.
        apply Hall, in_map, list_elem_of_In, Hin.
  - destruct (allocFields_built fs IH h) as (new & E & Hc & Ha & Ht).
    exists (new ++ [CObject (snd (allocFields alloc fs h))]).
    cbn [alloc fst snd].
    split; [rewrite E, app_assoc; reflexivity|]. split; [|split].
    + apply Forall_app. split; auto.
    + simpl. rewrite E, length_app. lia.
    + intros [|fuel] Hfuel; simpl in Hfuel; [lia|]. cbn [tree].
      rewrite list_lookup_middle by reflexivity.
      apply fmap_Some. exists fs. split; auto.
      apply (mapM_agree
               (fun kv => pair (fst kv)
                            <$> tree fuel (fst (allocFields alloc fs h)) (snd kv))).
      * intros kv kt Hkv. apply fmap_Some in Hkv as (y & Hy & ->).
        apply fmap_Some. exists y. split; auto.
        revert Hy. apply tree_agree, agree_app.
      * apply Ht. apply Forall_forall. intros kv Hin.
        assert (depth (snd kv)
                <= list_max (map (fun kv => depth (snd kv)) fs)); [|lia].
        pose proof (proj1 (list_max_le (map (fun kv => depth (snd kv)) fs) _)
                      (Nat.le_refl _)) as Hall.
        rewrite List.Forall_forall in Hall.
        apply Hall, (in_map (fun kv => depth (snd kv))), list_elem_of_In, Hin.
Qed.

Lemma reaches_above (h new : store) (x : word) (l : loc) :
  Forall (cellAbove (length h)) new ->
  reaches (h ++ new) x l -> above (length h) x -> length h <= l.
Proof.
  intros Hnew Hreach. induction Hreach as [l|l l' c x Hcell Hchild _ IH];
    simpl; auto.
  intros Hl. apply IH.
  rewrite lookup_app_r in Hcell by exact Hl.
  apply list_elem_of_lookup_2 in Hcell.
  rewrite Forall_forall in Hnew. specialize (Hnew c Hcell).
  unfold cellAbove in Hnew. rewrite Forall_forall in Hnew.
  apply Hnew, list_elem_of_In, Hchild.
Qed.

Lemma payloadOf_agree (h h' : store) (responseConfig payload : word) :
  agree (length h) h h' ->
  payloadOf h responseConfig = Some payload ->
  payloadOf h' responseConfig = Some payload.
Proof.
  intros Hagree. destruct responseConfig; simpl; auto.
  destruct (h !! l) as [c|] eqn:Hl; [|discriminate].
  now rewrite (Hagree l) by (eapply lookup_lt_Some; eauto); rewrite Hl.
Qed.

Lemma write_agree (h h1 : store) (l : loc) (k : string) (x : word) :
  agree (length h) h h1 -> length h <= l ->
  agree (length h) h (write h1 l k x).
Proof.
  intros Hagree Hl l' Hl'. unfold write.
  rewrite list_lookup_alter_ne by lia. now apply Hagree.
Qed.

(** C6. The static branch returns a copy of the configured payload: the
    returned word reads as the payload's tree and leads to cells made by
    the call only, none of the store as it was.  So a write into the
    returned value, and any change confined to cells made since the
    call, leaves the config and its payload as they were, and the next
    call with the same config returns the same tree again. *)
Theorem static_response_is_a_fresh_copy
  (fuel : nat) (h : store) (responseConfig payload : word) (t : value) :
  payloadOf h responseConfig = Some payload ->
  truthy payload = true ->
  tree fuel h payload = Some t ->
  exists (h1 : store) (copy : word),
    processResponse fuel h responseConfig = Some (h1, copy)
    /\ holds h1 copy t
    /\ agree (length h) h h1
    /\ (forall l : loc, reaches h1 copy l -> length h <= l)
    /\ (forall (l : loc) (k : string) (x : word),
          reaches h1 copy l -> agree (length h) h (write h1 l k x))
    /\ (forall h2 : store,
          agree (length h) h h2 ->
          payloadOf h2 responseConfig = Some payload
          /\ tree fuel h2 payload = Some t
          /\ exists (h3 : store) (copy' : word),
               processResponse fuel h2 responseConfig = Some (h3, copy')
               /\ holds h3 copy' t).
Proof.
  intros Hpayload Htruthy Htree.
  destruct (alloc_built t h) as (new & E & Hnew & Habove & Hread).
  exists (fst (alloc t h)), (snd (alloc t h)).
  assert (Hagree : agree (length h) h (fst (alloc t h))).
  { rewrite E. apply agree_app. }
  assert (Hfresh : forall l, reaches (fst (alloc t h)) (snd (alloc t h)) l ->
                             length h <= l).
  { intros l Hreach. rewrite E in Hreach. eapply reaches_above; eauto. }
  split; [|split; [|split; [|split; [|split]]]].
  - unfold processResponse, clone. rewrite Hpayload, Htruthy, Htree.
    now destruct (alloc t h).
  - exists (depth t). now apply Hread.
  - exact Hagree.
  - exact Hfresh.
  - intros l k x Hreach. apply write_agree; auto.
  - intros h2 Hagree2.
    pose proof (payloadOf_agree _ _ _ _ Hagree2 Hpayload) as Hpayload2.
    pose proof (tree_agree _ _ _ _ _ Hagree2 Htree) as Htree2.
    split; [exact Hpayload2|]. split; [exact Htree2|].
    destruct (alloc_built t h2) as (_ & _ & _ & _ & Hread2).
    exists (fst (alloc t h2)), (snd (alloc t h2)). split.
    + unfold processResponse, clone. rewrite Hpayload2, Htruthy, Htree2.
      now destruct (alloc t h2).
    + exists (depth t). now apply Hread2.
Qed.

End Sharing.

(** * The statements at sample inputs *)

#[local] Existing Instance plainCollaborators.

Lemma resolve_rejects_multiple_types_at_sample :
  2 <= typesSet mixedConfig
  /\ resolve None sampleCallbackURL mixedConfig sampleRequest emptyObject
       VUndefined (sampleWorld [])
     = (Return (mkResolution mixedConfig
                  (Q_reject (mkError ValidationError
                               "each response object must have only one response type"
                               mixedConfig VUndefined))),
        sampleWorld []).
Proof.
  split; [vm_compute; lia|].
  apply resolve_rejects_multiple_types. vm_compute. lia.
Defined.

(** A forged key that names a member of every object, presented while a
    delegation is pending. *)
Lemma forged_key_raises_a_type_error_at_sample :
  inherits "constructor" = true
  /\ resolveProxy sampleCallbackURL (observed "forged") "constructor"
       delegatedWorld
     <> (Return (Q_reject (mkError MissingResourceError
                             "invalid proxy resolution key"
                             (VStr (sampleCallbackURL ++ "/" ++ "constructor"))
                             VUndefined)),
         withErrorLog delegatedWorld
           (errorLog delegatedWorld ++
            [mkLog ("Invalid proxy resolution key: " ++ "constructor")
                   VUndefined])%list).
Proof.
  split; [reflexivity|].
  apply (forged_key_raises_a_type_error sampleCallbackURL (observed "forged")
           "constructor" delegatedWorld).
  reflexivity.
Defined.

(** The forged key at work: the call raises, where the claim has it
    rejected as a missing resource. *)
Lemma forged_key_at_work :
  resolveProxy sampleCallbackURL (observed "forged") "constructor"
    delegatedWorld
  = (Throw (mkError TypeError "Cannot read properties of undefined or null"
              VUndefined VUndefined),
     delegatedWorld)
  /\ resolveProxy sampleCallbackURL (observed "forged") "__proto__"
       delegatedWorld
     = (Throw (mkError TypeError "Cannot read properties of undefined or null"
                 VUndefined VUndefined),
        delegatedWorld).
Proof. split; vm_compute; reflexivity. Qed.

(** While the delegation under key 0 is pending, the name [00] does not
    reach it. *)
Lemma resolveProxy_unknown_key_at_sample :
  is_Some (pendingProxyResolutions delegatedWorld !! 0%N)
  /\ inherits "00" = false
  /\ resolveProxy sampleCallbackURL (observed "again") "00" delegatedWorld
     = (Return (Q_reject (mkError MissingResourceError
                            "invalid proxy resolution key"
                            (VStr "http://localhost:2525/imposters/4545/_requests/00")
                            VUndefined)),
        withErrorLog delegatedWorld
          (errorLog delegatedWorld ++
           [mkLog "Invalid proxy resolution key: 00" VUndefined])%list).
Proof.
  split; [vm_compute; eauto|]. split; [reflexivity|].
  apply (resolveProxy_unknown_key sampleCallbackURL (observed "again") "00"
           delegatedWorld); [|reflexivity].
  intros key Hname. exfalso.
  assert (Hnumber : numbered "00" = Some key)
    by (rewrite Hname; apply numbered_decimal).
  vm_compute in Hnumber. discriminate.
Defined.

Lemma dry_run_skips_the_logic_at_sample :
  isSet dynamicConfig "is" = false
  /\ isSet dynamicConfig "proxy" = false
  /\ isSet dynamicConfig "inject" = true
  /\ get dryRunRequest "isDryRun" = Return (VBool true)
  /\ processResponse None sampleCallbackURL dynamicConfig dryRunRequest
       emptyObject VUndefined (sampleWorld [])
     = (Return (mkResolution dynamicConfig (Settles 1 (Fulfils emptyObject))),
        sampleWorld []).
Proof.
  repeat (split; [reflexivity|]).
  apply (dry_run_skips_the_logic None sampleCallbackURL dynamicConfig
           dryRunRequest emptyObject VUndefined (sampleWorld []));
    reflexivity.
Defined.

Lemma proxyTransparent_never_records_at_sample :
  get (originConfig (inMode "proxyTransparent")) "proxy"
  = Return (VObj (originSection (inMode "proxyTransparent")))
  /\ get (VObj (originSection (inMode "proxyTransparent"))) "mode"
     = Return (VStr "proxyTransparent")
  /\ recordProxyResponse (originConfig (inMode "proxyTransparent"))
       sampleRequest (observed "first") (sampleWorld (inMode "proxyTransparent"))
     = (Return tt, sampleWorld (inMode "proxyTransparent"))
  /\ stubs (snd (proxyAndRecord (Some echoTransport) sampleCallbackURL
                   (originConfig (inMode "proxyTransparent")) sampleRequest
                   VUndefined (sampleWorld (inMode "proxyTransparent"))))
     = [originStub (inMode "proxyTransparent"); healthStub].
Proof.
  split; [reflexivity|]. split; [reflexivity|].
  destruct (proxyTransparent_never_records (Some echoTransport)
              sampleCallbackURL (originConfig (inMode "proxyTransparent"))
              (VObj (originSection (inMode "proxyTransparent")))
              eq_refl eq_refl) as (Hrecord & Hrun & _).
  split; [apply Hrecord|apply Hrun].
Defined.



Lemma always_adds_the_new_stub_last_at_sample :
  get (originConfig (inMode "proxyAlways")) "proxy"
  = Return (VObj (originSection (inMode "proxyAlways")))
  /\ fst (indexOfStubToAddResponseTo (originConfig (inMode "proxyAlways"))
            sampleRequest (sampleWorld (inMode "proxyAlways")))
     = Return (-1)%Z
  /\ exists w1 : World,
      recordProxyResponse (originConfig (inMode "proxyAlways")) sampleRequest
        (observed "first") (sampleWorld (inMode "proxyAlways"))
      = (Return tt, w1)
      /\ stubs w1 = [originStub (inMode "proxyAlways"); healthStub;
                     recordedStub ["first"]].
Proof.
  split; [reflexivity|]. split; [vm_compute; reflexivity|].
  destruct (always_adds_the_new_stub_last
           (originConfig (inMode "proxyAlways"))
           (VObj (originSection (inMode "proxyAlways")))
           (VArr [VObj [("matches", VObj [("path", VBool true)])]])
           sampleRequest pathPredicates eq_refl eq_refl eq_refl
           (sampleWorld (inMode "proxyAlways")) (observed "first")
           (VObj [("is", observed "first")]))
    as (w1 & Hrun & _ & Hlast & _); try (vm_compute; reflexivity).
  exists w1. split; [exact Hrun|exact Hlast].
Defined.

(** C1 at a sample repository: the origin, then another stub.  In
    [proxyAlways] mode the scan finds nothing and the new stub goes last,
    after the other stub; in [proxyOnce] mode it goes right after the
    origin.  With two origins in one repository, recording through either
    hands the repository the same stub and no origin, and leaves the same
    list, while the place right after the origin differs with the origin. *)
Lemma always_does_not_insert_after_the_origin :
  fst (indexOfStubToAddResponseTo (originConfig (inMode "proxyAlways"))
         sampleRequest (sampleWorld (inMode "proxyAlways")))
  = Return (-1)%Z
  /\ stubs (snd (recordProxyResponse (originConfig (inMode "proxyAlways"))
                   sampleRequest (observed "first")
                   (sampleWorld (inMode "proxyAlways"))))
     = [originStub (inMode "proxyAlways"); healthStub; recordedStub ["first"]]
  /\ stubs (snd (recordProxyResponse (originConfig (inMode "proxyOnce"))
                   sampleRequest (observed "first")
                   (sampleWorld (inMode "proxyOnce"))))
     = [originStub (inMode "proxyOnce"); recordedStub ["first"]; healthStub]
  /\ [originStub (inMode "proxyAlways"); healthStub; recordedStub ["first"]]
     <> [originStub (inMode "proxyAlways"); recordedStub ["first"]; healthStub]
  /\ stubs (snd (recordProxyResponse (originConfig (inMode "proxyAlways"))
                   sampleRequest (observed "first") twoOrigins))
     = stubs (snd (recordProxyResponse (originConfig secondMode)
                     sampleRequest (observed "first") twoOrigins))
  /\ addStub (recordedStub ["first"]) (Some (originConfig (inMode "proxyAlways")))
       (stubs twoOrigins)
     <> addStub (recordedStub ["first"]) (Some (originConfig secondMode))
          (stubs twoOrigins).
Proof.
  split; [vm_compute; reflexivity|].
  split; [vm_compute; reflexivity|].
  split; [vm_compute; reflexivity|].
  split; [intros E; inversion E|].
  split; [vm_compute; reflexivity|].
  vm_compute. intros E. inversion E.
Qed.

Lemma three_recordings_make_one_stub_at_sample :
  firstHolding (originConfig (inMode "proxyAlways"))
    (stubs (sampleWorld (inMode "proxyAlways")))
  < length (stubs (sampleWorld (inMode "proxyAlways")))
  /\ fst (indexOfStubToAddResponseTo (originConfig (inMode "proxyAlways"))
            sampleRequest (sampleWorld (inMode "proxyAlways")))
     = Return (-1)%Z
  /\ exists w1 w2 w3 : World,
      recordProxyResponse (originConfig (inMode "proxyAlways")) sampleRequest
        (observed "first") (sampleWorld (inMode "proxyAlways"))
      = (Return tt, w1)
      /\ recordProxyResponse (originConfig (inMode "proxyAlways")) sampleRequest
           (observed "second") w1
         = (Return tt, w2)
      /\ recordProxyResponse (originConfig (inMode "proxyAlways")) sampleRequest
           (observed "third") w2
         = (Return tt, w3)
      /\ stubs w3 = [originStub (inMode "proxyAlways"); healthStub;
                     recordedStub ["first"; "second"; "third"]].
Proof.
  split; [vm_compute; lia|]. split; [vm_compute; reflexivity|].
  destruct (three_recordings_make_one_stub
              (originConfig (inMode "proxyAlways"))
              (VObj (originSection (inMode "proxyAlways")))
              (VArr [VObj [("matches", VObj [("path", VBool true)])]])
              sampleRequest pathPredicates eq_refl eq_refl eq_refl
              (sampleWorld (inMode "proxyAlways"))
              (observed "first") (observed "second") (observed "third")
              (VObj [("is", observed "first")])
              (VObj [("is", observed "second")])
              (VObj [("is", observed "third")]))
    as (_ & w1 & w2 & w3 & H1 & _ & H2 & _ & H3 & Hstubs);
    try (vm_compute; reflexivity).
  - vm_compute. lia.
  - exists w1, w2, w3. auto.
Defined.

Lemma static_response_is_a_fresh_copy_at_sample :
  Heap.payloadOf Heap.sampleStore (Heap.HRef 2) = Some (Heap.HRef 1)
  /\ Heap.truthy (Heap.HRef 1) = true
  /\ Heap.tree 3 Heap.sampleStore (Heap.HRef 1) = Some Heap.sampleTree
  /\ exists (h1 : list Heap.cell) (copy : Heap.word),
      Heap.processResponse 3 Heap.sampleStore (Heap.HRef 2) = Some (h1, copy)
      /\ forall l : nat, Heap.reaches h1 copy l -> 3 <= l.
Proof.
  repeat (split; [reflexivity|]).
  destruct (Sharing.static_response_is_a_fresh_copy 3 Heap.sampleStore
              (Heap.HRef 2) (Heap.HRef 1) Heap.sampleTree
              eq_refl eq_refl eq_refl)
    as (h1 & copy & Hrun & _ & _ & Hfresh & _).
  exists h1, copy. split; [exact Hrun|exact Hfresh].
Defined.

Lemma static_resolve_at_sample :
  truthy (field "is" [("is", observed "stored")]) = true
  /\ truthy (field "proxy" [("is", observed "stored")]) = false
  /\ truthy (field "inject" [("is", observed "stored")]) = false
  /\ resolve None sampleCallbackURL (VObj [("is", observed "stored")])
       sampleRequest emptyObject VUndefined (sampleWorld [])
     = (Return (mkResolution (VObj [("is", observed "stored")])
                  (Q (VObj [("response", observed "stored")]))),
        sampleWorld []).
Proof.
  repeat (split; [reflexivity|]).
  exact (static_resolve None sampleCallbackURL [("is", observed "stored")]
           sampleRequest emptyObject VUndefined (sampleWorld [])
           eq_refl eq_refl eq_refl).
Defined.

Lemma faulty_injection_is_rejected_at_sample :
  evalInjection (Collaborators := faultyCollaborators)
    (field "inject" [("inject", VStr "function () { throw Error('boom'); }")])
    sampleRequest emptyObject
  = Raised "boom"
  /\ exists w' : World,
       resolve (H := faultyCollaborators) None sampleCallbackURL
         (VObj [("inject", VStr "function () { throw Error('boom'); }")])
         sampleRequest emptyObject VUndefined (sampleWorld [])
       = (Return (mkResolution
                    (VObj [("inject",
                            VStr "function () { throw Error('boom'); }")])
                    (Q_reject (mkError InjectionError
                                 "invalid response injection"
                                 (VStr "(function () { throw Error('boom'); })(config, injectState, logger, deferred.resolve, imposterState);")
                                 (VStr "boom")))),
          w')
       /\ stubs w' = stubs (sampleWorld []).
Proof.
  split; [reflexivity|].
  destruct (faulty_injection_is_rejected (H := faultyCollaborators) None
              sampleCallbackURL
              [("inject", VStr "function () { throw Error('boom'); }")]
              sampleRequest emptyObject VUndefined VUndefined "boom"
              (sampleWorld []) eq_refl eq_refl eq_refl eq_refl eq_refl eq_refl)
    as (w' & Hrun & Hstubs & _).
  exists w'. split; [exact Hrun|exact Hstubs].
Defined.

Lemma consumed_key_is_unknown_at_sample :
  resolveProxy sampleCallbackURL (observed "first") "0" delegatedWorld
  = (Return (Q (VObj [("statusCode", VNum 200); ("body", VStr "first");
                      ("_proxyResponseTime", VNum 0);
                      ("recordMatch", VFunction "recordMatch")])),
     completedWorld)
  /\ fst (resolveProxy sampleCallbackURL (observed "late") "0" completedWorld)
     = Return (Q_reject (mkError MissingResourceError
                           "invalid proxy resolution key"
                           (VStr "http://localhost:2525/imposters/4545/_requests/0")
                           VUndefined)).
Proof.
  assert (Hfirst :
    resolveProxy sampleCallbackURL (observed "first") "0" delegatedWorld
    = (Return (Q (VObj [("statusCode", VNum 200); ("body", VStr "first");
                      ("_proxyResponseTime", VNum 0);
                      ("recordMatch", VFunction "recordMatch")])),
     completedWorld)).
  { vm_compute. reflexivity. }
  split; [exact Hfirst|].
  rewrite (consumed_key_is_unknown sampleCallbackURL (observed "first")
             (observed "late") "0" 0 _ delegatedWorld completedWorld Hfirst).
  reflexivity.
Defined.

Lemma other_modes_always_add_a_stub_at_sample :
  isString "proxyAlways" (VStr "proxyOnce") = false
  /\ exists w1 w2 : World,
      recordProxyResponse (originConfig (inMode "proxyOnce")) sampleRequest
        (observed "first") (sampleWorld (inMode "proxyOnce"))
      = (Return tt, w1)
      /\ recordProxyResponse (originConfig (inMode "proxyOnce")) sampleRequest
           (observed "second") w1
         = (Return tt, w2)
      /\ stubs w2 = [originStub (inMode "proxyOnce"); recordedStub ["second"];
                     recordedStub ["first"]; healthStub].
Proof.
  split; [reflexivity|].
  destruct (other_modes_always_add_a_stub
              (originConfig (inMode "proxyOnce"))
              (VObj (originSection (inMode "proxyOnce"))) (VStr "proxyOnce")
              (VArr [VObj [("matches", VObj [("path", VBool true)])]])
              sampleRequest (observed "first") (VObj [("is", observed "first")])
              pathPredicates (sampleWorld (inMode "proxyOnce"))
              eq_refl eq_refl eq_refl eq_refl eq_refl)
    as (w1 & Hfirst & Hstubs1); try (vm_compute; reflexivity).
  destruct (other_modes_always_add_a_stub
              (originConfig (inMode "proxyOnce"))
              (VObj (originSection (inMode "proxyOnce"))) (VStr "proxyOnce")
              (VArr [VObj [("matches", VObj [("path", VBool true)])]])
              sampleRequest (observed "second")
              (VObj [("is", observed "second")])
              pathPredicates w1
              eq_refl eq_refl eq_refl eq_refl eq_refl)
    as (w2 & Hsecond & Hstubs2).
  - destruct (predicatesFor_again sampleRequest
                (js_or (VArr [VObj [("matches", VObj [("path", VBool true)])]])
                   (VArr []))
                pathPredicates (sampleWorld (inMode "proxyOnce")) w1)
      as (w' & Hrun & _); [vm_compute; reflexivity|].
    now rewrite Hrun.
  - vm_compute. reflexivity.
  - exists w1, w2. split; [exact Hfirst|]. split; [exact Hsecond|].
    rewrite Hstubs2, Hstubs1. vm_compute. reflexivity.
Defined.

Lemma unrecognized_response_type_at_sample :
  emptyObject <> VUndefined /\ emptyObject <> VNull
  /\ typesSet emptyObject = 0
  /\ resolve None sampleCallbackURL emptyObject sampleRequest emptyObject
       VUndefined (sampleWorld [])
     = (Return (mkResolution emptyObject
                  (Q_reject (mkError ValidationError
                               "unrecognized response type"
                               emptyObject VUndefined))),
        sampleWorld []).
Proof.
  split; [discriminate|]. split; [discriminate|]. split; [reflexivity|].
  apply (unrecognized_response_type sampleCallbackURL None emptyObject
           sampleRequest emptyObject VUndefined (sampleWorld []));
    [discriminate|discriminate|reflexivity].
Defined.

Lemma dynamic_resolve_at_sample :
  get sampleRequest "isDryRun" = Return VUndefined
  /\ resolve None sampleCallbackURL dynamicConfig sampleRequest emptyObject
       VUndefined (sampleWorld [])
     = (Return (mkResolution dynamicConfig
                  (Q (VObj [("response", sampleRequest)]))),
        withEvaluated (sampleWorld [])
          ["(function (config) { return { body: 'computed' }; })(config, injectState, logger, deferred.resolve, imposterState);"]).
Proof.
  split; [reflexivity|].
  exact (dynamic_resolve (H := plainCollaborators) sampleCallbackURL None
           [("inject", VStr "function (config) { return { body: 'computed' }; }")]
           sampleRequest emptyObject VUndefined VUndefined (sampleWorld [])
           eq_refl eq_refl eq_refl eq_refl eq_refl
           ltac:(intros fault; vm_compute; discriminate)).
Defined.

(** A transport whose call fails after 5 ms. *)
Lemma resolve_records_only_when_fulfilled_at_sample :
  modeGiven (originConfig (inMode "proxyOnce")) = true
  /\ stubs (snd (resolve
                   (Some (fun _ _ _ _ =>
                            (5%Z, Q_reject (mkError TypeError "socket hang up"
                                              VUndefined VUndefined))))
                   sampleCallbackURL (originConfig (inMode "proxyOnce"))
                   sampleRequest emptyObject VUndefined
                   (sampleWorld (inMode "proxyOnce"))))
     = [originStub (inMode "proxyOnce"); healthStub].
Proof.
  split; [reflexivity|].
  destruct (resolve_records_only_when_fulfilled (H := plainCollaborators)
              (Some (fun _ _ _ _ =>
                       (5%Z, Q_reject (mkError TypeError "socket hang up"
                                         VUndefined VUndefined))))
              sampleCallbackURL (originConfig (inMode "proxyOnce"))
              sampleRequest emptyObject VUndefined
              (sampleWorld (inMode "proxyOnce")) eq_refl)
    as [Hsame|(after & d & v & Hdone)]; [exact Hsame|discriminate].
Defined.

Lemma delegating_resolve_never_records_at_sample :
  modeGiven (originConfig (inMode "proxyAlways")) = true
  /\ stubs (snd (resolve None sampleCallbackURL
                   (originConfig (inMode "proxyAlways")) sampleRequest
                   emptyObject VUndefined (sampleWorld (inMode "proxyAlways"))))
     = [originStub (inMode "proxyAlways"); healthStub].
Proof.
  split; [reflexivity|].
  exact (delegating_resolve_never_records (H := plainCollaborators)
           sampleCallbackURL (originConfig (inMode "proxyAlways"))
           sampleRequest emptyObject VUndefined
           (sampleWorld (inMode "proxyAlways")) eq_refl).
Defined.

Lemma exchange_is_recorded_as_answered_at_sample :
  echoTransport (VStr "http://origin.test") sampleRequest
    (VObj (originSection (inMode "proxyOnce"))) VUndefined
  = (7%Z, Settles 0 (Fulfils (VObj [("echo", sampleRequest)])))
  /\ resolve (Some echoTransport) sampleCallbackURL
       (originConfig (inMode "proxyOnce")) sampleRequest emptyObject VUndefined
       (sampleWorld (inMode "proxyOnce"))
     = (Return (mkResolution (originConfig (inMode "proxyOnce"))
                  (Q (VObj [("echo", sampleRequest);
                            ("_proxyResponseTime", VNum 7)]))),
        mkWorld
          [originStub (inMode "proxyOnce");
           mkStub (VArr pathPredicates)
             [VObj [("is", VObj [("echo", sampleRequest);
                                 ("_proxyResponseTime", VNum 7)])]];
           healthStub]
          ∅ 0 1007 [] []).
Proof.
  split; [reflexivity|].
  exact (exchange_is_recorded_as_answered (H := plainCollaborators)
           sampleCallbackURL echoTransport
           [("proxy", VObj (originSection (inMode "proxyOnce")))]
           (originSection (inMode "proxyOnce")) [("echo", sampleRequest)]
           sampleRequest emptyObject VUndefined
           (VObj [("echo", sampleRequest); ("_proxyResponseTime", VNum 7)])
           7 0 0 (sampleWorld (inMode "proxyOnce"))
           eq_refl eq_refl eq_refl eq_refl eq_refl eq_refl).
Defined.

Lemma handshake_records_like_the_in_process_exchange_at_sample :
  pendingProxyResolutions (sampleWorld (inMode "proxyOnce"))
    !! nextProxyResolutionKey (sampleWorld (inMode "proxyOnce")) = None
  /\ stubs (snd (resolveProxy sampleCallbackURL (VObj [("echo", sampleRequest)]) "0"
                   (withClock delegatedWorld 1007)))
     = stubs (snd (resolve (Some echoTransport) sampleCallbackURL
                     (originConfig (inMode "proxyOnce")) sampleRequest
                     emptyObject VUndefined (sampleWorld (inMode "proxyOnce")))).
Proof.
  split; [reflexivity|].
  exact (proj1 (proj2
           (handshake_records_like_the_in_process_exchange
              (H := plainCollaborators) sampleCallbackURL echoTransport
              [("proxy", VObj (originSection (inMode "proxyOnce")))]
              (originSection (inMode "proxyOnce")) [("echo", sampleRequest)]
              sampleRequest emptyObject VUndefined 7
              (sampleWorld (inMode "proxyOnce"))
              eq_refl eq_refl eq_refl eq_refl eq_refl eq_refl))).
Defined.

Lemma failed_recording_leaves_the_repository_at_sample :
  recordProxyResponse queryConfig sampleRequest (observed "first")
    (initial [mkStub (VArr []) [queryConfig]; healthStub] 1000)
  = (typeError "Cannot read properties of undefined or null",
     initial [mkStub (VArr []) [queryConfig]; healthStub] 1000)
  /\ stubs (initial [mkStub (VArr []) [queryConfig]; healthStub] 1000)
     = [mkStub (VArr []) [queryConfig]; healthStub].
Proof.
  assert (Hrun :
    recordProxyResponse queryConfig sampleRequest (observed "first")
      (initial [mkStub (VArr []) [queryConfig]; healthStub] 1000)
    = (typeError "Cannot read properties of undefined or null",
       initial [mkStub (VArr []) [queryConfig]; healthStub] 1000))
    by (vm_compute; reflexivity).
  split; [exact Hrun|].
  exact (failed_recording_leaves_the_repository (H := plainCollaborators)
           queryConfig sampleRequest (observed "first") _ _ _ Hrun).
Defined.

Lemma in_process_resolver_never_delegates_at_sample :
  reachable (Some echoTransport) sampleCallbackURL
    (snd (resolve (Some echoTransport) sampleCallbackURL
            (originConfig (inMode "proxyOnce")) sampleRequest emptyObject
            VUndefined (sampleWorld (inMode "proxyOnce"))))
  /\ pendingProxyResolutions
       (snd (resolve (Some echoTransport) sampleCallbackURL
               (originConfig (inMode "proxyOnce")) sampleRequest emptyObject
               VUndefined (sampleWorld (inMode "proxyOnce"))))
     = ∅
  /\ fst (resolveProxy sampleCallbackURL (observed "late") "0"
            (snd (resolve (Some echoTransport) sampleCallbackURL
                    (originConfig (inMode "proxyOnce")) sampleRequest
                    emptyObject VUndefined (sampleWorld (inMode "proxyOnce")))))
     = Return (Q_reject (mkError MissingResourceError
                           "invalid proxy resolution key"
                           (VStr (sampleCallbackURL ++ "/" ++ "0"))
                           VUndefined)).
Proof.
  assert (Hlife :
    reachable (Some echoTransport) sampleCallbackURL
      (snd (resolve (Some echoTransport) sampleCallbackURL
              (originConfig (inMode "proxyOnce")) sampleRequest emptyObject
              VUndefined (sampleWorld (inMode "proxyOnce"))))).
  { exists [originStub (inMode "proxyOnce"); healthStub], 1000%Z.
    apply rtc_once. apply step_resolve. }
  split; [exact Hlife|].
  destruct (in_process_resolver_never_delegates (H := plainCollaborators)
              sampleCallbackURL echoTransport _ Hlife)
    as (Hnothing & _ & Hmissing).
  split; [exact Hnothing|].
  exact (Hmissing (observed "late") "0").
Defined.

Lemma scan_finds_the_first_match_after_the_origin_at_sample :
  get (originConfig (inMode "proxyAlways")) "proxy"
  = Return (VObj (originSection (inMode "proxyAlways")))
  /\ exists index : Z,
       fst (indexOfStubToAddResponseTo (originConfig (inMode "proxyAlways"))
              sampleRequest
              (initial [recordedStub ["early"];
                        originStub (inMode "proxyAlways");
                        healthStub; recordedStub ["late"]] 1000))
       = Return index.
Proof.
  split; [reflexivity|].
  destruct (scan_finds_the_first_match_after_the_origin
              (H := plainCollaborators)
              (originConfig (inMode "proxyAlways"))
              (VObj (originSection (inMode "proxyAlways")))
              (VArr [VObj [("matches", VObj [("path", VBool true)])]])
              sampleRequest pathPredicates
              (initial [recordedStub ["early"];
                        originStub (inMode "proxyAlways");
                        healthStub; recordedStub ["late"]] 1000)
              eq_refl eq_refl ltac:(vm_compute; reflexivity))
    as (index & Hindex & _).
  exists index. exact Hindex.
Defined.


(** A generator on the path, then the generator with a nested matcher
    on the query, for a request without a query. *)
Lemma nested_matcher_needs_the_field_at_sample :
  field "query" [("method", VStr "GET"); ("path", VStr "/orders")] = VUndefined
  /\ inherits "query" = false
  /\ exists (e : Error) (w' : World),
       predicatesFor sampleRequest
         (VArr [VObj [("matches", VObj [("path", VBool true)])];
                VObj queryGenerator])
         (sampleWorld [])
       = (Throw e, w')
       /\ kind e = TypeError.
Proof.
  split; [reflexivity|]. split; [reflexivity|].
  destruct (nested_matcher_needs_the_field (H := plainCollaborators)
              [VObj [("matches", VObj [("path", VBool true)])]] []
              queryGenerator [("query", VObj [("q", VBool true)])]
              [("method", VStr "GET"); ("path", VStr "/orders")]
              "query" "q" (VObj [("q", VBool true)]) [] (sampleWorld [])
              eq_refl eq_refl (or_introl eq_refl) eq_refl eq_refl eq_refl
              eq_refl eq_refl)
    as (e & w' & Hrun & Hkind).
  exists e, w'. split; [exact Hrun|].
  apply Hkind. repeat constructor.
Defined.


Lemma saved_stub_replays_the_latency_at_sample :
  truthy (field "addWaitBehavior" (originSection waitingMode)) = true
  /\ exists w1 : World,
       resolve (Some echoTransport) sampleCallbackURL
         (originConfig waitingMode) sampleRequest emptyObject VUndefined
         (sampleWorld waitingMode)
       = (Return (mkResolution (originConfig waitingMode)
                    (Q (VObj [("echo", sampleRequest);
                              ("_proxyResponseTime", VNum 7)]))),
          w1)
       /\ stubs w1
          = [originStub waitingMode;
             mkStub (VArr pathPredicates)
               [VObj [("is", VObj [("echo", sampleRequest);
                                   ("_proxyResponseTime", VNum 7)]);
                      ("_behaviors", VObj [("wait", VNum 7)])]];
             healthStub].
Proof.
  split; [reflexivity|].
  exact (saved_stub_replays_the_latency (H := plainCollaborators)
           sampleCallbackURL echoTransport
           [("proxy", VObj (originSection waitingMode))]
           (originSection waitingMode) [("echo", sampleRequest)]
           sampleRequest emptyObject VUndefined pathPredicates 7 0
           (sampleWorld waitingMode)
           eq_refl eq_refl eq_refl eq_refl eq_refl eq_refl eq_refl eq_refl
           ltac:(vm_compute; reflexivity)).
Defined.

#[local] Existing Instance stubList.

Lemma putStubs_requires_an_array_at_sample :
  isArray (VStr "none") = false
  /\ Controller.putStubs
       (requestTo "4545" [] (VObj [("stubs", VStr "none")])) sampleService
     = (Return (Q VUndefined),
        Controller.mkService {[ "4545" := [greeting] ]} 400
          [Controller.Sent
             (Controller.Errors
                [mkError ValidationError "'stubs' must be an array"
                   VUndefined VUndefined])]
          [("error changing stubs: ",
            Controller.Errors
              [mkError ValidationError "'stubs' must be an array"
                 VUndefined VUndefined])]).
Proof.
  split; [reflexivity|].
  exact (putStubs_requires_an_array (H := stubList)
           (requestTo "4545" [] (VObj [("stubs", VStr "none")]))
           (VStr "4545") (VObj [("stubs", VStr "none")]) (VStr "none")
           sampleService eq_refl eq_refl eq_refl eq_refl).
Defined.

Lemma putStubs_installs_only_valid_stubs_at_sample :
  Controller.imposters sampleService !! "4545" = Some [greeting]
  /\ Controller.putStubs
       (requestTo "4545" [] (VObj [("stubs", VArr [VStr "no stub"])]))
       sampleService
     = (Return (Q VUndefined),
        refused sampleService
          (Controller.ErrorsOf (VArr [VStr "a stub is an object"])) 400).
Proof.
  split; [vm_compute; reflexivity|].
  exact (putStubs_installs_only_valid_stubs (H := stubList)
           (requestTo "4545" [] (VObj [("stubs", VArr [VStr "no stub"])]))
           (VStr "4545") (VObj [("stubs", VArr [VStr "no stub"])])
           [VStr "no stub"] [greeting]
           (Q (stubListValidation (VArr [VStr "no stub"]))) sampleService
           eq_refl eq_refl eq_refl ltac:(vm_compute; reflexivity) eq_refl
           (VBool false) (VArr [VStr "a stub is an object"]) eq_refl eq_refl).
Defined.

Lemma postStub_accepts_an_index_within_the_stubs_at_sample :
  Controller.imposters sampleService !! "4545" = Some [greeting]
  /\ Controller.postStub
       (requestTo "4545" [] (VObj [("stub", greeting); ("index", VNum 2)]))
       sampleService
     = (Return (Q VUndefined),
        refused sampleService
          (Controller.Errors
             [mkError ValidationError
                "'index' must be between 0 and the length of the stubs array"
                VUndefined VUndefined])
          400).
Proof.
  split; [vm_compute; reflexivity|].
  exact (proj1
           (postStub_accepts_an_index_within_the_stubs (H := stubList)
              (requestTo "4545" []
                 (VObj [("stub", greeting); ("index", VNum 2)]))
              (VStr "4545") (VObj [("stub", greeting); ("index", VNum 2)])
              greeting (VNum 2) [greeting] sampleService
              eq_refl eq_refl eq_refl eq_refl ltac:(vm_compute; reflexivity))
           eq_refl).
Defined.

(** Deleting the imposter on port 4545, and then the "imposter" called
    [constructor]. *)
Lemma del_removes_a_stopped_imposter_at_sample :
  Controller.optionsOf (requestTo "4545" [] VUndefined)
  = Return (VObj [("replayable", VBool false); ("removeProxies", VBool false)])
  /\ Controller.imposters
       (snd (Controller.del (requestTo "4545" [] VUndefined) sampleService))
       !! "4545" = None
  /\ Controller.imposters sampleService !! "constructor" = None
  /\ exists e : Error,
       Controller.del (requestTo "constructor" [] VUndefined) sampleService
       = (Throw e, sampleService)
       /\ kind e = TypeError.
Proof.
  split; [reflexivity|]. split; [|split; [vm_compute; reflexivity|]].
  - rewrite (del_removes_a_stopped_imposter (H := stubList)
               (requestTo "4545" [] VUndefined) (VStr "4545")
               (VObj [("replayable", VBool false);
                      ("removeProxies", VBool false)])
               sampleService eq_refl eq_refl).
    vm_compute. reflexivity.
  - exact (del_removes_a_stopped_imposter (H := stubList)
             (requestTo "constructor" [] VUndefined) (VStr "constructor")
             (VObj [("replayable", VBool false);
                    ("removeProxies", VBool false)])
             sampleService eq_refl eq_refl).
Defined.

Lemma deleteStub_needs_a_stub_at_the_index_at_sample :
  Controller.param (requestTo "4545" [("stubIndex", VStr "3")] VUndefined)
    "stubIndex" = Return (VStr (decimal 3))
  /\ Controller.deleteStub
       (requestTo "4545" [("stubIndex", VStr "3")] VUndefined) sampleService
     = (Return (Q VUndefined),
        refused sampleService
          (Controller.Errors
             [mkError ValidationError
                "'stubIndex' must be a valid integer, representing the array index position of the stub to replace"
                VUndefined VUndefined])
          404).
Proof.
  split; [reflexivity|].
  exact (deleteStub_needs_a_stub_at_the_index (H := stubList)
           (requestTo "4545" [("stubIndex", VStr "3")] VUndefined)
           (VStr "4545") 3 [greeting] sampleService
           eq_refl eq_refl ltac:(vm_compute; reflexivity) eq_refl
           ltac:(repeat constructor)).
Defined.

Lemma putStub_tells_the_position_from_the_stub_at_sample :
  Controller.param (requestTo "4545" [("stubIndex", VStr "0")] (VStr "no stub"))
    "stubIndex" = Return (VStr (decimal 0))
  /\ Controller.putStub
       (requestTo "4545" [("stubIndex", VStr "0")] (VStr "no stub"))
       sampleService
     = (Return (Q VUndefined),
        refused sampleService
          (Controller.ErrorsOf (VArr [VStr "a stub is an object"])) 400).
Proof.
  split; [reflexivity|].
  exact (proj2
           (putStub_tells_the_position_from_the_stub (H := stubList)
              (requestTo "4545" [("stubIndex", VStr "0")] (VStr "no stub"))
              (VStr "4545") (VStr "no stub") 0 [greeting] sampleService
              eq_refl eq_refl eq_refl ltac:(vm_compute; reflexivity) eq_refl
              ltac:(repeat constructor))
           ltac:(simpl; lia) 0%N (stubListValidation (VArr [VStr "no stub"]))
           (VBool false) (VArr [VStr "a stub is an object"])
           eq_refl eq_refl eq_refl).
Defined.

Lemma length_passes_for_a_stub_index_at_sample :
  Controller.imposters sampleService !! "4545" = Some [greeting]
  /\ Controller.deleteStub
       (requestTo "4545" [("stubIndex", VStr "length")] VUndefined)
       sampleService
     = (Return (Q VUndefined),
        installed sampleService (VStr "4545") [greeting]).
Proof.
  split; [vm_compute; reflexivity|].
  exact (length_passes_for_a_stub_index (H := stubList)
           (requestTo "4545" [("stubIndex", VStr "length")] VUndefined)
           (VStr "4545") [greeting] sampleService
           eq_refl eq_refl ltac:(vm_compute; reflexivity)).
Defined.

Lemma handlers_on_an_unknown_imposter_at_sample :
  Controller.imposters sampleService !! "2525" = None
  /\ Controller.resetProxies
       (requestTo "2525" [("proxyResolutionKey", VStr "0")]
          (VObj [("request", sampleRequest);
                 ("proxyResponse", observed "first")]))
       sampleService
     = (Return (Q (VBool true)),
        Controller.withEvents sampleService
          [Controller.Sent (Controller.Json emptyObject)])
  /\ Controller.imposters sampleService !! "toString" = None
  /\ exists e : Error,
       Controller.resetProxies
         (requestTo "toString" [("proxyResolutionKey", VStr "0")]
            (VObj [("request", sampleRequest);
                   ("proxyResponse", observed "first")]))
         sampleService
       = (Throw e, sampleService)
       /\ kind e = TypeError.
Proof.
  split; [vm_compute; reflexivity|].
  split; [|split; [vm_compute; reflexivity|]].
  - exact (proj2 (proj2 (proj2
             (handlers_on_an_unknown_imposter (H := stubList)
                (requestTo "2525" [("proxyResolutionKey", VStr "0")]
                   (VObj [("request", sampleRequest);
                          ("proxyResponse", observed "first")]))
                (VStr "2525")
                (VObj [("replayable", VBool false);
                       ("removeProxies", VBool false)])
                (VObj [("request", sampleRequest);
                       ("proxyResponse", observed "first")])
                sampleRequest (observed "first") (VStr "0") sampleService
                eq_refl ltac:(vm_compute; reflexivity) eq_refl eq_refl eq_refl
                eq_refl eq_refl)))).
  - exact (proj2 (proj2 (proj2
             (handlers_on_an_unknown_imposter (H := stubList)
                (requestTo "toString" [("proxyResolutionKey", VStr "0")]
                   (VObj [("request", sampleRequest);
                          ("proxyResponse", observed "first")]))
                (VStr "toString")
                (VObj [("replayable", VBool false);
                       ("removeProxies", VBool false)])
                (VObj [("request", sampleRequest);
                       ("proxyResponse", observed "first")])
                sampleRequest (observed "first") (VStr "0") sampleService
                eq_refl ltac:(vm_compute; reflexivity) eq_refl eq_refl eq_refl
                eq_refl eq_refl)))).
Defined.
